(** * airenamer: a shallow embedding of [airenamer.py]

    Texts (Python [str]) are lists of characters.  A character is one of
    the code points 0 to 255; the classes [\d], [\w], [\s], [str.lower] and
    the IGNORECASE flag are the ones Python applies to these code points.

    Python's integers are [Z].  A call that may raise has an [outcome].
    What the program prints is not modelled; what it reads from outside
    (the clock, the vision service, the file system) is an argument. *)

From Stdlib Require Import String Ascii.
From Stdlib Require Import List Bool Arith ZArith Lia.
From Stdlib Require Import Sorting.Sorted Sorting.Permutation.
Import ListNotations.

Local Open Scope list_scope.

(** ** Characters and texts *)

Definition text := list ascii.

Definition str (s : string) : text := list_ascii_of_string s.

Definition code (c : ascii) : nat := nat_of_ascii c.

Definition between (lo hi : nat) (c : ascii) : bool :=
  (lo <=? code c) && (code c <=? hi).

(** [\d]: of the code points to 255 only the digits 0 to 9 are decimal
    digits. *)
Definition is_digit (c : ascii) : bool := between 48 57 c.

(** The letters with a lower case: A to Z, and of the code points above
    127 the letters 192 to 222 but the sign 215. *)
Definition is_upper (c : ascii) : bool :=
  between 65 90 c || between 192 214 c || between 216 222 c.

(** The letters whose upper case is one of the code points to 255: a to z,
    and the letters 224 to 254 but the sign 247. *)
Definition is_lower (c : ascii) : bool :=
  between 97 122 c || between 224 246 c || between 248 254 c.

(** [\w]: what [str.isalnum] accepts, and the underscore.  Above 127 these
    are the letters, the ordinal indicators 170 and 186, the micro sign
    181, the superscript digits 178, 179 and 185, and the fractions 188 to
    190. *)
Definition is_word (c : ascii) : bool :=
  is_digit c || is_upper c || is_lower c || (code c =? 95)
  || existsb (Nat.eqb (code c)) [170; 178; 179; 181; 185; 186; 188; 189; 190; 223; 255].

(** [\s] and [str.strip()]: tab, newline, vertical tab, form feed, carriage
    return, the four separators 0x1c-0x1f, the space, the next-line
    character 133 and the no-break space 160. *)
Definition is_space (c : ascii) : bool :=
  between 9 13 c || between 28 31 c || (code c =? 32) || (code c =? 133)
  || (code c =? 160).

Definition newline : ascii := ascii_of_nat 10.

Definition is_newline (c : ascii) : bool := code c =? 10.

Definition lower_char (c : ascii) : ascii :=
  if is_upper c then ascii_of_nat (code c + 32) else c.

(** The upper case of the sharp s (223), of the micro sign (181) and of
    the y with diaeresis (255) is not one of the code points to 255;
    [upper_char] leaves these three.  The program takes the upper case of
    one text only, the group [(AM|PM)] of a match, which holds none of
    them. *)
Definition upper_char (c : ascii) : ascii :=
  if is_lower c then ascii_of_nat (code c - 32) else c.

(** [str.lower()] and [str.upper()]. *)
Definition lower (s : text) : text := map lower_char s.
Definition upper (s : text) : text := map upper_char s.

Definition text_eqb (a b : text) : bool :=
  if list_eq_dec ascii_dec a b then true else false.

(** [s.endswith(suffix)] *)
Definition endswith (s suffix : text) : bool :=
  text_eqb (skipn (length s - length suffix) s) suffix.

(** ** Regular expressions: the fragment of Python's [re] the program uses

    The matcher is the backtracking one of [re]: alternatives are tried
    left to right, quantifiers are greedy, and the first complete match in
    that order is the result. *)

Inductive regex : Type :=
| Empty                          (* the empty pattern *)
| Lit (c : ascii)                (* a literal character *)
| Dot                            (* [.]: any character but a newline *)
| Digit                          (* [\d] *)
| Word                           (* [\w] *)
| Space                          (* [\s] *)
| Cat (a b : regex)              (* [ab] *)
| Alt (a b : regex)              (* [a|b] *)
| Star (a : regex)               (* [a*] *)
| Group (n : nat) (a : regex)    (* capturing group number [n] *)
| Bol                            (* [^] *)
| Eol.                           (* [$] *)

(** [a+], [a?], [a{n}] and [a{1,2}]. *)
Definition Plus (a : regex) : regex := Cat a (Star a).
Definition Opt (a : regex) : regex := Alt a Empty.

Fixpoint Rep (n : nat) (a : regex) : regex :=
  match n with
  | 0 => Empty
  | S n' => Cat a (Rep n' a)
  end.

(** [a{n,m}] is [a{n}] and then up to [m - n] more, as many as possible. *)
Fixpoint UpTo (k : nat) (a : regex) : regex :=
  match k with
  | 0 => Empty
  | S k' => Opt (Cat a (UpTo k' a))
  end.

Definition Range (n m : nat) (a : regex) : regex := Cat (Rep n a) (UpTo (m - n) a).

Fixpoint cat (rs : list regex) : regex :=
  match rs with
  | [] => Empty
  | r :: rs' => Cat r (cat rs')
  end.

(** The state of a match attempt: characters consumed so far, the rest of
    the subject, and the groups captured so far (latest first). *)
Record mstate : Type := MState {
  pos : nat;
  rest : text;
  caps : list (nat * text)
}.

Definition cont := mstate -> option mstate.

Definition test_char (p : ascii -> bool) (k : cont) (st : mstate) : option mstate :=
  match rest st with
  | c :: t => if p c then k (MState (S (pos st)) t (caps st)) else None
  | [] => None
  end.

(** A literal under the IGNORECASE flag. *)
Definition lit_test (ignorecase : bool) (a c : ascii) : bool :=
  if ignorecase
  then if ascii_dec (lower_char c) (lower_char a) then true else false
  else if ascii_dec c a then true else false.

Definition dot_test (c : ascii) : bool := negb (is_newline c).

Definition set_cap (n : nat) (w : text) (st : mstate) : mstate :=
  MState (pos st) (rest st) ((n, w) :: caps st).

(** The text consumed between two states of one attempt. *)
Definition consumed (st st' : mstate) : text :=
  firstn (length (rest st) - length (rest st')) (rest st).

(** Greedy iteration: one more round of [body] if it consumes something,
    otherwise on to the continuation.  A round consumes a character, so the
    length of the rest bounds the number of rounds. *)
Fixpoint star_loop (fuel : nat) (body : cont -> cont) (k : cont) (st : mstate)
  : option mstate :=
  match fuel with
  | 0 => k st
  | S fuel' =>
      match body (fun st' =>
                    if length (rest st') <? length (rest st)
                    then star_loop fuel' body k st'
                    else None) st with
      | Some r => Some r
      | None => k st
      end
  end.

Fixpoint run (ic : bool) (r : regex) (k : cont) (st : mstate) : option mstate :=
  match r with
  | Empty => k st
  | Lit a => test_char (lit_test ic a) k st
  | Dot => test_char dot_test k st
  | Digit => test_char is_digit k st
  | Word => test_char is_word k st
  | Space => test_char is_space k st
  | Cat a b => run ic a (run ic b k) st
  | Alt a b =>
      match run ic a k st with
      | Some r => Some r
      | None => run ic b k st
      end
  | Star a => star_loop (length (rest st)) (run ic a) k st
  | Group n a => run ic a (fun st' => k (set_cap n (consumed st st') st')) st
  | Bol => if pos st =? 0 then k st else None
  | Eol =>
      match rest st with
      | [] => k st
      | [c] => if is_newline c then k st else None
      | _ => None
      end
  end.

(** [re.match(pattern, s, re.IGNORECASE)] *)
Definition re_match (r : regex) (s : text) : option mstate :=
  run true r Some (MState 0 s []).

(** [re.search(pattern, s, re.IGNORECASE)]: the first start position, from
    the left, at which the pattern matches. *)
Fixpoint search_from (r : regex) (p : nat) (s : text) : option mstate :=
  match run true r Some (MState p s []) with
  | Some st => Some st
  | None =>
      match s with
      | [] => None
      | _ :: t => search_from r (S p) t
      end
  end.

Definition re_search (r : regex) (s : text) : option mstate := search_from r 0 s.

(** [match.group(n)]: [None] for a group that took no part in the match. *)
Fixpoint assoc (n : nat) (l : list (nat * text)) : option text :=
  match l with
  | [] => None
  | (m, w) :: l' => if n =? m then Some w else assoc n l'
  end.

Definition group (st : mstate) (n : nat) : option text := assoc n (caps st).

(** *** Reading a pattern

    The patterns stay in the file as the program writes them; this reader
    turns the notation into a [regex].  Groups are numbered by their opening
    parenthesis, as [re] does. *)

Definition is_char (a c : ascii) : bool := Ascii.eqb a c.

Fixpoint take_digits (s : text) : text * text :=
  match s with
  | c :: t =>
      if is_digit c then let (d, r) := take_digits t in (c :: d, r) else ([], s)
  | [] => ([], [])
  end.

Definition digit_value (c : ascii) : Z := Z.of_nat (code c - 48).

(** The value of a run of decimal digits. *)
Definition number (ds : text) : Z :=
  fold_left (fun acc c => (acc * 10 + digit_value c)%Z) ds 0%Z.

Definition count (ds : text) : nat := Z.to_nat (number ds).

(** A quantifier after an atom, if there is one. *)
Definition parse_quantifier (a : regex) (s : text) : option (regex * text) :=
  match s with
  | c :: t =>
      if is_char "*" c then Some (Star a, t)
      else if is_char "+" c then Some (Plus a, t)
      else if is_char "?" c then Some (Opt a, t)
      else if is_char "{" c then
        match take_digits t with
        | ([], _) => None
        | (n, c1 :: t1) =>
            if is_char "}" c1 then Some (Rep (count n) a, t1)
            else if is_char "," c1 then
              match take_digits t1 with
              | ([], _) => None
              | (m, c2 :: t2) =>
                  if is_char "}" c2
                  then Some (Range (count n) (count m) a, t2)
                  else None
              | (_, []) => None
              end
            else None
        | (_, []) => None
        end
      else Some (a, s)
  | [] => Some (a, s)
  end.

Definition parse_escape (c : ascii) : option regex :=
  if is_char "d" c then Some Digit
  else if is_char "w" c then Some Word
  else if is_char "s" c then Some Space
  else if is_word c then None
  else Some (Lit c).

Definition is_special (c : ascii) : bool :=
  is_char "*" c || is_char "+" c || is_char "?" c || is_char "{" c
  || is_char "}" c || is_char "[" c || is_char "]" c.

Fixpoint parse_alt (fuel : nat) (s : text) (g : nat) {struct fuel}
  : option (regex * text * nat) :=
  match fuel with
  | 0 => None
  | S fuel' =>
      match parse_seq fuel' s g with
      | Some (items, c :: s1, g1) =>
          if is_char "|" c then
            match parse_alt fuel' s1 g1 with
            | Some (r2, s2, g2) => Some (Alt (cat items) r2, s2, g2)
            | None => None
            end
          else Some (cat items, c :: s1, g1)
      | Some (items, [], g1) => Some (cat items, [], g1)
      | None => None
      end
  end

with parse_seq (fuel : nat) (s : text) (g : nat) {struct fuel}
  : option (list regex * text * nat) :=
  match fuel with
  | 0 => None
  | S fuel' =>
      match s with
      | [] => Some ([], [], g)
      | c :: _ =>
          if is_char "|" c || is_char ")" c then Some ([], s, g)
          else
            match parse_atom fuel' s g with
            | Some (a, s1, g1) =>
                match parse_quantifier a s1 with
                | Some (q, s2) =>
                    match parse_seq fuel' s2 g1 with
                    | Some (items, s3, g3) => Some (q :: items, s3, g3)
                    | None => None
                    end
                | None => None
                end
            | None => None
            end
      end
  end

with parse_atom (fuel : nat) (s : text) (g : nat) {struct fuel}
  : option (regex * text * nat) :=
  match fuel with
  | 0 => None
  | S fuel' =>
      match s with
      | [] => None
      | c :: t =>
          if is_char "(" c then
            match t with
            | q :: colon :: t' =>
                if is_char "?" q then
                  if is_char ":" colon then
                    match parse_alt fuel' t' g with
                    | Some (r, c' :: s1, g1) =>
                        if is_char ")" c' then Some (r, s1, g1) else None
                    | _ => None
                    end
                  else None
                else
                  match parse_alt fuel' t (S g) with
                  | Some (r, c' :: s1, g1) =>
                      if is_char ")" c' then Some (Group (S g) r, s1, g1) else None
                  | _ => None
                  end
            | _ => None
            end
          else if is_char "\" c then
            match t with
            | e :: t' =>
                match parse_escape e with
                | Some r => Some (r, t', g)
                | None => None
                end
            | [] => None
            end
          else if is_char "." c then Some (Dot, t, g)
          else if is_char "^" c then Some (Bol, t, g)
          else if is_char "$" c then Some (Eol, t, g)
          else if is_special c then None
          else Some (Lit c, t, g)
      end
  end.

(** [re.compile(pattern)]; [None] for a pattern outside the fragment. *)
Definition parse_regex (pattern : string) : option regex :=
  let s := str pattern in
  match parse_alt (3 * length s + 3) s 0 with
  | Some (r, [], _) => Some r
  | _ => None
  end.

Definition compile (pattern : string) : regex :=
  match parse_regex pattern with
  | Some r => r
  | None => Cat Bol (Cat (Lit newline) Bol)
  end.

(** ** Results of calls that may raise *)

Inductive outcome (A : Type) : Type :=
| Returns (a : A)
| Raises.

Arguments Returns {A} a.
Arguments Raises {A}.

Definition bind {A B : Type} (o : outcome A) (f : A -> outcome B) : outcome B :=
  match o with
  | Returns a => f a
  | Raises => Raises
  end.

Notation "x <- o ;; k" := (bind o (fun x => k))
  (at level 61, o at next level, right associativity).

(** ** Pure paths ([pathlib.PurePosixPath])

    A path is its anchor and its components; the empty and the [.]
    components of the text are dropped when a path is built.  (A text
    that starts with exactly two slashes keeps them in Python; here it is
    an absolute path like any other.)  The suffix is the one of Python up
    to 3.13: a name that ends with its only dot has none. *)

Record Path : Type := MkPath {
  absolute : bool;
  parts : list text
}.

Fixpoint split_on (sep : ascii) (s : text) : list text :=
  match s with
  | [] => [[]]
  | c :: t =>
      if is_char sep c then [] :: split_on sep t
      else match split_on sep t with
           | w :: ws => (c :: w) :: ws
           | [] => [[c]]
           end
  end.

Definition keeps_part (p : text) : bool :=
  negb (text_eqb p [] || text_eqb p (str ".")).

Definition path_of (s : text) : Path :=
  MkPath (match s with c :: _ => is_char "/" c | [] => false end)
         (filter keeps_part (split_on "/" s)).

(** [p.name] *)
Definition path_name (p : Path) : text := last (parts p) [].

(** [p.parent] *)
Definition path_parent (p : Path) : Path := MkPath (absolute p) (removelast (parts p)).

(** [p / s] *)
Definition joinpath (p : Path) (s : text) : Path :=
  let q := path_of s in
  if absolute q then q else MkPath (absolute p) (parts p ++ parts q).

(** [name.rfind('.')], when the dot is there. *)
Fixpoint rfind_dot (s : text) : option nat :=
  match s with
  | [] => None
  | c :: t =>
      match rfind_dot t with
      | Some i => Some (S i)
      | None => if is_char "." c then Some 0 else None
      end
  end.

(** Where the name splits into stem and suffix: at its last dot, unless
    that dot is the first or the last character. *)
Definition suffix_index (nm : text) : option nat :=
  match rfind_dot nm with
  | Some i => if (0 <? i) && (i <? length nm - 1) then Some i else None
  | None => None
  end.

(** [p.suffix] and [p.stem] *)
Definition path_suffix (p : Path) : text :=
  match suffix_index (path_name p) with
  | Some i => skipn i (path_name p)
  | None => []
  end.

Definition path_stem (p : Path) : text :=
  match suffix_index (path_name p) with
  | Some i => firstn i (path_name p)
  | None => path_name p
  end.

(** ** Numbers and their decimal notation

    Python's integers are unbounded: they are [Z] here. *)

Local Open Scope Z_scope.

Definition digit_char (d : Z) : ascii := ascii_of_nat (48 + Z.to_nat d).

Fixpoint decimal_aux (fuel : nat) (n : Z) (acc : text) : text :=
  match fuel with
  | O => acc
  | S fuel' =>
      let acc' := digit_char (n mod 10) :: acc in
      if n / 10 =? 0 then acc' else decimal_aux fuel' (n / 10) acc'
  end.

(** [str(n)] for [n >= 0]; a number has no more decimal digits than
    binary ones. *)
Definition decimal (n : Z) : text :=
  decimal_aux (S (Z.to_nat (Z.log2 n))) n [].

(** [f"{n:0{width}d}"] for [n >= 0]: zero-padded on the left, never cut. *)
Definition zero_pad (width : nat) (n : Z) : text :=
  repeat (digit_char 0) (width - length (decimal n)) ++ decimal n.

(** [int(s)] on the texts a group of digits can hold: a non-empty run of
    digits is its decimal value.  [None] is the [ValueError]; it is the
    answer for every other text, also for those few that [int] accepts
    (a sign, blanks around the digits). *)
Definition int (s : text) : option Z :=
  match s with
  | [] => None
  | _ => if forallb is_digit s then Some (number s) else None
  end.

(** ** [datetime] *)

Record datetime : Type := MkDatetime {
  year : Z;
  month : Z;
  day : Z;
  hour : Z;
  minute : Z;
  second : Z
}.

Definition MINYEAR : Z := 1.
Definition MAXYEAR : Z := 9999.

Definition is_leap (y : Z) : bool :=
  (y mod 4 =? 0) && (negb (y mod 100 =? 0) || (y mod 400 =? 0)).

Definition days_in_month (y m : Z) : Z :=
  if m =? 2 then (if is_leap y then 29 else 28)
  else if (m =? 4) || (m =? 6) || (m =? 9) || (m =? 11) then 30
  else 31.

Definition valid_datetime (y mo d h mi s : Z) : bool :=
  (MINYEAR <=? y) && (y <=? MAXYEAR) && (1 <=? mo) && (mo <=? 12)
  && (1 <=? d) && (d <=? days_in_month y mo)
  && (0 <=? h) && (h <=? 23) && (0 <=? mi) && (mi <=? 59)
  && (0 <=? s) && (s <=? 59).

(** [datetime(year, month, day, hour, minute, second)]; [None] is the
    [ValueError] of a field out of range. *)
Definition datetime_new (y mo d h mi s : Z) : option datetime :=
  if valid_datetime y mo d h mi s then Some (MkDatetime y mo d h mi s) else None.

(** [dt.strftime("%Y-%m-%d_%H-%M-%S")], [dt.strftime("%Y%m%d_%H%M%S")] and
    [dt.strftime("%Y-%m-%d")], with the year on four digits. *)
Definition strftime_datetime (dt : datetime) : text :=
  zero_pad 4 (year dt) ++ str "-" ++ zero_pad 2 (month dt) ++ str "-"
  ++ zero_pad 2 (day dt) ++ str "_" ++ zero_pad 2 (hour dt) ++ str "-"
  ++ zero_pad 2 (minute dt) ++ str "-" ++ zero_pad 2 (second dt).

Definition strftime_timestamp (dt : datetime) : text :=
  zero_pad 4 (year dt) ++ zero_pad 2 (month dt) ++ zero_pad 2 (day dt)
  ++ str "_" ++ zero_pad 2 (hour dt) ++ zero_pad 2 (minute dt)
  ++ zero_pad 2 (second dt).

Definition strftime_date (dt : datetime) : text :=
  zero_pad 4 (year dt) ++ str "-" ++ zero_pad 2 (month dt) ++ str "-"
  ++ zero_pad 2 (day dt).

Local Close Scope Z_scope.

(** ** [is_screenshot_file] *)

Definition screenshot_patterns : list string :=
  [ "^Screenshot \d{4}-\d{2}-\d{2} at \d{1,2}\.\d{2}\.\d{2} (AM|PM)\.png$"%string;
    "^Screen Shot \d{4}-\d{2}-\d{2} at \d{1,2}\.\d{2}\.\d{2} (AM|PM)\.png$"%string;
    "^CleanShot.*\.png$"%string;
    "^CleanShot.*\.jpg$"%string;
    "^CleanShot.*\.jpeg$"%string;
    "^Screenshot.*\.png$"%string;
    "^Screen Shot.*\.png$"%string ].

Definition matches (pattern : string) (filename : text) : bool :=
  match re_match (compile pattern) filename with
  | Some _ => true
  | None => false
  end.

Definition has_image_extension (filename : text) : bool :=
  let filename_lower := lower filename in
  endswith filename_lower (str ".png") || endswith filename_lower (str ".jpg")
  || endswith filename_lower (str ".jpeg").

Definition is_screenshot_file (filename : text) : bool :=
  if negb (has_image_extension filename) then false
  else existsb (fun pattern => matches pattern filename) screenshot_patterns.

(** ** [analyze_image_with_openai]: cleaning up the description *)

Definition is_hyphen (c : ascii) : bool := is_char "-" c.

Fixpoint drop_while (p : ascii -> bool) (s : text) : text :=
  match s with
  | c :: t => if p c then drop_while p t else s
  | [] => []
  end.

Fixpoint take_while (p : ascii -> bool) (s : text) : text :=
  match s with
  | c :: t => if p c then c :: take_while p t else []
  | [] => []
  end.

(** [s.strip()] and [s.strip('-')] *)
Definition strip_chars (p : ascii -> bool) (s : text) : text :=
  rev (drop_while p (rev (drop_while p s))).

(** [s.split('.')[0]] *)
Definition before_dot (s : text) : text :=
  take_while (fun c => negb (is_char "." c)) s.

(** [re.sub(r'[^\w\-]', '-', s)] *)
Definition hyphenate (s : text) : text :=
  map (fun c => if is_word c || is_hyphen c then c else "-"%char) s.

(** [re.sub(r'-+', '-', s)]: each run of hyphens becomes one. *)
Fixpoint squeeze (in_run : bool) (s : text) : text :=
  match s with
  | [] => []
  | c :: t =>
      if is_hyphen c
      then if in_run then squeeze true t else c :: squeeze true t
      else c :: squeeze false t
  end.

(** Lines 104-121: from the reply's content to the returned name. *)
Definition clean_description (content : text) : option text :=
  let description := strip_chars is_space content in
  let description := before_dot description in
  let description := hyphenate description in
  let description := squeeze false description in
  let description := strip_chars is_hyphen description in
  let description := firstn 50 description in
  match description with
  | [] => None
  | _ => Some (lower description)
  end.

(** What a call can depend on besides its arguments: the clock and the
    vision service.  [reply image_path] is the content of the service's
    answer for that image, [None] when there is none (package or key
    missing, unreadable file, a failed request). *)
Record world : Type := MkWorld {
  now : datetime;
  reply : Path -> option text
}.

Definition analyze_image_with_openai (w : world) (image_path : Path) : option text :=
  match reply w image_path with
  | None => None
  | Some content => clean_description content
  end.

(** ** [extract_datetime_from_screenshot] *)

Definition time_pattern_source : string :=
  "(?:Screenshot|CleanShot)(?:\s+\w+)?\s+(\d{4})-(\d{2})-(\d{2})\s+at\s+(\d{1,2})\.(\d{2})\.(\d{2})\s+(AM|PM)".

Definition time_pattern : regex := Eval vm_compute in compile time_pattern_source.

(** [int(match.group(n))]: raises on a group that is unset or not a number. *)
Definition int_group (m : mstate) (n : nat) : outcome Z :=
  match group m n with
  | Some w => match int w with Some v => Returns v | None => Raises end
  | None => Raises
  end.

(** Lines 145-149. *)
Definition to_24_hour (am_pm : text) (hour : Z) : Z :=
  if text_eqb am_pm (str "PM") && negb (hour =? 12)%Z then (hour + 12)%Z
  else if text_eqb am_pm (str "AM") && (hour =? 12)%Z then 0%Z
  else hour.

Fixpoint extract_with (patterns : list regex) (filename : text)
  : outcome (option datetime) :=
  match patterns with
  | [] => Returns None
  | pattern :: patterns' =>
      match re_search pattern filename with
      | Some m =>
          year <- int_group m 1 ;;
          month <- int_group m 2 ;;
          day <- int_group m 3 ;;
          hour <- int_group m 4 ;;
          minute <- int_group m 5 ;;
          second <- int_group m 6 ;;
          match group m 7 with
          | Some g7 =>
              let am_pm := upper g7 in
              let hour := to_24_hour am_pm hour in
              match datetime_new year month day hour minute second with
              | Some dt => Returns (Some dt)
              | None => extract_with patterns' filename
              end
          | None => Raises
          end
      | None => extract_with patterns' filename
      end
  end.

Definition extract_datetime_from_screenshot (filename : text)
  : outcome (option datetime) :=
  extract_with [time_pattern] filename.

(** ** [generate_new_name] *)

Definition nonempty (s : text) : bool :=
  match s with [] => false | _ => true end.

(** Lines 203-209, and the same steps at lines 175-179. *)
Definition add_prefix_suffix (prefix new_name suffix file_ext : text) : text :=
  let new_name := if nonempty prefix then prefix ++ str "_" ++ new_name else new_name in
  let new_name := if nonempty suffix then new_name ++ str "_" ++ suffix else new_name in
  new_name ++ file_ext.

(** Lines 184-209: the patterns that need no vision service. *)
Definition generate_plain (w : world) (old_name pattern prefix suffix : text)
  : outcome text :=
  let file_ext := path_suffix (path_of old_name) in
  let base_name := path_stem (path_of old_name) in
  new_name <-
    (if text_eqb pattern (str "datetime") then
       dt <- extract_datetime_from_screenshot old_name ;;
       match dt with
       | Some dt => Returns (strftime_datetime dt)
       | None => Returns (strftime_datetime (now w))
       end
     else if text_eqb pattern (str "timestamp") then
       Returns (strftime_timestamp (now w))
     else if text_eqb pattern (str "date") then
       dt <- extract_datetime_from_screenshot old_name ;;
       match dt with
       | Some dt => Returns (strftime_date dt)
       | None => Returns (strftime_date (now w))
       end
     else Returns base_name) ;;
  Returns (add_prefix_suffix prefix new_name suffix file_ext).

Definition generate_new_name (w : world) (old_name pattern prefix suffix : text)
    (file_path : option Path) : outcome text :=
  let file_ext := path_suffix (path_of old_name) in
  if text_eqb pattern (str "ai") || text_eqb pattern (str "content") then
    match file_path with
    | None => generate_plain w old_name (str "datetime") prefix suffix
    | Some file_path =>
        match analyze_image_with_openai w file_path with
        | Some ai_name => Returns (add_prefix_suffix prefix ai_name suffix file_ext)
        | None => generate_plain w old_name (str "datetime") prefix suffix
        end
    end
  else generate_plain w old_name pattern prefix suffix.

(** ** [find_screenshots]

    The file system the collector reads: a tree of directory entries.  The
    entries of a directory come in the order the system lists them.  A
    link says what it points to, a file or a directory, and no more: no
    path goes through a link. *)

#[warnings="-register-all"]
Inductive node : Type :=
| RegularFile
| Directory (entries : list (text * node))
| LinkToFile
| LinkToDirectory
| Special.

Fixpoint find_entry (nm : text) (entries : list (text * node)) : option node :=
  match entries with
  | [] => None
  | (nm', n) :: entries' => if text_eqb nm nm' then Some n else find_entry nm entries'
  end.

(** The node a list of components leads to, from the root. *)
Fixpoint resolve (n : node) (ps : list text) : option node :=
  match ps with
  | [] => Some n
  | p :: ps' =>
      match n with
      | Directory entries =>
          match find_entry p entries with
          | Some n' => resolve n' ps'
          | None => None
          end
      | _ => None
      end
  end.

(** [p.is_file()]: a regular file, or a link to one. *)
Definition is_file (root : node) (p : Path) : bool :=
  match resolve root (parts p) with
  | Some RegularFile | Some LinkToFile => true
  | _ => false
  end.

(** The path of an entry of a directory. *)
Definition child (dir : Path) (nm : text) : Path :=
  MkPath (absolute dir) (parts dir ++ [nm]).

(** A name against [*.ext], as a POSIX path matches it: the case counts. *)
Definition fnmatch_ext (ext nm : text) : bool := endswith nm (str "." ++ ext).

(** The entries of one directory that match [*.ext]. *)
Definition glob_entries (ext : text) (dir : Path) (entries : list (text * node))
  : list Path :=
  map (fun e => child dir (fst e)) (filter (fun e => fnmatch_ext ext (fst e)) entries).

(** [dir.glob("**/*.ext")] below a node: the directory itself, then each
    of its directories in turn; links to directories are not followed. *)
Fixpoint glob_tree (ext : text) (dir : Path) (n : node) {struct n} : list Path :=
  match n with
  | Directory entries =>
      glob_entries ext dir entries
      ++ flat_map (fun e => let '(nm, sub) := e in glob_tree ext (child dir nm) sub)
           entries
  | _ => []
  end.

(** [directory.glob("*.ext")] and [directory.glob("**/*.ext")]. *)
Definition glob (root : node) (directory : Path) (recursive : bool) (ext : text)
  : list Path :=
  match resolve root (parts directory) with
  | Some (Directory entries) =>
      if recursive then glob_tree ext directory (Directory entries)
      else glob_entries ext directory entries
  | _ => []
  end.

(** The order of paths: component by component, a component as a text by
    its characters' codes. *)
Fixpoint text_ltb (a b : text) : bool :=
  match a, b with
  | _, [] => false
  | [], _ :: _ => true
  | x :: a', y :: b' =>
      if code x <? code y then true
      else if code y <? code x then false
      else text_ltb a' b'
  end.

Fixpoint parts_ltb (p q : list text) : bool :=
  match p, q with
  | _, [] => false
  | [], _ :: _ => true
  | x :: p', y :: q' =>
      if text_ltb x y then true
      else if text_ltb y x then false
      else parts_ltb p' q'
  end.

Definition cparts (p : Path) : list text :=
  if absolute p then str "/" :: parts p else parts p.

Definition path_ltb (p q : Path) : bool := parts_ltb (cparts p) (cparts q).

(** [sorted(paths)]: the sort is stable, and so is this insertion. *)
Fixpoint insert_sorted (x : Path) (l : list Path) : list Path :=
  match l with
  | [] => [x]
  | y :: l' => if path_ltb y x then y :: insert_sorted x l' else x :: l
  end.

Definition sorted (l : list Path) : list Path := fold_right insert_sorted [] l.

Definition find_screenshots (root : node) (directory : Path) (recursive : bool)
  : list Path :=
  let files := glob root directory recursive (str "png")
               ++ glob root directory recursive (str "jpg")
               ++ glob root directory recursive (str "jpeg") in
  sorted (filter (fun file_path =>
                    is_file root file_path && is_screenshot_file (path_name file_path))
                 files).

(** ** [rename_screenshot] and the loop of [main]

    What the renaming needs of a file system: whether a path exists, and
    the renaming itself.  [Path.exists()] reads the file system and may
    raise: up to Python 3.13 it passes on every [OSError] but the four it
    takes for a missing path, so a name too long for the file system or a
    directory that may not be searched makes it raise.  The renaming may
    raise ([None]) and then changes nothing.

    A call that changes the file system returns its result and the file
    system it leaves, also when it raises. *)

Class FileSystem (FS : Type) : Type := {
  path_exists : FS -> Path -> outcome bool;
  os_rename : FS -> Path -> Path -> option FS
}.

Section Renaming.

Context {FS : Type} `{FileSystem FS}.

(** Lines 228-246.  The test of line 232 is outside the [try]: what it
    raises leaves the function; what the renaming raises is caught. *)
Definition rename_screenshot (fs : FS) (file_path : Path) (new_name : text)
    (dry_run : bool) : outcome bool * FS :=
  let new_path := joinpath (path_parent file_path) new_name in
  match path_exists fs new_path with
  | Raises => (Raises, fs)
  | Returns true => (Returns false, fs)
  | Returns false =>
      if dry_run then (Returns true, fs)
      else match os_rename fs file_path new_path with
           | Some fs' => (Returns true, fs')
           | None => (Returns false, fs)
           end
  end.

(** Lines 403-409: [Returns None] when [fuel] rounds did not reach a free
    name; it raises when the test of line 405 does. *)
Fixpoint free_name (fuel : nat) (fs : FS) (file_path : Path) (new_name : text)
    (counter : Z) : outcome (option text) :=
  match fuel with
  | O => Returns None
  | S fuel' =>
      taken <- path_exists fs (joinpath (path_parent file_path) new_name) ;;
      if taken then
        let name_parts := (path_stem (path_of new_name), path_suffix (path_of new_name)) in
        let new_name := fst name_parts ++ str "_" ++ zero_pad 3 counter ++ snd name_parts in
        free_name fuel' fs file_path new_name (counter + 1)%Z
      else Returns (Some new_name)
  end.

Record arguments : Type := MkArguments {
  arg_pattern : text;
  arg_prefix : text;
  arg_suffix : text;
  arg_dry_run : bool;
  arg_force : bool
}.

(** Lines 393-409: the name a file is to get. *)
Definition new_name_for (fuel : nat) (w : world) (args : arguments) (fs : FS)
    (file_path : Path) : outcome (option text) :=
  new_name <- generate_new_name w (path_name file_path) (arg_pattern args)
                (arg_prefix args) (arg_suffix args)
                (if text_eqb (arg_pattern args) (str "ai")
                    || text_eqb (arg_pattern args) (str "content")
                 then Some file_path else None) ;;
  if arg_force args then free_name fuel fs file_path new_name 1%Z
  else Returns (Some new_name).

(** Lines 391-413: the loop over the files, with the count of successes
    and the file system it leaves.  [world_of] gives the clock and the
    service at each file.  [Returns None]: the loop of the force mode did
    not end within [fuel] rounds. *)
Fixpoint process_files (fuel : nat) (world_of : Path -> world) (args : arguments)
    (files_to_process : list Path) (success_count : nat) (fs : FS)
  : outcome (option nat) * FS :=
  match files_to_process with
  | [] => (Returns (Some success_count), fs)
  | file_path :: files' =>
      match new_name_for fuel (world_of file_path) args fs file_path with
      | Raises => (Raises, fs)
      | Returns None => (Returns None, fs)
      | Returns (Some new_name) =>
          match rename_screenshot fs file_path new_name (arg_dry_run args) with
          | (Raises, fs') => (Raises, fs')
          | (Returns ok, fs') =>
              process_files fuel world_of args files'
                (if ok then S success_count else success_count) fs'
          end
      end
  end.

End Renaming.

(** A directory as the list of the paths that exist, on a file system
    whose names hold at most [NAME_MAX] bytes, as those of macOS and Linux
    do: for a path with a longer component [Path.exists()] raises, as up
    to Python 3.13; renaming a path that is not there, or to such a name,
    raises. *)
Definition path_eqb (p q : Path) : bool :=
  Bool.eqb (absolute p) (absolute q)
  && (if list_eq_dec (list_eq_dec ascii_dec) (parts p) (parts q) then true else false).

Definition listed (fs : list Path) (p : Path) : bool := existsb (path_eqb p) fs.

Definition NAME_MAX : nat := 255.

(** The bytes of a name in UTF-8: one for a code point below 128, two for
    the others to 255. *)
Definition utf8_length (s : text) : nat :=
  list_sum (map (fun c => if code c <? 128 then 1 else 2) s).

Definition name_too_long (p : Path) : bool :=
  existsb (fun part => NAME_MAX <? utf8_length part) (parts p).

Definition listed_exists (fs : list Path) (p : Path) : outcome bool :=
  if name_too_long p then Raises else Returns (listed fs p).

Definition listed_rename (fs : list Path) (src dst : Path) : option (list Path) :=
  if listed fs src && negb (name_too_long dst)
  then Some (dst :: filter (fun p => negb (path_eqb p src || path_eqb p dst)) fs)
  else None.

#[export] Instance listing_fs : FileSystem (list Path) := {
  path_exists := listed_exists;
  os_rename := listed_rename
}.

(** ** The words of the specification, for comparison *)

(** An instant in the shape [Screenshot YYYY-MM-DD at H.MM.SS AM|PM.png],
    the hour on the 12-hour clock, on one or two digits. *)
Definition hour_12 (h : Z) : Z :=
  if (h mod 12 =? 0)%Z then 12%Z else (h mod 12)%Z.

Definition meridiem (h : Z) : text :=
  if (h <? 12)%Z then str "AM" else str "PM".

Definition screenshot_name (two_digits : bool) (dt : datetime) : text :=
  str "Screenshot " ++ zero_pad 4 (year dt) ++ str "-" ++ zero_pad 2 (month dt)
  ++ str "-" ++ zero_pad 2 (day dt) ++ str " at "
  ++ (if two_digits then zero_pad 2 (hour_12 (hour dt)) else decimal (hour_12 (hour dt)))
  ++ str "." ++ zero_pad 2 (minute dt) ++ str "." ++ zero_pad 2 (second dt)
  ++ str " " ++ meridiem (hour dt) ++ str ".png".

(** "Replace any run of non-word, non-hyphen characters with a single
    hyphen". *)
Fixpoint replace_runs (in_run : bool) (s : text) : text :=
  match s with
  | [] => []
  | c :: t =>
      if negb (is_word c || is_hyphen c)
      then if in_run then replace_runs true t else "-"%char :: replace_runs true t
      else c :: replace_runs false t
  end.

(** "Strip everything from the first literal dot onward": the characters
    before the place of the first dot. *)
Fixpoint first_dot (s : text) : nat :=
  match s with
  | [] => 0
  | c :: t => if is_char "." c then 0 else S (first_dot t)
  end.

Definition strip_from_first_dot (s : text) : text := firstn (first_dot s) s.

(** "Collapse consecutive hyphens": a hyphen before a hyphen goes. *)
Fixpoint collapse_hyphens (s : text) : text :=
  match s with
  | [] => []
  | c :: t =>
      match t with
      | d :: _ =>
          if is_char "-" c && is_char "-" d then collapse_hyphens t
          else c :: collapse_hyphens t
      | [] => [c]
      end
  end.

(** "Trim leading/trailing hyphens". *)
Fixpoint trim_leading (s : text) : text :=
  match s with
  | c :: t => if is_char "-" c then trim_leading t else s
  | [] => []
  end.

Fixpoint trim_trailing (s : text) : text :=
  match s with
  | [] => []
  | c :: t =>
      match trim_trailing t with
      | [] => if is_char "-" c then [] else [c]
      | t' => c :: t'
      end
  end.

(** The sanitization as the specification words it, step by step, with
    definitions of its own; an empty result stands for the failure of the
    collaborator. *)
Definition sanitize_spec (raw : text) : text :=
  let d := strip_from_first_dot raw in
  let d := replace_runs false d in
  let d := collapse_hyphens d in
  let d := trim_trailing (trim_leading d) in
  let d := firstn 50 d in
  lower d.

(** The core name of a new file name, pattern by pattern. *)
Definition core_name (w : world) (old_name pattern : text) (description : option text)
  : text :=
  let extracted :=
    match extract_datetime_from_screenshot old_name with
    | Returns (Some dt) => dt
    | _ => now w
    end in
  if text_eqb pattern (str "ai") || text_eqb pattern (str "content") then
    match description with
    | Some d => d
    | None => strftime_datetime extracted
    end
  else if text_eqb pattern (str "datetime") then strftime_datetime extracted
  else if text_eqb pattern (str "timestamp") then strftime_timestamp (now w)
  else if text_eqb pattern (str "date") then strftime_date extracted
  else path_stem (path_of old_name).

(** "prefix (with underscore separator, only if non-empty), then the core
    name, then suffix (with underscore separator, only if non-empty), then
    the original extension". *)
Definition assemble (prefix core suffix extension : text) : text :=
  (match prefix with [] => [] | _ => prefix ++ str "_" end)
  ++ core
  ++ (match suffix with [] => [] | _ => str "_" ++ suffix end)
  ++ extension.

(** ** What a match is

    [den ic r st st']: the pattern [r] can take an attempt from the state
    [st] to the state [st'].  The matcher finds one such path, the first in
    its order; this relation describes them all. *)

Definition step (p : ascii -> bool) (st st' : mstate) : Prop :=
  exists c, rest st = c :: rest st' /\ p c = true
            /\ pos st' = S (pos st) /\ caps st' = caps st.

Inductive star_den (R : mstate -> mstate -> Prop) : mstate -> mstate -> Prop :=
| star_done : forall st, star_den R st st
| star_more : forall st st1 st2,
    R st st1 -> length (rest st1) < length (rest st) ->
    star_den R st1 st2 -> star_den R st st2.

Fixpoint den (ic : bool) (r : regex) (st st' : mstate) : Prop :=
  match r with
  | Empty => st' = st
  | Lit a => step (lit_test ic a) st st'
  | Dot => step dot_test st st'
  | Digit => step is_digit st st'
  | Word => step is_word st st'
  | Space => step is_space st st'
  | Cat a b => exists mid, den ic a st mid /\ den ic b mid st'
  | Alt a b => den ic a st st' \/ den ic b st st'
  | Star a => star_den (den ic a) st st'
  | Group n a => exists mid, den ic a st mid /\ st' = set_cap n (consumed st mid) mid
  | Bol => pos st = 0 /\ st' = st
  | Eol => (rest st = [] \/ exists c, rest st = [c] /\ is_newline c = true) /\ st' = st
  end.

(** The values a name holds for the pattern, as they are written in it:
    year, month, day, hour, minute, second and the upper-cased marker. *)
Definition embedded_fields (filename : text)
  : option (Z * Z * Z * Z * Z * Z * text) :=
  match re_search time_pattern filename with
  | None => None
  | Some m =>
      match group m 1, group m 2, group m 3, group m 4,
            group m 5, group m 6, group m 7 with
      | Some y, Some mo, Some d, Some h, Some mi, Some s, Some ap =>
          Some (number y, number mo, number d, number h, number mi, number s, upper ap)
      | _, _, _, _, _, _, _ => None
      end
  end.

(** The date-time the fields stand for, the hour converted; [None] when
    they are not those of a real calendar date-time. *)
Definition fields_datetime (f : Z * Z * Z * Z * Z * Z * text) : option datetime :=
  let '(y, mo, d, h, mi, s, ap) := f in
  datetime_new y mo d (to_24_hour ap h) mi s.

(** The items of a concatenation, as the reader builds it. *)
Fixpoint items (r : regex) : list regex :=
  match r with
  | Cat a b => a :: items b
  | Empty => []
  | _ => [r]
  end.

(** What comes before the last [n] items of a pattern. *)
Definition front (n : nat) (r : regex) : list regex :=
  firstn (length (items r) - n) (items r).

(** The disjunction of the shapes alone, without the check of the
    extension. *)
Definition matches_a_shape (filename : text) : bool :=
  existsb (fun pattern => matches pattern filename) screenshot_patterns.

(** The description the generator gets for a file, if it asks. *)
Definition description_for (w : world) (file_path : option Path) : option text :=
  match file_path with
  | Some p => analyze_image_with_openai w p
  | None => None
  end.

(** A directory that holds [shot.png] and [shot_001.png], and the file to
    rename. *)
Definition shots : list Path :=
  [ path_of (str "/d/shot.png"); path_of (str "/d/shot_001.png");
    path_of (str "/d/Screenshot 2024-01-15 at 3.45.10 PM.png") ].

(** A directory with one screenshot whose extension is in capitals. *)
Definition capitals : node :=
  Directory
    [ (str "shots",
       Directory [ (str "Screenshot 2024-01-01 at 10.00.00 AM.PNG", RegularFile) ]) ].

(** A world whose vision service answers every image with the same text. *)
Definition world_replying (content : text) : world :=
  MkWorld (MkDatetime 2025 6 1 12 0 0) (fun _ => Some content).

(** The order of the sorted list: the next path is not before this one. *)
Definition path_le (p q : Path) : Prop := path_ltb q p = false.

(** The three extensions the collector globs for. *)
Definition globbed_extensions : list text := [str "png"; str "jpg"; str "jpeg"].

(** A tree as a file system has it: the names in a directory are
    different from one another, at every level. *)
Fixpoint well_formed (n : node) : Prop :=
  match n with
  | Directory entries =>
      NoDup (map fst entries)
      /\ (fix each (es : list (text * node)) : Prop :=
            match es with
            | [] => True
            | (_, sub) :: es' => well_formed sub /\ each es'
            end) entries
  | _ => True
  end.

(** A name of one component: no separator in it, and long enough to be
    neither empty nor [.]. *)
Definition no_slash (s : text) : bool := forallb (fun c => negb (is_char "/" c)) s.

Definition simple_name (s : text) : Prop := no_slash s = true /\ 2 <= length s.

(** The longest name a listing holds. *)
Definition longest_name (fs : list Path) : nat :=
  list_max (map (fun p => length (path_name p)) fs).

(** A desktop with screenshots, other files, a directory named like a
    screenshot and a directory of older captures. *)
Definition desktop : node :=
  Directory
    [ (str "Desktop",
       Directory
         [ (str "Screenshot 2024-01-15 at 3.45.10 PM.png", RegularFile);
           (str "CleanShot 2024-01-15.jpg", LinkToFile);
           (str "notes.png", RegularFile);
           (str "Screenshot old.png", Directory []);
           (str "archive", Directory [ (str "CleanShot X.jpeg", RegularFile) ]) ]) ].


(** A path is below a directory: the components of the directory, and
    then some more. *)
Definition below (directory p : Path) : Prop :=
  exists nm rel, parts p = parts directory ++ nm :: rel
                 /\ absolute p = absolute directory.

(** No dot in a text. *)
Definition no_dot (s : text) : bool := forallb (fun c => negb (is_char "." c)) s.

(** Lines 63-70 of [analyze_image_with_openai]: the media type the image is
    sent with. *)
Definition mime_type (image_path : Path) : text :=
  let image_format := lower (path_suffix image_path) in
  if text_eqb image_format (str ".jpg") || text_eqb image_format (str ".jpeg")
  then str "image/jpeg"
  else if text_eqb image_format (str ".png") then str "image/png"
  else str "image/png".

(** A name with a date and a time of day in the notation of macOS, after
    the word [word]. *)
Definition stamped_name (word ys ms ds hs ns ss ap : text) : text :=
  word ++ str " " ++ ys ++ str "-" ++ ms ++ str "-" ++ ds ++ str " at "
  ++ hs ++ str "." ++ ns ++ str "." ++ ss ++ str " " ++ ap ++ str ".png".

(** [w] is a part of [s]: [w in s]. *)
Definition part_of (w s : text) : Prop := exists u v, s = u ++ w ++ v.





(** A test that does not see the case of a letter. *)
Definition ci_test (p : ascii -> bool) : Prop :=
  forall c c', lower_char c = lower_char c' -> p c = p c'.

(** ** Measures and checks used in the proofs *)

(** The least number of characters a match of the pattern takes. *)
Fixpoint min_len (r : regex) : nat :=
  match r with
  | Lit _ | Dot | Digit | Word | Space => 1
  | Cat a b => min_len a + min_len b
  | Alt a b => Nat.min (min_len a) (min_len b)
  | Group _ a => min_len a
  | Empty | Star _ | Bol | Eol => 0
  end.

(** The most characters a match of the pattern takes, when there is a bound. *)
Fixpoint max_len (r : regex) : option nat :=
  match r with
  | Lit _ | Dot | Digit | Word | Space => Some 1
  | Cat a b =>
      match max_len a, max_len b with
      | Some x, Some y => Some (x + y)
      | _, _ => None
      end
  | Alt a b =>
      match max_len a, max_len b with
      | Some x, Some y => Some (Nat.max x y)
      | _, _ => None
      end
  | Group _ a => max_len a
  | Empty | Bol | Eol => Some 0
  | Star _ => None
  end.

(** A pattern made of [\d] alone. *)
Fixpoint only_digits (r : regex) : bool :=
  match r with
  | Digit | Empty => true
  | Cat a b | Alt a b => only_digits a && only_digits b
  | Star a => only_digits a
  | _ => false
  end.

(** A pattern that captures nothing. *)
Fixpoint no_group (r : regex) : bool :=
  match r with
  | Group _ _ => false
  | Cat a b | Alt a b => no_group a && no_group b
  | Star a => no_group a
  | _ => true
  end.

(** A check on each of the 256 characters. *)
Definition every_char (f : ascii -> bool) : bool :=
  forallb f (map ascii_of_nat (seq 0 256)).

Definition char_eqb (a b : ascii) : bool := Ascii.eqb a b.

(** [w] is the notation of [n] on [lo] to [hi] digits. *)
Definition notation_ok (lo hi : nat) (w : text) (n : Z) : bool :=
  (lo <=? length w) && (length w <=? hi) && forallb is_digit w && (number w =? n)%Z.

(** The extensions the shapes end with. *)
Definition is_extension (ext : text) : Prop :=
  ext = str ".png" \/ ext = str ".jpg" \/ ext = str ".jpeg".

(** A pattern that takes no newline. *)
Fixpoint no_newline (r : regex) : bool :=
  match r with
  | Lit a => dot_test a
  | Space => false
  | Empty | Dot | Digit | Word | Bol | Eol => true
  | Cat a b | Alt a b => no_newline a && no_newline b
  | Star a | Group _ a => no_newline a
  end.

(** The items of a pattern between its first [n] and its last [k]. *)
Definition middle (n k : nat) (r : regex) : list regex :=
  firstn (length (items r) - n - k) (skipn n (items r)).

(** * Theorems *)

(** ** The matcher finds matches only *)

Lemma star_loop_sound (body : cont -> cont) (R : mstate -> mstate -> Prop) :
  (forall k st res, body k st = Some res -> exists st', R st st' /\ k st' = Some res) ->
  forall fuel k st res,
    star_loop fuel body k st = Some res ->
    exists st', star_den R st st' /\ k st' = Some res.
Proof.
  intros Hbody fuel. induction fuel as [|fuel IH]; intros k st res Hrun; simpl in Hrun.
  - exists st. split; [constructor | exact Hrun].
  - destruct (body _ st) as [r|] eqn:Hb.
    + injection Hrun as ->.
      apply Hbody in Hb. destruct Hb as (st1 & HR & Hk).
      destruct (length (rest st1) <? length (rest st)) eqn:Hlt; [|discriminate].
      apply Nat.ltb_lt in Hlt.
      apply IH in Hk. destruct Hk as (st2 & Hstar & Hk).
      exists st2. split; [|exact Hk]. eapply star_more; eauto.
    + exists st. split; [constructor | exact Hrun].
Qed.

Lemma test_char_sound (p : ascii -> bool) (k : cont) (st res : mstate) :
  test_char p k st = Some res -> exists st', step p st st' /\ k st' = Some res.
Proof.
  unfold test_char. destruct (rest st) as [|c t] eqn:Hr; [discriminate|].
  destruct (p c) eqn:Hp; [|discriminate].
  intros Hk. eexists. split; [|exact Hk].
  exists c. simpl. auto.
Qed.

Lemma run_sound (ic : bool) (r : regex) :
  forall k st res,
    run ic r k st = Some res -> exists st', den ic r st st' /\ k st' = Some res.
Proof.
  induction r; intros k st res Hrun; simpl in Hrun |- *;
    try (apply test_char_sound; exact Hrun).
  - eauto.
  - apply IHr1 in Hrun. destruct Hrun as (mid & H1 & H2).
    apply IHr2 in H2. destruct H2 as (st' & H2 & Hk). eauto.
  - destruct (run ic r1 k st) eqn:H1.
    + injection Hrun as ->. apply IHr1 in H1. destruct H1 as (st' & ? & ?). eauto.
    + apply IHr2 in Hrun. destruct Hrun as (st' & ? & ?). eauto.
  - eapply star_loop_sound; eauto.
  - apply IHr in Hrun. destruct Hrun as (mid & H1 & Hk). eauto.
  - destruct (pos st =? 0) eqn:Hp; [|discriminate].
    apply Nat.eqb_eq in Hp. eauto.
  - destruct (rest st) as [|c [|c' t]] eqn:Hr; try discriminate.
    + eauto.
    + destruct (is_newline c) eqn:Hn; [|discriminate]. exists st. eauto 6.
Qed.

Lemma search_from_sound (r : regex) :
  forall s p m, search_from r p s = Some m ->
    exists q t, den true r (MState q t []) m.
Proof.
  induction s as [|c s IH]; intros p m Hs; simpl in Hs.
  - destruct (run true r Some (MState p [] [])) eqn:Hr; [|discriminate].
    injection Hs as ->. apply run_sound in Hr. destruct Hr as (st' & Hd & Hk).
    injection Hk as ->. eauto.
  - destruct (run true r Some (MState p (c :: s) [])) eqn:Hr.
    + injection Hs as ->. apply run_sound in Hr. destruct Hr as (st' & Hd & Hk).
      injection Hk as ->. eauto.
    + eapply IH; eauto.
Qed.

(** ** The matcher finds a match when there is one *)

Lemma test_char_complete (p : ascii -> bool) (k : cont) (st st' : mstate) :
  step p st st' -> k st' <> None -> test_char p k st <> None.
Proof.
  intros (c & Hr & Hp & Hpos & Hc) Hk. unfold test_char. rewrite Hr, Hp.
  destruct st' as [p' r' c']. simpl in *. subst. exact Hk.
Qed.

Lemma star_loop_complete (body : cont -> cont) (R : mstate -> mstate -> Prop) :
  (forall k st st', R st st' -> k st' <> None -> body k st <> None) ->
  forall st st', star_den R st st' ->
    forall fuel k, length (rest st) <= fuel -> k st' <> None ->
      star_loop fuel body k st <> None.
Proof.
  intros Hbody st st' Hstar.
  induction Hstar as [st|st st1 st2 H1 Hlt Hstar IH]; intros fuel k Hfuel Hk.
  - destruct fuel; simpl; [exact Hk|].
    destruct (body _ st); [discriminate | exact Hk].
  - destruct fuel as [|fuel]; [lia|]. simpl.
    destruct (body _ st) eqn:Hb; [discriminate|]. exfalso.
    revert Hb. apply (Hbody _ st st1 H1).
    rewrite (proj2 (Nat.ltb_lt _ _) Hlt). apply IH; [lia | exact Hk].
Qed.

Lemma run_complete (ic : bool) (r : regex) :
  forall k st st', den ic r st st' -> k st' <> None -> run ic r k st <> None.
Proof.
  induction r; intros k st st' Hd Hk; simpl in Hd |- *;
    try (eapply test_char_complete; eassumption).
  - subst. exact Hk.
  - destruct Hd as (mid & H1 & H2). eapply IHr1; [exact H1|]. eapply IHr2; eassumption.
  - destruct (run ic r1 k st) eqn:Hr1; [discriminate|].
    destruct Hd as [Hd|Hd]; [|eapply IHr2; eassumption].
    exfalso. revert Hr1. eapply IHr1; eassumption.
  - eapply star_loop_complete; [exact IHr | exact Hd | reflexivity | exact Hk].
  - destruct Hd as (mid & H1 & ->). eapply IHr; [exact H1 | exact Hk].
  - destruct Hd as (Hp & ->). rewrite Hp. exact Hk.
  - destruct Hd as (He & ->). destruct He as [-> | (c & -> & ->)]; exact Hk.
Qed.

(** [re.match] succeeds exactly on the subjects the pattern describes. *)
Lemma matches_den (pattern : string) (filename : text) :
  matches pattern filename = true
  <-> exists st', den true (compile pattern) (MState 0 filename []) st'.
Proof.
  unfold matches, re_match. split.
  - destruct (run true _ Some _) eqn:Hr; [|discriminate]. intros _.
    apply run_sound in Hr. destruct Hr as (st' & Hd & _). eauto.
  - intros (st' & Hd).
    destruct (run true _ Some _) eqn:Hr; [reflexivity|]. exfalso.
    revert Hr. eapply run_complete; [exact Hd | discriminate].
Qed.

(** ** What a match consumes and captures *)

Lemma consumed_app (w t : text) (p p' : nat) (cs cs' : list (nat * text)) :
  consumed (MState p (w ++ t) cs) (MState p' t cs') = w.
Proof.
  unfold consumed. simpl. rewrite length_app.
  replace (length w + length t - length t) with (length w) by lia.
  rewrite firstn_app, Nat.sub_diag, firstn_all. simpl. apply app_nil_r.
Qed.

Lemma consumed_rest (st st' : mstate) (w : text) :
  rest st = w ++ rest st' -> consumed st st' = w.
Proof.
  destruct st as [p r cs], st' as [p' r' cs']. simpl. intros ->. apply consumed_app.
Qed.

Lemma step_word (p : ascii -> bool) (st st' : mstate) :
  step p st st' ->
  exists c, rest st = [c] ++ rest st' /\ p c = true /\ caps st' = caps st.
Proof. intros (c & Hr & Hp & _ & Hc). exists c. auto. Qed.

Lemma den_rest (ic : bool) (r : regex) :
  forall st st', den ic r st st' ->
    exists w, rest st = w ++ rest st' /\ min_len r <= length w
              /\ (forall n, max_len r = Some n -> length w <= n).
Proof.
  induction r; intros st st' Hd; simpl in Hd;
    try (apply step_word in Hd; destruct Hd as (x & Hr & _ & _);
         exists [x]; repeat split; simpl; auto;
         intros n' [= <-]; auto).
  - subst. exists []. repeat split; simpl; auto. intros n [= <-]. auto.
  - destruct Hd as (mid & H1 & H2).
    apply IHr1 in H1. apply IHr2 in H2.
    destruct H1 as (w1 & E1 & L1 & U1), H2 as (w2 & E2 & L2 & U2).
    exists (w1 ++ w2). rewrite <- app_assoc, <- E2. repeat split; auto.
    + rewrite length_app. simpl. lia.
    + intros n Hn. simpl in Hn. destruct (max_len r1), (max_len r2); try discriminate.
      injection Hn as <-. rewrite length_app.
      specialize (U1 _ eq_refl). specialize (U2 _ eq_refl). lia.
  - destruct Hd as [Hd|Hd]; [apply IHr1 in Hd | apply IHr2 in Hd];
      destruct Hd as (w & E & L & U); exists w; repeat split; auto; simpl; try lia;
      intros n Hn; destruct (max_len r1) as [x|], (max_len r2) as [y|]; try discriminate;
      injection Hn as <-; specialize (U _ eq_refl); lia.
  - induction Hd as [st|st st1 st2 H1 _ _ IH].
    + exists []. repeat split; simpl; auto. discriminate.
    + apply IHr in H1. destruct H1 as (w1 & E1 & _). destruct IH as (w2 & E2 & _).
      exists (w1 ++ w2). rewrite <- app_assoc, <- E2. repeat split; simpl; auto; try lia.
      discriminate.
  - destruct Hd as (mid & H1 & ->). apply IHr in H1. exact H1.
  - destruct Hd as (_ & ->). exists []. repeat split; simpl; auto. intros n' [= <-]. auto.
  - destruct Hd as (_ & ->). exists []. repeat split; simpl; auto. intros n' [= <-]. auto.
Qed.

Lemma den_caps (ic : bool) (r : regex) :
  no_group r = true -> forall st st', den ic r st st' -> caps st' = caps st.
Proof.
  induction r; simpl; intros Hn st st' Hd;
    try (apply step_word in Hd; destruct Hd as (x & _ & _ & Hc); exact Hc);
    try discriminate.
  - subst. reflexivity.
  - apply andb_prop in Hn. destruct Hn as [N1 N2]. destruct Hd as (mid & H1 & H2).
    rewrite (IHr2 N2 _ _ H2). apply (IHr1 N1 _ _ H1).
  - apply andb_prop in Hn. destruct Hn as [N1 N2]. destruct Hd as [Hd|Hd]; auto.
  - induction Hd as [st|st st1 st2 H1 _ _ IH]; auto.
    rewrite IH. apply (IHr Hn _ _ H1).
  - destruct Hd as (_ & ->). reflexivity.
  - destruct Hd as (_ & ->). reflexivity.
Qed.

Lemma den_digits (ic : bool) (r : regex) :
  only_digits r = true -> forall st st',
    den ic r st st' -> exists w, rest st = w ++ rest st' /\ forallb is_digit w = true.
Proof.
  induction r; simpl; intros Ho st st' Hd; try discriminate.
  - subst. exists []. auto.
  - apply step_word in Hd. destruct Hd as (x & Hr & Hp & _).
    exists [x]. simpl. rewrite Hp. auto.
  - apply andb_prop in Ho. destruct Ho as [O1 O2]. destruct Hd as (mid & H1 & H2).
    destruct (IHr1 O1 _ _ H1) as (w1 & E1 & D1).
    destruct (IHr2 O2 _ _ H2) as (w2 & E2 & D2).
    exists (w1 ++ w2). rewrite <- app_assoc, <- E2, forallb_app, D1, D2. auto.
  - apply andb_prop in Ho. destruct Ho as [O1 O2]. destruct Hd as [Hd|Hd]; eauto.
  - induction Hd as [st|st st1 st2 H1 _ _ IH].
    + exists []. auto.
    + destruct (IHr Ho _ _ H1) as (w1 & E1 & D1). destruct IH as (w2 & E2 & D2).
      exists (w1 ++ w2). rewrite <- app_assoc, <- E2, forallb_app, D1, D2. auto.
Qed.

Lemma only_digits_no_group (r : regex) : only_digits r = true -> no_group r = true.
Proof.
  induction r; simpl; intros Ho; try discriminate; auto.
  - apply andb_prop in Ho. destruct Ho. rewrite IHr1, IHr2; auto.
  - apply andb_prop in Ho. destruct Ho. rewrite IHr1, IHr2; auto.
Qed.

(** A group around digits captures a run of digits, as long as the pattern
    says. *)
Lemma den_group_digits (ic : bool) (n : nat) (r : regex) (st st' : mstate) :
  only_digits r = true -> den ic (Group n r) st st' ->
  exists w, rest st = w ++ rest st' /\ forallb is_digit w = true
            /\ min_len r <= length w
            /\ (forall k, max_len r = Some k -> length w <= k)
            /\ caps st' = (n, w) :: caps st.
Proof.
  intros Ho (mid & Hd & ->).
  destruct (den_digits ic r Ho _ _ Hd) as (w & E & D).
  destruct (den_rest ic r _ _ Hd) as (w' & E' & L & U).
  assert (w' = w) as -> by (rewrite E in E'; eapply app_inv_tail; eauto).
  exists w. simpl. repeat split; auto.
  rewrite (consumed_rest st mid w E).
  rewrite (den_caps ic r (only_digits_no_group r Ho) _ _ Hd).
  reflexivity.
Qed.

(** *** Facts about characters, checked on all 256 of them *)

Lemma every_char_spec (f : ascii -> bool) :
  every_char f = true -> forall c, f c = true.
Proof.
  unfold every_char. intros Hall c. rewrite forallb_forall in Hall.
  rewrite <- (ascii_nat_embedding c). apply Hall, in_map, in_seq.
  pose proof (nat_ascii_bounded c). lia.
Qed.

Lemma lit_test_upper (a c : ascii) :
  lit_test true a c = true -> upper_char c = upper_char a.
Proof.
  intros Ht.
  assert (Hall : every_char (fun a => every_char (fun c =>
            implb (lit_test true a c) (char_eqb (upper_char c) (upper_char a)))) = true)
    by (vm_compute; reflexivity).
  pose proof (every_char_spec _ (every_char_spec _ Hall a) c) as Hc.
  cbv beta in Hc. rewrite Ht in Hc. apply Ascii.eqb_eq in Hc. exact Hc.
Qed.

Lemma digit_classes (c : ascii) :
  is_digit c = true ->
  is_word c = true /\ is_space c = false /\ lower_char c = c /\ upper_char c = c.
Proof.
  intros Hd.
  assert (Hall : every_char (fun c =>
            implb (is_digit c)
                  (is_word c && negb (is_space c) && char_eqb (lower_char c) c
                   && char_eqb (upper_char c) c)) = true)
    by (vm_compute; reflexivity).
  pose proof (every_char_spec _ Hall c) as Hc. cbv beta in Hc. rewrite Hd in Hc.
  cbn [implb] in Hc.
  repeat (apply andb_prop in Hc; destruct Hc as [Hc ?]).
  repeat split; auto.
  - apply negb_true_iff. auto.
  - apply Ascii.eqb_eq. auto.
  - apply Ascii.eqb_eq. auto.
Qed.

(** The groups of a match of the time pattern: six runs of digits of the
    lengths the pattern asks for, and the marker. *)
Lemma time_pattern_groups (st m : mstate) :
  den true time_pattern st m ->
  exists w1 w2 w3 w4 w5 w6 w7,
    caps m = (7, w7) :: (6, w6) :: (5, w5) :: (4, w4) :: (3, w3) :: (2, w2)
             :: (1, w1) :: caps st
    /\ (forallb is_digit w1 = true /\ length w1 = 4)
    /\ (forallb is_digit w2 = true /\ length w2 = 2)
    /\ (forallb is_digit w3 = true /\ length w3 = 2)
    /\ (forallb is_digit w4 = true /\ 1 <= length w4 <= 2)
    /\ (forallb is_digit w5 = true /\ length w5 = 2)
    /\ (forallb is_digit w6 = true /\ length w6 = 2)
    /\ (upper w7 = str "AM" \/ upper w7 = str "PM").
Proof.
  unfold time_pattern. intros Hd.
  repeat match type of Hd with
  | den _ (Cat (Group _ _) _) _ _ =>
      let mid := fresh "mid" in let Hg := fresh "Hg" in
      destruct Hd as (mid & Hg & Hd)
  | den _ (Cat _ _) _ _ =>
      let mid := fresh "mid" in let Hc := fresh "Hc" in
      destruct Hd as (mid & Hc & Hd);
      apply den_caps in Hc; [|reflexivity]
  end.
  simpl in Hd. subst m.
  repeat match goal with
  | H : den _ (Group _ _) _ _ |- _ =>
      apply den_group_digits in H; [|reflexivity];
      let w := fresh "w" in let D := fresh "D" in let L := fresh "L" in
      let U := fresh "U" in let C := fresh "C" in
      destruct H as (w & _ & D & L & U & C);
      specialize (U _ eq_refl); simpl in L, U
  end.
  destruct Hg5 as (mid' & Ha & ->).
  assert (Hw7 : caps mid' = caps mid16
                /\ (upper (consumed mid16 mid') = str "AM"
                    \/ upper (consumed mid16 mid') = str "PM")).
  { destruct Ha as [Ha|Ha]; simpl in Ha;
      destruct Ha as (s1 & (c1 & R1 & T1 & _ & K1) & s2 & (c2 & R2 & T2 & _ & K2) & ->);
      rewrite R2 in R1;
      (split; [congruence|]);
      rewrite (consumed_rest mid16 s2 [c1; c2] R1); simpl;
      apply lit_test_upper in T1, T2; rewrite T1, T2; auto. }
  destruct Hw7 as (C7 & Hw7).
  do 7 eexists. split.
  - simpl. rewrite C7.
    repeat match goal with
    | E : caps _ = _ |- _ => rewrite E; clear E
    end.
    reflexivity.
  - repeat split; auto; lia.
Qed.

Lemma int_digits (w : text) :
  forallb is_digit w = true -> 1 <= length w -> int w = Some (number w).
Proof.
  intros Hd Hl. unfold int. destruct w; [simpl in Hl; lia|]. rewrite Hd. reflexivity.
Qed.

(** The extractor never raises: on a name the pattern matches, it returns
    what [datetime] makes of the embedded fields. *)
Lemma extract_embedded (filename : text) :
  extract_datetime_from_screenshot filename =
  Returns (match embedded_fields filename with
           | Some f => fields_datetime f
           | None => None
           end).
Proof.
  unfold extract_datetime_from_screenshot, embedded_fields. simpl.
  destruct (re_search time_pattern filename) as [m|] eqn:Hs; [|reflexivity].
  apply search_from_sound in Hs. destruct Hs as (q & t & Hd).
  apply time_pattern_groups in Hd.
  destruct Hd as (w1 & w2 & w3 & w4 & w5 & w6 & w7 & Hc & (D1 & L1) & (D2 & L2)
                  & (D3 & L3) & (D4 & L4) & (D5 & L5) & (D6 & L6) & _).
  unfold int_group, group. rewrite Hc. simpl.
  rewrite !int_digits by (auto; lia). simpl.
  destruct (datetime_new _ _ _ _ _ _); reflexivity.
Qed.

Lemma digit_value_bound (c : ascii) :
  is_digit c = true -> (0 <= digit_value c <= 9)%Z.
Proof.
  intros Hd.
  assert (Hall : every_char (fun c =>
            implb (is_digit c) ((0 <=? digit_value c)%Z && (digit_value c <=? 9)%Z)) = true)
    by (vm_compute; reflexivity).
  pose proof (every_char_spec _ Hall c) as Hc. cbv beta in Hc. rewrite Hd in Hc.
  cbn [implb] in Hc. apply andb_prop in Hc. destruct Hc as [H0 H9].
  apply Z.leb_le in H0, H9. lia.
Qed.

Lemma number_two_digits (w : text) :
  forallb is_digit w = true -> 1 <= length w <= 2 -> (0 <= number w <= 99)%Z.
Proof.
  intros Hd Hl. destruct w as [|a [|b [|c w]]]; simpl in Hl; try lia;
    simpl in Hd; repeat (apply andb_prop in Hd; destruct Hd as [? Hd]);
    unfold number; cbn [fold_left].
  - assert (0 <= digit_value a <= 9)%Z by (apply digit_value_bound; assumption). lia.
  - assert (0 <= digit_value a <= 9)%Z by (apply digit_value_bound; assumption).
    assert (0 <= digit_value b <= 9)%Z by (apply digit_value_bound; assumption). lia.
Qed.

Lemma embedded_fields_matched (filename : text) (m : mstate) :
  re_search time_pattern filename = Some m ->
  exists y mo d h mi s ap,
    embedded_fields filename = Some (y, mo, d, h, mi, s, ap)
    /\ (0 <= h <= 99)%Z /\ (ap = str "AM" \/ ap = str "PM").
Proof.
  intros Hs. unfold embedded_fields. rewrite Hs.
  apply search_from_sound in Hs. destruct Hs as (q & t & Hd).
  apply time_pattern_groups in Hd.
  destruct Hd as (w1 & w2 & w3 & w4 & w5 & w6 & w7 & Hc & _ & _ & _ & (D4 & L4) & _ & _ & H7).
  unfold group. rewrite Hc. simpl.
  do 7 eexists. split; [reflexivity|]. split; [|exact H7].
  apply number_two_digits; auto.
Qed.

(** *** Running the matcher step by step *)

Lemma run_Cat ic a b k st : run ic (Cat a b) k st = run ic a (run ic b k) st.
Proof. reflexivity. Qed.

Lemma run_Empty ic k st : run ic Empty k st = k st.
Proof. reflexivity. Qed.

Lemma run_Alt ic a b k st :
  run ic (Alt a b) k st =
  match run ic a k st with Some r => Some r | None => run ic b k st end.
Proof. reflexivity. Qed.

Lemma run_Group ic n a k st :
  run ic (Group n a) k st =
  run ic a (fun st' => k (set_cap n (consumed st st') st')) st.
Proof. reflexivity. Qed.

Lemma run_Lit ic a k n c t cs :
  run ic (Lit a) k (MState n (c :: t) cs) =
  if lit_test ic a c then k (MState (S n) t cs) else None.
Proof. reflexivity. Qed.

Lemma run_Digit ic k n c t cs :
  run ic Digit k (MState n (c :: t) cs) =
  if is_digit c then k (MState (S n) t cs) else None.
Proof. reflexivity. Qed.

Lemma run_Word ic k n c t cs :
  run ic Word k (MState n (c :: t) cs) =
  if is_word c then k (MState (S n) t cs) else None.
Proof. reflexivity. Qed.

Lemma run_Space ic k n c t cs :
  run ic Space k (MState n (c :: t) cs) =
  if is_space c then k (MState (S n) t cs) else None.
Proof. reflexivity. Qed.

Lemma run_Star ic a k n c t cs :
  run ic (Star a) k (MState n (c :: t) cs) =
  match run ic a (fun st' =>
                    if length (rest st') <? S (length t)
                    then star_loop (length t) (run ic a) k st'
                    else None) (MState n (c :: t) cs) with
  | Some r => Some r
  | None => k (MState n (c :: t) cs)
  end.
Proof. reflexivity. Qed.

Lemma star_loop_cons fuel body k n c t cs :
  star_loop (S fuel) body k (MState n (c :: t) cs) =
  match body (fun st' =>
                if length (rest st') <? S (length t)
                then star_loop fuel body k st'
                else None) (MState n (c :: t) cs) with
  | Some r => Some r
  | None => k (MState n (c :: t) cs)
  end.
Proof. reflexivity. Qed.

Ltac eval_test :=
  match goal with
  | |- context [lit_test true ?a ?c] =>
      tryif is_var c then fail else
      let v := eval vm_compute in (lit_test true a c) in
      change (lit_test true a c) with v
  | |- context [is_space ?c] =>
      tryif is_var c then fail else
      let v := eval vm_compute in (is_space c) in change (is_space c) with v
  | |- context [is_word ?c] =>
      tryif is_var c then fail else
      let v := eval vm_compute in (is_word c) in change (is_word c) with v
  | |- context [is_digit ?c] =>
      tryif is_var c then fail else
      let v := eval vm_compute in (is_digit c) in change (is_digit c) with v
  end.

Ltac use_test :=
  match goal with
  | H : is_digit ?c = _ |- context [is_digit ?c] => rewrite H
  | H : is_word ?c = _ |- context [is_word ?c] => rewrite H
  | H : is_space ?c = _ |- context [is_space ?c] => rewrite H
  end.

Ltac tidy :=
  unfold set_cap, consumed;
  cbn [rest pos caps length firstn Nat.sub Nat.ltb Nat.leb].

Ltac run_step :=
  first
    [ rewrite run_Cat | rewrite run_Empty | rewrite run_Group
    | rewrite run_Lit; eval_test
    | rewrite run_Digit; first [use_test | eval_test]
    | rewrite run_Word; first [use_test | eval_test]
    | rewrite run_Space; first [use_test | eval_test]
    | rewrite run_Alt | rewrite run_Star | rewrite star_loop_cons ];
  tidy.

Lemma search_from_hit (r : regex) (p : nat) (s : text) (m : mstate) :
  run true r Some (MState p s []) = Some m -> search_from r p s = Some m.
Proof. intros Hr. destruct s; simpl; rewrite Hr; reflexivity. Qed.

Ltac split_digits H :=
  simpl in H;
  repeat (apply andb_prop in H; destruct H as [? H]);
  repeat match goal with
  | D : is_digit ?c = true |- _ =>
      destruct (digit_classes c D) as (? & ? & _ & _); revert D
  end;
  intros.

Ltac fixed_length w :=
  match goal with
  | L : length w = _ |- _ =>
      repeat (destruct w as [|? w]; simpl in L; try discriminate L; try lia);
      clear L
  end.

(** The match of the pattern on a name of the canonical shape, whatever
    its digits. *)
Lemma search_canonical (ys ms ds hs ns ss ap : text) :
  forallb is_digit (ys ++ ms ++ ds ++ hs ++ ns ++ ss) = true ->
  length ys = 4 -> length ms = 2 -> length ds = 2 ->
  length hs = 1 \/ length hs = 2 ->
  length ns = 2 -> length ss = 2 ->
  ap = str "AM" \/ ap = str "PM" ->
  exists p,
    re_search time_pattern
      (str "Screenshot " ++ ys ++ str "-" ++ ms ++ str "-" ++ ds ++ str " at "
       ++ hs ++ str "." ++ ns ++ str "." ++ ss ++ str " " ++ ap ++ str ".png")
    = Some (MState p (str ".png")
              [(7, ap); (6, ss); (5, ns); (4, hs); (3, ds); (2, ms); (1, ys)]).
Proof.
  intros Hd Ly Lm Ld Lh Ln Ls Hap.
  fixed_length ys. fixed_length ms. fixed_length ds. fixed_length ns. fixed_length ss.
  destruct Lh as [Lh|Lh]; fixed_length hs;
    destruct Hap as [-> | ->];
    split_digits Hd;
    eexists; unfold re_search; apply search_from_hit; unfold time_pattern;
    cbn [str list_ascii_of_string app];
    repeat run_step; reflexivity.
Qed.

(** ** Decimal notation on the ranges of the fields *)

Lemma below_spec (bound : Z) (f : Z -> bool) :
  forallb f (map Z.of_nat (seq 0 (Z.to_nat bound))) = true ->
  forall z, (0 <= z < bound)%Z -> f z = true.
Proof.
  intros Hall z Hz. rewrite forallb_forall in Hall. apply Hall.
  rewrite <- (Z2Nat.id z) by lia. apply in_map, in_seq. lia.
Qed.

Lemma notation_ok_spec (lo hi : nat) (w : text) (n : Z) :
  notation_ok lo hi w n = true ->
  lo <= length w <= hi /\ forallb is_digit w = true /\ number w = n.
Proof.
  unfold notation_ok. intros Hn.
  repeat (apply andb_prop in Hn; destruct Hn as [Hn ?]).
  apply Nat.leb_le in Hn. apply Nat.leb_le in H1. apply Z.eqb_eq in H. auto.
Qed.

Lemma zero_pad_4 (n : Z) :
  (0 <= n <= 9999)%Z ->
  length (zero_pad 4 n) = 4 /\ forallb is_digit (zero_pad 4 n) = true
  /\ number (zero_pad 4 n) = n.
Proof.
  intros Hn.
  assert (Hall : forallb (fun n => notation_ok 4 4 (zero_pad 4 n) n)
                   (map Z.of_nat (seq 0 (Z.to_nat 10000))) = true)
    by (vm_compute; reflexivity).
  pose proof (below_spec _ _ Hall n ltac:(lia)) as Hok.
  apply notation_ok_spec in Hok. destruct Hok as (Hl & Hd & Hv).
  repeat split; auto; lia.
Qed.

Lemma zero_pad_2 (n : Z) :
  (0 <= n <= 99)%Z ->
  length (zero_pad 2 n) = 2 /\ forallb is_digit (zero_pad 2 n) = true
  /\ number (zero_pad 2 n) = n.
Proof.
  intros Hn.
  assert (Hall : forallb (fun n => notation_ok 2 2 (zero_pad 2 n) n)
                   (map Z.of_nat (seq 0 (Z.to_nat 100))) = true)
    by (vm_compute; reflexivity).
  pose proof (below_spec _ _ Hall n ltac:(lia)) as Hok.
  apply notation_ok_spec in Hok. destruct Hok as (Hl & Hd & Hv).
  repeat split; auto; lia.
Qed.

Lemma decimal_2 (n : Z) :
  (0 <= n <= 99)%Z ->
  1 <= length (decimal n) <= 2 /\ forallb is_digit (decimal n) = true
  /\ number (decimal n) = n.
Proof.
  intros Hn.
  assert (Hall : forallb (fun n => notation_ok 1 2 (decimal n) n)
                   (map Z.of_nat (seq 0 (Z.to_nat 100))) = true)
    by (vm_compute; reflexivity).
  pose proof (below_spec _ _ Hall n ltac:(lia)) as Hok.
  apply notation_ok_spec in Hok. exact Hok.
Qed.

Lemma hour_12_24 (h : Z) :
  (0 <= h <= 23)%Z ->
  (1 <= hour_12 h <= 12)%Z /\ to_24_hour (meridiem h) (hour_12 h) = h.
Proof.
  intros Hh.
  assert (Hall : forallb (fun h => (1 <=? hour_12 h)%Z && (hour_12 h <=? 12)%Z
                                   && (to_24_hour (meridiem h) (hour_12 h) =? h)%Z)
                   (map Z.of_nat (seq 0 (Z.to_nat 24))) = true)
    by (vm_compute; reflexivity).
  pose proof (below_spec _ _ Hall h ltac:(lia)) as Hok. cbv beta in Hok.
  repeat (apply andb_prop in Hok; destruct Hok as [Hok ?]).
  apply Z.leb_le in Hok. apply Z.leb_le in H0. apply Z.eqb_eq in H. split; [lia|auto].
Qed.

Lemma meridiem_cases (h : Z) : meridiem h = str "AM" \/ meridiem h = str "PM".
Proof. unfold meridiem. destruct (h <? 12)%Z; auto. Qed.

Lemma upper_meridiem (h : Z) : upper (meridiem h) = meridiem h.
Proof. unfold meridiem. destruct (h <? 12)%Z; reflexivity. Qed.

Lemma datetime_new_valid (y mo d h mi s : Z) (dt : datetime) :
  datetime_new y mo d h mi s = Some dt ->
  dt = MkDatetime y mo d h mi s
  /\ (1 <= y <= 9999 /\ 1 <= mo <= 12 /\ 1 <= d <= 31
      /\ 0 <= h <= 23 /\ 0 <= mi <= 59 /\ 0 <= s <= 59)%Z.
Proof.
  unfold datetime_new. destruct (valid_datetime y mo d h mi s) eqn:Hv; [|discriminate].
  intros [= <-]. split; [reflexivity|].
  unfold valid_datetime, MINYEAR, MAXYEAR in Hv.
  repeat (apply andb_prop in Hv; destruct Hv as [Hv ?]).
  repeat match goal with
  | L : (_ <=? _)%Z = true |- _ => apply Z.leb_le in L
  end.
  assert (days_in_month y mo <= 31)%Z.
  { unfold days_in_month.
    repeat match goal with |- context [if ?b then _ else _] => destruct b end; lia. }
  lia.
Qed.

(** A name of the canonical shape holds the fields that were written. *)
Lemma embedded_canonical (ys ms ds hs ns ss ap : text) :
  forallb is_digit (ys ++ ms ++ ds ++ hs ++ ns ++ ss) = true ->
  length ys = 4 -> length ms = 2 -> length ds = 2 ->
  length hs = 1 \/ length hs = 2 ->
  length ns = 2 -> length ss = 2 ->
  ap = str "AM" \/ ap = str "PM" ->
  embedded_fields
    (str "Screenshot " ++ ys ++ str "-" ++ ms ++ str "-" ++ ds ++ str " at "
     ++ hs ++ str "." ++ ns ++ str "." ++ ss ++ str " " ++ ap ++ str ".png")
  = Some (number ys, number ms, number ds, number hs, number ns, number ss, ap).
Proof.
  intros Hd Ly Lm Ld Lh Ln Ls Hap.
  destruct (search_canonical ys ms ds hs ns ss ap Hd Ly Lm Ld Lh Ln Ls Hap) as (p & Hs).
  unfold embedded_fields. rewrite Hs. unfold group. simpl.
  destruct Hap as [-> | ->]; reflexivity.
Qed.

Lemma extract_screenshot_name (two_digits : bool) (y mo d h mi s : Z) (dt : datetime) :
  datetime_new y mo d h mi s = Some dt ->
  extract_datetime_from_screenshot (screenshot_name two_digits dt) = Returns (Some dt).
Proof.
  intros Hnew. pose proof Hnew as Hv. apply datetime_new_valid in Hv.
  destruct Hv as (-> & Hy & Hmo & Hd & Hh & Hmi & Hs).
  rewrite extract_embedded. unfold screenshot_name. cbn [year month day hour minute second].
  destruct (zero_pad_4 y ltac:(lia)) as (Ly & Dy & Vy).
  destruct (zero_pad_2 mo ltac:(lia)) as (Lmo & Dmo & Vmo).
  destruct (zero_pad_2 d ltac:(lia)) as (Ld & Dd & Vd).
  destruct (zero_pad_2 mi ltac:(lia)) as (Lmi & Dmi & Vmi).
  destruct (zero_pad_2 s ltac:(lia)) as (Ls & Ds & Vs).
  destruct (hour_12_24 h Hh) as (H12 & H24).
  destruct (zero_pad_2 (hour_12 h) ltac:(lia)) as (Lh2 & Dh2 & Vh2).
  destruct (decimal_2 (hour_12 h) ltac:(lia)) as (Lh1 & Dh1 & Vh1).
  destruct two_digits;
    (rewrite embedded_canonical; auto using meridiem_cases; try lia;
     first
       [ unfold fields_datetime; rewrite Vy, Vmo, Vd, Vmi, Vs, ?Vh2, ?Vh1, H24, Hnew;
         reflexivity
       | rewrite !forallb_app, Dy, Dmo, Dd, Dmi, Ds, ?Dh2, ?Dh1; reflexivity ]).
Qed.

(** ** The classifier *)

Lemma text_eqb_eq (a b : text) : text_eqb a b = true <-> a = b.
Proof.
  unfold text_eqb. destruct (list_eq_dec ascii_dec a b); split; auto; discriminate.
Qed.

Lemma endswith_app (u w : text) : endswith (u ++ w) w = true.
Proof.
  unfold endswith. rewrite length_app.
  replace (length u + length w - length w) with (length u + 0) by lia.
  rewrite skipn_app, skipn_all2 by lia.
  replace (length u + 0 - length u) with 0 by lia. simpl. apply text_eqb_eq. reflexivity.
Qed.

Lemma endswith_last (x y : text) (c d : ascii) :
  endswith (x ++ [c]) (y ++ [d]) = true -> c = d.
Proof.
  unfold endswith. intros He. apply text_eqb_eq in He.
  pose proof (firstn_skipn (length (x ++ [c]) - length (y ++ [d])) (x ++ [c])) as Hs.
  rewrite He, app_assoc in Hs. apply app_inj_tail in Hs. destruct Hs. auto.
Qed.

Lemma lower_app (a b : text) : lower (a ++ b) = lower a ++ lower b.
Proof. apply map_app. Qed.

Lemma is_newline_eq (c : ascii) : is_newline c = true -> c = newline.
Proof.
  unfold is_newline, code, newline. intros Hc. apply Nat.eqb_eq in Hc.
  rewrite <- (ascii_nat_embedding c), Hc. reflexivity.
Qed.

Lemma lit_test_lower (a c : ascii) :
  lit_test true a c = true -> lower_char c = lower_char a.
Proof.
  unfold lit_test. destruct (ascii_dec (lower_char c) (lower_char a)); auto; discriminate.
Qed.

Lemma den_cat_app (ic : bool) (l1 l2 : list regex) :
  forall st st', den ic (cat (l1 ++ l2)) st st' ->
    exists mid, den ic (cat l1) st mid /\ den ic (cat l2) mid st'.
Proof.
  induction l1 as [|r l1 IH]; intros st st' Hd; simpl in Hd |- *.
  - exists st. auto.
  - destruct Hd as (m1 & H1 & H2). apply IH in H2. destruct H2 as (mid & H2 & H3).
    exists mid. split; [exists m1; auto | exact H3].
Qed.

(** A run of literals and then [$]: the rest of the subject is the
    literals, in whatever case, and at most one final newline. *)
Lemma den_literals_eol (ext : text) :
  forall st st', den true (cat (map Lit ext ++ [Eol])) st st' ->
    exists w, (rest st = w \/ rest st = w ++ [newline]) /\ lower w = lower ext.
Proof.
  induction ext as [|a ext IH]; intros st st' Hd; simpl in Hd.
  - destruct Hd as (mid & (He & ->) & _). exists [].
    destruct He as [He | (c & He & Hn)].
    + auto.
    + apply is_newline_eq in Hn. subst c. auto.
  - destruct Hd as (mid & (c & Hr & Ht & _) & Hd). apply IH in Hd.
    destruct Hd as (w & Hw & Hl). exists (c :: w). split.
    + rewrite Hr. destruct Hw as [-> | ->]; auto.
    + simpl. rewrite Hl, (lit_test_lower _ _ Ht). reflexivity.
Qed.

(** A match of a pattern that ends in an extension and [$] is a match on
    a name that ends in that extension, in whatever case, with at most
    one newline after it. *)
Lemma matches_extension (pattern : string) (pre : list regex) (ext filename : text) :
  compile pattern = cat (pre ++ map Lit ext ++ [Eol]) ->
  matches pattern filename = true ->
  exists u w, (filename = u ++ w \/ filename = (u ++ w) ++ [newline])
              /\ lower w = lower ext.
Proof.
  unfold matches, re_match. intros -> Hm.
  destruct (run true _ Some _) as [m|] eqn:Hr; [|discriminate].
  apply run_sound in Hr. destruct Hr as (st' & Hd & _).
  apply den_cat_app in Hd. destruct Hd as (mid & H1 & H2).
  apply den_rest in H1. destruct H1 as (u & Hu & _). simpl in Hu.
  apply den_literals_eol in H2. destruct H2 as (w & Hw & Hl).
  exists u, w. split; [|exact Hl].
  rewrite Hu. destruct Hw as [-> | ->]; [left | right; rewrite app_assoc]; reflexivity.
Qed.

Lemma pattern_shape (pattern : string) :
  In pattern screenshot_patterns ->
  exists pre ext, compile pattern = cat (pre ++ map Lit ext ++ [Eol]) /\ is_extension ext.
Proof.
  unfold is_extension. simpl. intros Hin.
  repeat (destruct Hin as [<- | Hin]); try contradiction.
  - exists (front 5 (compile "^Screenshot \d{4}-\d{2}-\d{2} at \d{1,2}\.\d{2}\.\d{2} (AM|PM)\.png$")), (str ".png").
    split; [vm_compute; reflexivity | auto].
  - exists (front 5 (compile "^Screen Shot \d{4}-\d{2}-\d{2} at \d{1,2}\.\d{2}\.\d{2} (AM|PM)\.png$")), (str ".png").
    split; [vm_compute; reflexivity | auto].
  - exists (front 5 (compile "^CleanShot.*\.png$")), (str ".png").
    split; [vm_compute; reflexivity | auto].
  - exists (front 5 (compile "^CleanShot.*\.jpg$")), (str ".jpg").
    split; [vm_compute; reflexivity | auto].
  - exists (front 6 (compile "^CleanShot.*\.jpeg$")), (str ".jpeg").
    split; [vm_compute; reflexivity | auto].
  - exists (front 5 (compile "^Screenshot.*\.png$")), (str ".png").
    split; [vm_compute; reflexivity | auto].
  - exists (front 5 (compile "^Screen Shot.*\.png$")), (str ".png").
    split; [vm_compute; reflexivity | auto].
Qed.

Lemma has_image_extension_app (u w ext : text) :
  is_extension ext -> lower w = lower ext -> has_image_extension (u ++ w) = true.
Proof.
  unfold has_image_extension. intros Hext Hl. rewrite lower_app, Hl.
  destruct Hext as [-> | [-> | ->]];
    change (lower (str ".png")) with (str ".png");
    change (lower (str ".jpg")) with (str ".jpg");
    change (lower (str ".jpeg")) with (str ".jpeg");
    rewrite endswith_app; rewrite ?orb_true_r; reflexivity.
Qed.

Lemma lower_newline_last (x : text) : lower (x ++ [newline]) = lower x ++ [newline].
Proof. rewrite lower_app. reflexivity. Qed.

Lemma has_image_extension_newline (x : text) :
  has_image_extension (x ++ [newline]) = false.
Proof.
  unfold has_image_extension. rewrite lower_newline_last.
  assert (Hno : forall y d, d <> newline -> endswith (lower x ++ [newline]) (y ++ [d]) = false).
  { intros y d Hd. destruct (endswith _ _) eqn:He; [|reflexivity].
    apply endswith_last in He. congruence. }
  change (str ".png") with (str ".pn" ++ ["g"%char]).
  change (str ".jpg") with (str ".jp" ++ ["g"%char]).
  change (str ".jpeg") with (str ".jpe" ++ ["g"%char]).
  rewrite !Hno by discriminate. reflexivity.
Qed.

Lemma endswith_newline_extension (u w ext : text) :
  is_extension ext -> lower w = lower ext -> endswith (u ++ w) [newline] = false.
Proof.
  intros Hext Hl.
  assert (Hw : exists w' c, w = w' ++ [c] /\ lower_char c = "g"%char).
  { destruct (exists_last (l := w)) as (w' & c & ->).
    - intros ->. destruct Hext as [-> | [-> | ->]]; discriminate.
    - exists w', c. split; [reflexivity|].
      rewrite lower_app in Hl. simpl in Hl.
      destruct Hext as [-> | [-> | ->]];
        [ change (lower (str ".png")) with (str ".pn" ++ ["g"%char]) in Hl
        | change (lower (str ".jpg")) with (str ".jp" ++ ["g"%char]) in Hl
        | change (lower (str ".jpeg")) with (str ".jpe" ++ ["g"%char]) in Hl ];
        apply app_inj_tail in Hl; destruct Hl; auto. }
  destruct Hw as (w' & c & -> & Hc).
  destruct (endswith _ _) eqn:He; [|reflexivity].
  rewrite app_assoc in He. apply (endswith_last _ []) in He. subst c. discriminate.
Qed.

Lemma classifier_and_shapes (filename : text) :
  is_screenshot_file filename
  = matches_a_shape filename && negb (endswith filename [newline]).
Proof.
  unfold is_screenshot_file, matches_a_shape.
  destruct (existsb _ screenshot_patterns) eqn:He.
  - apply existsb_exists in He. destruct He as (pattern & Hin & Hm).
    destruct (pattern_shape pattern Hin) as (pre & ext & Hc & Hext).
    destruct (matches_extension pattern pre ext filename Hc Hm) as (u & w & [-> | ->] & Hl).
    + rewrite (has_image_extension_app u w ext Hext Hl).
      rewrite (endswith_newline_extension u w ext Hext Hl). reflexivity.
    + rewrite has_image_extension_newline.
      rewrite (endswith_app (u ++ w) [newline]). reflexivity.
  - destruct (has_image_extension filename); reflexivity.
Qed.

(** ** Cleaning up a description *)

Lemma drop_while_app (p : ascii -> bool) (a b : text) :
  drop_while p (a ++ b) = if forallb p a then drop_while p b else drop_while p a ++ b.
Proof.
  induction a as [|c a IH]; simpl; [reflexivity|].
  destruct (p c); simpl; auto.
Qed.

Lemma drop_while_all (p : ascii -> bool) (a : text) :
  forallb p a = true -> drop_while p a = [].
Proof.
  induction a as [|c a IH]; simpl; [reflexivity|].
  destruct (p c); simpl; auto; discriminate.
Qed.

Lemma take_while_app (p : ascii -> bool) (a b : text) :
  take_while p (a ++ b)
  = take_while p a ++ (if forallb p a then take_while p b else []).
Proof.
  induction a as [|c a IH]; simpl; [reflexivity|].
  destruct (p c); simpl; [rewrite IH|]; reflexivity.
Qed.

Lemma take_while_all (p : ascii -> bool) (a : text) :
  forallb p a = true -> take_while p a = a.
Proof.
  induction a as [|c a IH]; simpl; [reflexivity|].
  destruct (p c); simpl; [intros; rewrite IH; auto | discriminate].
Qed.

Lemma take_drop_while (p : ascii -> bool) (s : text) :
  s = take_while p s ++ drop_while p s /\ forallb p (take_while p s) = true.
Proof.
  induction s as [|c s [IH1 IH2]]; simpl; [auto|].
  destruct (p c) eqn:Hp; simpl; [|auto].
  rewrite Hp, IH2, <- IH1. auto.
Qed.

Lemma forallb_rev (p : ascii -> bool) (a : text) :
  forallb p (rev a) = forallb p a.
Proof.
  induction a as [|c a IH]; simpl; [reflexivity|].
  rewrite forallb_app, IH. simpl. rewrite andb_true_r. apply andb_comm.
Qed.

Lemma forallb_impl (p q : ascii -> bool) (a : text) :
  (forall c, p c = true -> q c = true) -> forallb p a = true -> forallb q a = true.
Proof.
  intros Hpq. induction a as [|c a IH]; simpl; [reflexivity|].
  intros Ha. apply andb_prop in Ha. destruct Ha as [Hc Ha].
  rewrite (Hpq _ Hc), IH; auto.
Qed.

(** Characters stripped at either end do not count: leading ones... *)
Lemma strip_chars_leading (p : ascii -> bool) (l x : text) :
  forallb p l = true -> strip_chars p (l ++ x) = strip_chars p x.
Proof.
  intros Hl. unfold strip_chars. rewrite drop_while_app, Hl. reflexivity.
Qed.

(** ... and trailing ones. *)
Lemma strip_chars_trailing (p : ascii -> bool) (x t : text) :
  forallb p t = true -> strip_chars p (x ++ t) = strip_chars p x.
Proof.
  intros Ht. unfold strip_chars. rewrite drop_while_app.
  destruct (forallb p x) eqn:Hx.
  - rewrite (drop_while_all p t Ht), (drop_while_all p x Hx). reflexivity.
  - rewrite rev_app_distr, drop_while_app, forallb_rev, Ht. reflexivity.
Qed.

(** What [strip] leaves, with what it took off at either end. *)
Lemma strip_chars_split (p : ascii -> bool) (s : text) :
  exists l t, s = l ++ strip_chars p s ++ t
              /\ forallb p l = true /\ forallb p t = true.
Proof.
  destruct (take_drop_while p s) as (Hs & Hl).
  destruct (take_drop_while p (rev (drop_while p s))) as (Hr & Ht).
  exists (take_while p s), (rev (take_while p (rev (drop_while p s)))).
  repeat split; auto.
  - unfold strip_chars. rewrite <- rev_app_distr, <- Hr, rev_involutive. exact Hs.
  - rewrite forallb_rev. exact Ht.
Qed.

Lemma space_classes (c : ascii) :
  is_space c = true ->
  is_char "." c = false /\ is_word c = false /\ is_hyphen c = false.
Proof.
  intros Hs.
  assert (Hall : every_char (fun c =>
            implb (is_space c)
                  (negb (is_char "." c) && negb (is_word c) && negb (is_hyphen c))) = true)
    by (vm_compute; reflexivity).
  pose proof (every_char_spec _ Hall c) as Hc. cbv beta in Hc. rewrite Hs in Hc.
  cbn [implb] in Hc.
  repeat (apply andb_prop in Hc; destruct Hc as [Hc ?]).
  repeat split; apply negb_true_iff; auto.
Qed.

(** Blanks around the text do not change what is before its first dot,
    but for blanks around that. *)
Lemma before_dot_strip (raw : text) :
  exists l t, before_dot raw = l ++ before_dot (strip_chars is_space raw) ++ t
              /\ forallb is_space l = true /\ forallb is_space t = true.
Proof.
  destruct (strip_chars_split is_space raw) as (l & t & Hs & Hl & Ht).
  set (q := fun c => negb (is_char "." c)).
  assert (Hq : forall a, forallb is_space a = true -> forallb q a = true).
  { intros a. apply forallb_impl. intros c Hc. unfold q.
    destruct (space_classes c Hc) as (-> & _). reflexivity. }
  exists l, (if forallb q (strip_chars is_space raw) then t else []).
  repeat split; auto.
  - rewrite Hs at 1. unfold before_dot. fold q.
    rewrite take_while_app, (take_while_all q l (Hq l Hl)), (Hq l Hl).
    rewrite take_while_app, (take_while_all q t (Hq t Ht)). reflexivity.
  - destruct (forallb q _); auto.
Qed.

Lemma hyphenate_spaces (a : text) :
  forallb is_space a = true -> forallb is_hyphen (hyphenate a) = true.
Proof.
  induction a as [|c a IH]; simpl; [reflexivity|].
  intros Ha. apply andb_prop in Ha. destruct Ha as [Hc Ha].
  destruct (space_classes c Hc) as (_ & -> & ->). simpl. auto.
Qed.

Lemma drop_while_squeeze (b : bool) (s : text) :
  drop_while is_hyphen (squeeze b s) = squeeze false (drop_while is_hyphen s).
Proof.
  revert b. induction s as [|c s IH]; intros b; simpl; [reflexivity|].
  destruct (is_hyphen c) eqn:Hc.
  - destruct b; simpl; rewrite ?Hc; apply IH.
  - simpl. rewrite Hc. reflexivity.
Qed.

Lemma squeeze_hyphens (b : bool) (e : text) :
  forallb is_hyphen e = true -> forallb is_hyphen (squeeze b e) = true.
Proof.
  revert b. induction e as [|c e IH]; intros b; simpl; [reflexivity|].
  intros He. apply andb_prop in He. destruct He as [Hc He]. rewrite Hc.
  destruct b; simpl; rewrite ?Hc; simpl; apply IH; exact He.
Qed.

Lemma squeeze_trailing (b : bool) (s e : text) :
  forallb is_hyphen e = true ->
  exists e', squeeze b (s ++ e) = squeeze b s ++ e' /\ forallb is_hyphen e' = true.
Proof.
  intros He. revert b. induction s as [|c s IH]; intros b; simpl.
  - exists (squeeze b e). split; [reflexivity | apply squeeze_hyphens; exact He].
  - destruct (is_hyphen c).
    + destruct (IH true) as (e' & -> & He'). destruct b; exists e'; auto.
    + destruct (IH false) as (e' & -> & He'). exists e'. auto.
Qed.

(** Blanks around a text leave no trace once the hyphens are squeezed and
    stripped. *)
Lemma strip_squeeze_hyphenate (l x t : text) :
  forallb is_space l = true -> forallb is_space t = true ->
  strip_chars is_hyphen (squeeze false (hyphenate (l ++ x ++ t)))
  = strip_chars is_hyphen (squeeze false (hyphenate x)).
Proof.
  intros Hl Ht. unfold hyphenate. rewrite !map_app. fold (hyphenate l) (hyphenate x) (hyphenate t).
  rewrite app_assoc.
  destruct (squeeze_trailing false (hyphenate l ++ hyphenate x) (hyphenate t)
              (hyphenate_spaces t Ht)) as (e' & -> & He').
  rewrite strip_chars_trailing by exact He'.
  unfold strip_chars. rewrite !drop_while_squeeze, drop_while_app.
  rewrite (hyphenate_spaces l Hl). reflexivity.
Qed.

Lemma squeeze_replace_runs (s : text) :
  forall b r, (r = true -> b = true) ->
    squeeze b (replace_runs r s) = squeeze b (hyphenate s).
Proof.
  induction s as [|c s IH]; intros b r Hrb; simpl; [reflexivity|].
  destruct (is_word c || is_hyphen c) eqn:Hc; simpl.
  - destruct (is_hyphen c); [destruct b|]; try rewrite (IH _ false); auto; discriminate.
  - destruct r.
    + rewrite (Hrb eq_refl). apply IH. auto.
    + simpl. destruct b; rewrite (IH true true); auto.
Qed.

Lemma strip_from_first_dot_before_dot (s : text) :
  strip_from_first_dot s = before_dot s.
Proof.
  unfold strip_from_first_dot, before_dot.
  induction s as [|c s IH]; cbn [first_dot take_while]; [reflexivity|].
  destruct (is_char "." c); cbn [negb firstn]; [reflexivity|]. rewrite IH. reflexivity.
Qed.

Lemma is_hyphen_eq (c : ascii) : is_hyphen c = true -> c = "-"%char.
Proof. unfold is_hyphen, is_char. intros Hc. apply Ascii.eqb_eq in Hc. auto. Qed.

Lemma collapse_hyphens_two (c d : ascii) (t : text) :
  collapse_hyphens (c :: d :: t)
  = if is_hyphen c && is_hyphen d then collapse_hyphens (d :: t)
    else c :: collapse_hyphens (d :: t).
Proof. reflexivity. Qed.

Lemma collapse_hyphens_run (t : text) :
  forall c, is_hyphen c = true ->
    collapse_hyphens (c :: t) = "-"%char :: collapse_hyphens (drop_while is_hyphen t).
Proof.
  induction t as [|d t IH]; intros c Hc.
  - rewrite (is_hyphen_eq c Hc). reflexivity.
  - rewrite collapse_hyphens_two, Hc. cbn [drop_while andb].
    destruct (is_hyphen d) eqn:Hd.
    + apply (IH d Hd).
    + rewrite (is_hyphen_eq c Hc). reflexivity.
Qed.

Lemma collapse_hyphens_other (c : ascii) (t : text) :
  is_hyphen c = false -> collapse_hyphens (c :: t) = c :: collapse_hyphens t.
Proof.
  intros Hc. destruct t as [|d t]; [reflexivity|].
  rewrite collapse_hyphens_two, Hc. reflexivity.
Qed.

Lemma squeeze_collapse_hyphens (s : text) :
  squeeze false s = collapse_hyphens s
  /\ squeeze true s = collapse_hyphens (drop_while is_hyphen s).
Proof.
  induction s as [|c s (IH1 & IH2)]; [split; reflexivity|].
  cbn [squeeze drop_while]. destruct (is_hyphen c) eqn:Hc.
  - rewrite (collapse_hyphens_run s c Hc), IH2, (is_hyphen_eq c Hc). auto.
  - rewrite (collapse_hyphens_other c s Hc), IH1. auto.
Qed.

Lemma trim_leading_drop_while (s : text) : trim_leading s = drop_while is_hyphen s.
Proof.
  induction s as [|c s IH]; cbn [trim_leading drop_while]; [reflexivity|].
  fold (is_hyphen c). destruct (is_hyphen c); auto.
Qed.

Lemma drop_while_nil (p : ascii -> bool) (a : text) :
  drop_while p a = [] -> forallb p a = true.
Proof.
  induction a as [|c a IH]; cbn [drop_while forallb]; [reflexivity|].
  destruct (p c); [exact IH | discriminate].
Qed.

Lemma trim_trailing_drop_while (s : text) :
  trim_trailing s = rev (drop_while is_hyphen (rev s)).
Proof.
  induction s as [|c s IH]; [reflexivity|].
  cbn [trim_trailing rev]. fold (is_hyphen c). rewrite IH, drop_while_app.
  destruct (forallb is_hyphen (rev s)) eqn:Hs.
  - rewrite (drop_while_all is_hyphen (rev s) Hs). cbn [rev drop_while].
    destruct (is_hyphen c); reflexivity.
  - rewrite rev_app_distr. cbn [rev app].
    destruct (drop_while is_hyphen (rev s)) as [|x r] eqn:Hr.
    + apply drop_while_nil in Hr. rewrite Hr in Hs. discriminate.
    + destruct (rev (x :: r)) eqn:Hx; [|reflexivity].
      apply (f_equal (@length ascii)) in Hx. rewrite length_rev in Hx. discriminate.
Qed.

Lemma trim_strip_chars (s : text) :
  trim_trailing (trim_leading s) = strip_chars is_hyphen s.
Proof. rewrite trim_trailing_drop_while, trim_leading_drop_while. reflexivity. Qed.

(** The code's clean-up is the sanitization of the specification. *)
Lemma clean_description_spec (raw : text) :
  clean_description raw
  = match sanitize_spec raw with
    | [] => None
    | d => Some d
    end.
Proof.
  unfold clean_description, sanitize_spec.
  rewrite strip_from_first_dot_before_dot, trim_strip_chars.
  rewrite <- (proj1 (squeeze_collapse_hyphens _)).
  rewrite squeeze_replace_runs by discriminate.
  destruct (before_dot_strip raw) as (l & t & -> & Hl & Ht).
  rewrite strip_squeeze_hyphenate by assumption.
  destruct (firstn 50 _); reflexivity.
Qed.

(** ** The name generator *)

Lemma add_prefix_suffix_assemble (prefix core suffix extension : text) :
  add_prefix_suffix prefix core suffix extension = assemble prefix core suffix extension.
Proof.
  unfold add_prefix_suffix, assemble.
  destruct prefix as [|p prefix], suffix as [|s suffix]; simpl;
    rewrite <- ?app_assoc; simpl; rewrite <- ?app_assoc; reflexivity.
Qed.

Lemma extract_returns (filename : text) :
  exists r, extract_datetime_from_screenshot filename = Returns r.
Proof. eexists. apply extract_embedded. Qed.

Lemma generate_plain_assemble (w : world) (old_name pattern prefix suffix : text) :
  text_eqb pattern (str "ai") || text_eqb pattern (str "content") = false ->
  generate_plain w old_name pattern prefix suffix
  = Returns (assemble prefix (core_name w old_name pattern None) suffix
               (path_suffix (path_of old_name))).
Proof.
  intros Hai. unfold generate_plain, core_name. rewrite Hai.
  destruct (extract_returns old_name) as (r & ->).
  rewrite <- add_prefix_suffix_assemble.
  destruct (text_eqb pattern (str "datetime")); [destruct r; reflexivity|].
  destruct (text_eqb pattern (str "timestamp")); [reflexivity|].
  destruct (text_eqb pattern (str "date")); [destruct r; reflexivity|].
  reflexivity.
Qed.

Lemma generate_plain_datetime (w : world) (old_name prefix suffix : text) (d : option text) :
  match d with Some _ => False | None => True end ->
  forall pattern,
    text_eqb pattern (str "ai") || text_eqb pattern (str "content") = true ->
    generate_plain w old_name (str "datetime") prefix suffix
    = Returns (assemble prefix (core_name w old_name pattern d) suffix
                 (path_suffix (path_of old_name))).
Proof.
  intros Hd pattern Hai. rewrite generate_plain_assemble by reflexivity.
  unfold core_name. rewrite Hai. destruct d; [contradiction|]. reflexivity.
Qed.

Lemma generate_new_name_assemble (w : world) (old_name pattern prefix suffix : text)
    (file_path : option Path) :
  generate_new_name w old_name pattern prefix suffix file_path
  = Returns (assemble prefix
               (core_name w old_name pattern (description_for w file_path))
               suffix (path_suffix (path_of old_name))).
Proof.
  unfold generate_new_name, description_for.
  destruct (text_eqb pattern (str "ai") || text_eqb pattern (str "content")) eqn:Hai.
  - destruct file_path as [p|].
    + destruct (analyze_image_with_openai w p) as [d|] eqn:Hd.
      * rewrite add_prefix_suffix_assemble. unfold core_name. rewrite Hai. reflexivity.
      * apply (generate_plain_datetime w old_name prefix suffix None I pattern Hai).
    + apply (generate_plain_datetime w old_name prefix suffix None I pattern Hai).
  - rewrite generate_plain_assemble by exact Hai.
    unfold core_name. rewrite Hai. reflexivity.
Qed.

Lemma stem_suffix (p : Path) : path_stem p ++ path_suffix p = path_name p.
Proof.
  unfold path_stem, path_suffix. destruct (suffix_index (path_name p)).
  - apply firstn_skipn.
  - apply app_nil_r.
Qed.

(** ** The renaming *)

Lemma rename_screenshot_dry_run {FS : Type} `{FileSystem FS} (fs : FS)
    (file_path : Path) (new_name : text) :
  rename_screenshot fs file_path new_name true
  = (taken <- path_exists fs (joinpath (path_parent file_path) new_name) ;;
     Returns (negb taken), fs).
Proof.
  unfold rename_screenshot.
  destruct (path_exists fs (joinpath (path_parent file_path) new_name)) as [[|]|];
    reflexivity.
Qed.

(** A dry run of the loop leaves the file system, whether it returns or
    raises; it stops short of the files only in the force mode. *)
Lemma process_files_dry_run {FS : Type} `{FileSystem FS} (fuel : nat)
    (world_of : Path -> world) (pattern prefix suffix : text) (force : bool)
    (files : list Path) :
  forall (count : nat) (fs : FS),
    snd (process_files fuel world_of (MkArguments pattern prefix suffix true force)
           files count fs) = fs
    /\ (fst (process_files fuel world_of (MkArguments pattern prefix suffix true force)
               files count fs) = Returns None -> force = true).
Proof.
  induction files as [|file_path files IH]; intros count fs; cbn [process_files];
    [split; [reflexivity | discriminate]|].
  unfold new_name_for. cbn [arg_pattern arg_prefix arg_suffix arg_force arg_dry_run].
  rewrite generate_new_name_assemble. cbn [bind].
  assert (Hstep : forall new_name,
    snd (match rename_screenshot fs file_path new_name true with
         | (Raises, fs') => (Raises, fs')
         | (Returns ok, fs') =>
             process_files fuel world_of (MkArguments pattern prefix suffix true force)
               files (if ok then S count else count) fs'
         end) = fs
    /\ (fst (match rename_screenshot fs file_path new_name true with
             | (Raises, fs') => (Raises, fs')
             | (Returns ok, fs') =>
                 process_files fuel world_of (MkArguments pattern prefix suffix true force)
                   files (if ok then S count else count) fs'
             end) = Returns None -> force = true)).
  { intros new_name. rewrite rename_screenshot_dry_run.
    destruct (path_exists fs (joinpath (path_parent file_path) new_name)) as [taken|];
      cbn [bind]; [apply IH | split; [reflexivity | discriminate]]. }
  destruct force.
  - destruct (free_name fuel fs file_path _ 1%Z) as [[new_name|]|];
      [apply Hstep | split; reflexivity | split; [reflexivity | discriminate]].
  - apply Hstep.
Qed.

(** The loop of the force mode on two taken names: the second counter is
    added to the name that already carries the first. *)
Lemma free_name_compounds {FS : Type} `{FileSystem FS} (fs : FS) (file_path : Path)
    (fuel : nat) :
  path_exists fs (joinpath (path_parent file_path) (str "shot.png")) = Returns true ->
  path_exists fs (joinpath (path_parent file_path) (str "shot_001.png")) = Returns true ->
  path_exists fs (joinpath (path_parent file_path) (str "shot_001_002.png"))
  = Returns false ->
  free_name (3 + fuel) fs file_path (str "shot.png") 1%Z
  = Returns (Some (str "shot_001_002.png")).
Proof.
  intros H0 H1 H2. cbn [Nat.add free_name]. rewrite H0. cbn [bind].
  change (fst (path_stem (path_of (str "shot.png")), path_suffix (path_of (str "shot.png")))
          ++ str "_" ++ zero_pad 3 1 ++
          snd (path_stem (path_of (str "shot.png")), path_suffix (path_of (str "shot.png"))))
    with (str "shot_001.png").
  rewrite H1. cbn [bind].
  change (fst (path_stem (path_of (str "shot_001.png")),
               path_suffix (path_of (str "shot_001.png")))
          ++ str "_" ++ zero_pad 3 (1 + 1) ++
          snd (path_stem (path_of (str "shot_001.png")),
               path_suffix (path_of (str "shot_001.png"))))
    with (str "shot_001_002.png").
  rewrite H2. reflexivity.
Qed.

(** *** The loop of the force mode ends *)

Lemma split_on_no_sep (sep : ascii) (s w : text) :
  In w (split_on sep s) -> forallb (fun c => negb (is_char sep c)) w = true.
Proof.
  revert w. induction s as [|c s IH]; intros w Hin; simpl in Hin.
  - destruct Hin as [<- | []]. reflexivity.
  - destruct (is_char sep c) eqn:Hc.
    + destruct Hin as [<- | Hin]; [reflexivity | auto].
    + destruct (split_on sep s) as [|w0 ws].
      * destruct Hin as [<- | []]. simpl. rewrite Hc. reflexivity.
      * destruct Hin as [<- | Hin].
        -- simpl. rewrite Hc. simpl. apply IH. left. reflexivity.
        -- apply IH. right. exact Hin.
Qed.

Lemma split_on_simple (s : text) : no_slash s = true -> split_on "/" s = [s].
Proof.
  unfold no_slash. induction s as [|c s IH]; simpl; intros Hs; [reflexivity|].
  apply andb_prop in Hs. destruct Hs as [Hc Hs]. apply negb_true_iff in Hc.
  rewrite Hc, (IH Hs). reflexivity.
Qed.

Lemma last_In (l : list text) (w : text) : In (last (w :: l) []) (w :: l).
Proof.
  revert w. induction l as [|w' l IH]; intros w.
  - left. reflexivity.
  - right. apply (IH w').
Qed.

Lemma path_name_no_slash (s : text) : no_slash (path_name (path_of s)) = true.
Proof.
  unfold path_name, path_of. simpl.
  destruct (filter keeps_part (split_on "/" s)) as [|w ws] eqn:Hf; [reflexivity|].
  pose proof (last_In ws w) as Hin. rewrite <- Hf in Hin at 2.
  apply filter_In in Hin. destruct Hin as (Hin & _).
  exact (split_on_no_sep "/" s _ Hin).
Qed.

Lemma stem_suffix_no_slash (s : text) :
  no_slash (path_stem (path_of s)) = true /\ no_slash (path_suffix (path_of s)) = true.
Proof.
  pose proof (path_name_no_slash s) as Hn.
  rewrite <- (stem_suffix (path_of s)) in Hn. unfold no_slash in *.
  rewrite forallb_app in Hn. apply andb_prop in Hn. exact Hn.
Qed.

Lemma digit_char_no_slash (d : Z) :
  (0 <= d < 10)%Z -> negb (is_char "/" (digit_char d)) = true.
Proof.
  intros Hd.
  assert (Hall : forallb (fun d => negb (is_char "/" (digit_char d)))
                   (map Z.of_nat (seq 0 (Z.to_nat 10))) = true)
    by (vm_compute; reflexivity).
  exact (below_spec 10 _ Hall d Hd).
Qed.

Lemma decimal_aux_no_slash (fuel : nat) :
  forall (n : Z) (acc : text),
    no_slash acc = true -> no_slash (decimal_aux fuel n acc) = true.
Proof.
  induction fuel as [|fuel IH]; intros n acc Hacc; cbn [decimal_aux]; [exact Hacc|].
  assert (Hacc' : no_slash (digit_char (n mod 10) :: acc) = true).
  { unfold no_slash in *. cbn [forallb].
    rewrite Hacc, digit_char_no_slash; [reflexivity|].
    apply Z.mod_pos_bound. lia. }
  destruct (n / 10 =? 0)%Z; [exact Hacc' | apply IH; exact Hacc'].
Qed.

Lemma zero_pad_no_slash (width : nat) (n : Z) : no_slash (zero_pad width n) = true.
Proof.
  unfold zero_pad, no_slash. rewrite forallb_app. apply andb_true_intro. split.
  - induction (width - length (decimal n)) as [|k IH]; cbn [repeat forallb];
      [reflexivity|].
    rewrite IH. reflexivity.
  - apply decimal_aux_no_slash. reflexivity.
Qed.

Lemma zero_pad_length (width : nat) (n : Z) : width <= length (zero_pad width n).
Proof. unfold zero_pad. rewrite length_app, repeat_length. lia. Qed.

(** The name of the next round: of one component, and longer than the
    last component of the name it comes from. *)
Lemma next_name_simple (new_name : text) (counter : Z) :
  let next := path_stem (path_of new_name) ++ str "_" ++ zero_pad 3 counter
              ++ path_suffix (path_of new_name) in
  simple_name next /\ length (path_name (path_of new_name)) + 4 <= length next.
Proof.
  intros next. destruct (stem_suffix_no_slash new_name) as (Hs & Hx).
  pose proof (zero_pad_no_slash 3 counter) as Hz.
  pose proof (zero_pad_length 3 counter) as Hl.
  assert (Hlen : length (path_name (path_of new_name)) + 4 <= length next).
  { rewrite <- (stem_suffix (path_of new_name)). unfold next.
    rewrite !length_app. change (length (str "_")) with 1. lia. }
  split; [|exact Hlen]. split; [|lia].
  unfold next, no_slash in *. rewrite !forallb_app, Hs, Hz, Hx. reflexivity.
Qed.

Lemma keeps_part_long (s : text) : 2 <= length s -> keeps_part s = true.
Proof.
  intros Hl. unfold keeps_part.
  destruct (text_eqb s []) eqn:H0.
  - apply text_eqb_eq in H0. subst s. simpl in Hl. lia.
  - destruct (text_eqb s (str ".")) eqn:H1; [|reflexivity].
    apply text_eqb_eq in H1. subst s. simpl in Hl. lia.
Qed.

Lemma path_of_simple (s : text) : simple_name s -> path_of s = MkPath false [s].
Proof.
  intros (Hs & Hl). unfold path_of. rewrite (split_on_simple s Hs).
  cbn [filter]. rewrite (keeps_part_long s Hl).
  destruct s as [|c s]; [reflexivity|].
  unfold no_slash in Hs. cbn [forallb] in Hs. apply andb_prop in Hs.
  destruct Hs as (Hc & _). apply negb_true_iff in Hc. rewrite Hc. reflexivity.
Qed.

Lemma listed_name (fs : list Path) (p : Path) :
  listed fs p = true -> length (path_name p) <= longest_name fs.
Proof.
  unfold listed, longest_name. intros Hl. apply existsb_exists in Hl.
  destruct Hl as (q & Hin & Heq). unfold path_eqb in Heq.
  apply andb_prop in Heq. destruct Heq as (_ & Heq).
  destruct (list_eq_dec (list_eq_dec ascii_dec) (parts p) (parts q)) as [E|]; [|discriminate].
  assert (Hn : path_name p = path_name q) by (unfold path_name; rewrite E; reflexivity).
  rewrite Hn.
  assert (Hmax : forall l x, In x l -> x <= list_max l).
  { intros l x Hx. pose proof (proj1 (list_max_le l (list_max l)) (Nat.le_refl _)) as Hall.
    rewrite Forall_forall in Hall. exact (Hall x Hx). }
  apply Hmax. apply in_map_iff. exists q. auto.
Qed.

Lemma listed_exists_name (fs : list Path) (p : Path) :
  path_exists fs p = Returns true -> length (path_name p) <= longest_name fs.
Proof.
  cbn [path_exists listing_fs]. unfold listed_exists.
  destruct (name_too_long p); [discriminate|]. intros [= Hl]. apply listed_name. exact Hl.
Qed.

Lemma path_name_joinpath_simple (parent : Path) (new_name : text) :
  simple_name new_name -> path_name (joinpath parent new_name) = new_name.
Proof.
  intros Hs. unfold joinpath. rewrite (path_of_simple new_name Hs).
  cbn [absolute parts]. unfold path_name. cbn [parts]. apply last_last.
Qed.

Section Bounded_names.

Context {FS : Type} `{FileSystem FS}.
Variable fs : FS.
Variable bound : nat.
Hypothesis names_bounded :
  forall p, path_exists fs p = Returns true -> length (path_name p) <= bound.

Lemma free_name_simple (file_path : Path) (fuel : nat) :
  forall (new_name : text) (counter : Z),
    simple_name new_name ->
    bound < fuel + length new_name ->
    free_name (S fuel) fs file_path new_name counter <> Returns None.
Proof.
  induction fuel as [|fuel IH]; intros new_name counter Hs Hlong;
    cbn [free_name];
    destruct (path_exists fs (joinpath (path_parent file_path) new_name)) as [[|]|] eqn:He;
    cbn [bind]; try discriminate.
  - exfalso. apply names_bounded in He.
    rewrite (path_name_joinpath_simple _ new_name Hs) in He. simpl in Hlong. lia.
  - destruct (next_name_simple new_name counter) as (Hs' & Hl').
    cbn [fst snd]. apply IH; [exact Hs'|].
    assert (Hn : path_name (path_of new_name) = new_name)
      by (rewrite (path_of_simple new_name Hs); reflexivity).
    rewrite Hn in Hl'. lia.
Qed.

(** With enough rounds for the names the directory holds, the loop of the
    force mode does not go on: it reaches a free name, or the test
    raises. *)
Lemma free_name_total (file_path : Path) (new_name : text) (counter : Z) (fuel : nat) :
  bound + 2 <= fuel ->
  free_name fuel fs file_path new_name counter <> Returns None.
Proof.
  intros Hfuel. destruct fuel as [|fuel]; [lia|]. cbn [free_name].
  destruct (path_exists fs (joinpath (path_parent file_path) new_name)) as [[|]|];
    cbn [bind]; try discriminate.
  destruct (next_name_simple new_name counter) as (Hs' & Hl'). cbn [fst snd].
  destruct fuel as [|fuel]; [lia|].
  apply free_name_simple; [exact Hs' | lia].
Qed.

(** A dry run, with rounds enough for the names the directory holds, goes
    through all the files, or the test raises. *)
Lemma process_files_dry_run_total (fuel : nat) (world_of : Path -> world)
    (pattern prefix suffix : text) (force : bool) (files : list Path) :
  bound + 2 <= fuel ->
  forall count : nat,
    fst (process_files fuel world_of (MkArguments pattern prefix suffix true force)
           files count fs) <> Returns None.
Proof.
  intros Hfuel. induction files as [|file_path files IH]; intros count;
    cbn [process_files]; [discriminate|].
  unfold new_name_for. cbn [arg_pattern arg_prefix arg_suffix arg_force arg_dry_run].
  rewrite generate_new_name_assemble. cbn [bind].
  assert (Hstep : forall new_name,
    fst (match rename_screenshot fs file_path new_name true with
         | (Raises, fs') => (Raises, fs')
         | (Returns ok, fs') =>
             process_files fuel world_of (MkArguments pattern prefix suffix true force)
               files (if ok then S count else count) fs'
         end) <> Returns None).
  { intros new_name. rewrite rename_screenshot_dry_run.
    destruct (path_exists fs (joinpath (path_parent file_path) new_name)) as [taken|];
      cbn [bind]; [|discriminate].
    destruct (negb taken); apply IH. }
  destruct force; [|apply Hstep].
  destruct (free_name fuel fs file_path _ 1%Z) as [[new_name|]|] eqn:Hf;
    [apply Hstep | | discriminate].
  exfalso. revert Hf. apply free_name_total. exact Hfuel.
Qed.

End Bounded_names.

(** ** The collector *)

Lemma text_ltb_asym (a b : text) : text_ltb a b = true -> text_ltb b a = false.
Proof.
  revert b. induction a as [|x a IH]; intros [|y b]; simpl; try discriminate; auto.
  destruct (code x <? code y) eqn:Hxy, (code y <? code x) eqn:Hyx; auto;
    try discriminate.
  apply Nat.ltb_lt in Hxy, Hyx. lia.
Qed.

Lemma parts_ltb_asym (p q : list text) : parts_ltb p q = true -> parts_ltb q p = false.
Proof.
  revert q. induction p as [|x p IH]; intros [|y q]; simpl; try discriminate; auto.
  destruct (text_ltb x y) eqn:Hxy, (text_ltb y x) eqn:Hyx; auto;
    try discriminate.
  rewrite (text_ltb_asym x y Hxy) in Hyx. discriminate.
Qed.

Lemma path_ltb_asym (p q : Path) : path_ltb p q = true -> path_le p q.
Proof. unfold path_le, path_ltb. apply parts_ltb_asym. Qed.

Lemma insert_sorted_perm (x : Path) (l : list Path) :
  Permutation (x :: l) (insert_sorted x l).
Proof.
  induction l as [|y l IH]; simpl; [reflexivity|].
  destruct (path_ltb y x); [|reflexivity].
  rewrite perm_swap. apply perm_skip. exact IH.
Qed.

Lemma sorted_perm (l : list Path) : Permutation l (sorted l).
Proof.
  induction l as [|x l IH]; simpl; [reflexivity|].
  rewrite <- insert_sorted_perm. apply perm_skip. exact IH.
Qed.

Lemma insert_sorted_HdRel (a x : Path) (l : list Path) :
  path_le a x -> HdRel path_le a l -> HdRel path_le a (insert_sorted x l).
Proof.
  intros Hax Hal. destruct l as [|y l]; simpl; [constructor; exact Hax|].
  destruct (path_ltb y x); constructor; [|exact Hax].
  inversion Hal. assumption.
Qed.

Lemma insert_sorted_Sorted (x : Path) (l : list Path) :
  Sorted path_le l -> Sorted path_le (insert_sorted x l).
Proof.
  induction l as [|y l IH]; intros Hs; simpl.
  - repeat constructor.
  - inversion Hs as [|? ? Hl Hhd]; subst.
    destruct (path_ltb y x) eqn:Hyx.
    + constructor; [apply IH; exact Hl|].
      apply insert_sorted_HdRel; [apply path_ltb_asym; exact Hyx | exact Hhd].
    + constructor; [exact Hs|]. constructor. exact Hyx.
Qed.

Lemma sorted_Sorted (l : list Path) : Sorted path_le (sorted l).
Proof.
  induction l as [|x l IH]; simpl; [constructor|].
  apply insert_sorted_Sorted. exact IH.
Qed.

(** The list of the collector is in order. *)
Lemma find_screenshots_sorted (root : node) (directory : Path) (recursive : bool) :
  Sorted path_le (find_screenshots root directory recursive).
Proof. apply sorted_Sorted. Qed.

(** What is in the list: the paths one of the three globs gave, that are
    files and that the classifier accepts. *)
Lemma find_screenshots_members (root : node) (directory : Path) (recursive : bool)
    (p : Path) :
  In p (find_screenshots root directory recursive)
  <-> (exists ext, In ext globbed_extensions /\ In p (glob root directory recursive ext))
      /\ is_file root p = true /\ is_screenshot_file (path_name p) = true.
Proof.
  unfold find_screenshots. split.
  - intros Hin. apply (Permutation_in _ (Permutation_sym (sorted_perm _))) in Hin.
    apply filter_In in Hin. destruct Hin as (Hin & Hok).
    apply andb_prop in Hok. split; [|exact Hok].
    unfold globbed_extensions.
    apply in_app_or in Hin. destruct Hin as [Hin|Hin]; [simpl; eauto|].
    apply in_app_or in Hin. destruct Hin as [Hin|Hin]; simpl; eauto 6.
  - intros ((ext & Hext & Hin) & Hf & Hc).
    apply (Permutation_in _ (sorted_perm _)). apply filter_In.
    split; [|rewrite Hf, Hc; reflexivity].
    unfold globbed_extensions in Hext. simpl in Hext.
    destruct Hext as [<- | [<- | [<- | []]]]; rewrite !in_app_iff; auto.
Qed.

Lemma path_name_child (dir : Path) (nm : text) : path_name (child dir nm) = nm.
Proof. unfold path_name, child. simpl. apply last_last. Qed.

Lemma glob_entries_In (ext : text) (dir : Path) (entries : list (text * node)) (p : Path) :
  In p (glob_entries ext dir entries)
  <-> exists nm n, In (nm, n) entries /\ fnmatch_ext ext nm = true /\ p = child dir nm.
Proof.
  unfold glob_entries. rewrite in_map_iff. split.
  - intros ([nm n] & <- & Hin). apply filter_In in Hin. destruct Hin. simpl in *. eauto.
  - intros (nm & n & Hin & Hm & ->). exists (nm, n). split; [reflexivity|].
    apply filter_In. auto.
Qed.

(** Every path a glob gives ends in the extension asked for, in lower
    case as it is written in the pattern. *)
Lemma glob_tree_names (ext : text) :
  forall (n : node) (dir p : Path),
    In p (glob_tree ext dir n) -> fnmatch_ext ext (path_name p) = true.
Proof.
  fix IH 1. intros [|entries| | |] dir p Hin; simpl in Hin; try contradiction.
  apply in_app_or in Hin. destruct Hin as [Hin|Hin].
  - apply glob_entries_In in Hin. destruct Hin as (nm & n & _ & Hm & ->).
    rewrite path_name_child. exact Hm.
  - revert Hin. generalize entries as es.
    fix IHes 1. intros [|[nm sub] es] Hin; [contradiction|].
    simpl in Hin. apply in_app_or in Hin. destruct Hin as [Hin|Hin].
    + exact (IH sub (child dir nm) p Hin).
    + exact (IHes es Hin).
Qed.

Lemma glob_names (root : node) (directory : Path) (recursive : bool) (ext : text)
    (p : Path) :
  In p (glob root directory recursive ext) -> fnmatch_ext ext (path_name p) = true.
Proof.
  unfold glob. destruct (resolve root (parts directory)) as [[|entries| | |]|];
    try contradiction.
  destruct recursive.
  - apply glob_tree_names.
  - intros Hin. apply glob_entries_In in Hin. destruct Hin as (nm & n & _ & Hm & ->).
    rewrite path_name_child. exact Hm.
Qed.

(** So a name with its extension in capitals is never in the list. *)
Lemma find_screenshots_lower_case (root : node) (directory : Path) (recursive : bool)
    (p : Path) :
  In p (find_screenshots root directory recursive) ->
  exists ext, In ext globbed_extensions /\ endswith (path_name p) (str "." ++ ext) = true.
Proof.
  intros Hin. apply find_screenshots_members in Hin.
  destruct Hin as ((ext & Hext & Hin) & _). exists ext. split; [exact Hext|].
  exact (glob_names root directory recursive ext p Hin).
Qed.


Lemma endswith_split (s suffix : text) :
  endswith s suffix = true -> exists u, s = u ++ suffix.
Proof.
  unfold endswith. intros He. apply text_eqb_eq in He.
  exists (firstn (length s - length suffix) s). rewrite <- He at 2.
  symmetry. apply firstn_skipn.
Qed.

Lemma app_same_length (u v a b : text) :
  u ++ a = v ++ b -> length a = length b -> a = b.
Proof.
  intros He Hl. assert (Hr : rev a ++ rev u = rev b ++ rev v)
    by (rewrite <- !rev_app_distr, He; reflexivity).
  assert (Hab : rev a = rev b).
  { apply (f_equal (firstn (length (rev a)))) in Hr.
    rewrite firstn_app, Nat.sub_diag, firstn_all in Hr. simpl in Hr.
    rewrite app_nil_r in Hr. rewrite Hr.
    rewrite !length_rev, Hl, <- (length_rev b).
    rewrite firstn_app, Nat.sub_diag, firstn_all. simpl. apply app_nil_r. }
  rewrite <- (rev_involutive a), Hab. apply rev_involutive.
Qed.

(** No name matches two of the three globs. *)
Lemma extensions_apart (e1 e2 nm : text) :
  In e1 globbed_extensions -> In e2 globbed_extensions ->
  fnmatch_ext e1 nm = true -> fnmatch_ext e2 nm = true -> e1 = e2.
Proof.
  unfold fnmatch_ext, globbed_extensions. simpl. intros H1 H2 M1 M2.
  apply endswith_split in M1, M2. destruct M1 as (u & Hu), M2 as (v & Hv).
  rewrite Hu in Hv.
  assert (Hshort : forall x y a b : text,
             x ++ a = y ++ str "." ++ b -> length a = length b -> a = b).
  { intros x y a b He Hl. apply (app_same_length x (y ++ str ".")); [|exact Hl].
    rewrite <- app_assoc. exact He. }
  destruct H1 as [<- | [<- | [<- | []]]], H2 as [<- | [<- | [<- | []]]];
    try reflexivity; exfalso.
  - apply (app_same_length u v) in Hv; [discriminate Hv | reflexivity].
  - apply (Hshort u v (str ".png") (str "jpeg")) in Hv; [discriminate Hv | reflexivity].
  - apply (app_same_length u v) in Hv; [discriminate Hv | reflexivity].
  - apply (Hshort u v (str ".jpg") (str "jpeg")) in Hv; [discriminate Hv | reflexivity].
  - symmetry in Hv.
    apply (Hshort v u (str ".png") (str "jpeg")) in Hv; [discriminate Hv | reflexivity].
  - symmetry in Hv.
    apply (Hshort v u (str ".jpg") (str "jpeg")) in Hv; [discriminate Hv | reflexivity].
Qed.

Lemma child_injective (dir : Path) (a b : text) : child dir a = child dir b -> a = b.
Proof.
  unfold child. intros [= He]. apply app_inv_head in He. injection He. auto.
Qed.

Lemma NoDup_names_filter (f : text * node -> bool) (entries : list (text * node)) :
  NoDup (map fst entries) -> NoDup (map fst (filter f entries)).
Proof.
  induction entries as [|e entries IH]; simpl; intros Hn; [constructor|].
  inversion Hn as [|? ? Hnot Hrest]; subst.
  destruct (f e); simpl; [|auto].
  constructor; [|auto]. intros Hin. apply Hnot.
  apply in_map_iff in Hin. destruct Hin as (e' & He & Hin).
  apply filter_In in Hin. destruct Hin as (Hin & _).
  apply in_map_iff. eauto.
Qed.

Lemma glob_entries_NoDup (ext : text) (dir : Path) (entries : list (text * node)) :
  NoDup (map fst entries) -> NoDup (glob_entries ext dir entries).
Proof.
  intros Hn. unfold glob_entries.
  rewrite <- (map_map fst (child dir)).
  apply Finite.Injective_map_NoDup_in.
  - intros a b _ _. apply child_injective.
  - apply NoDup_names_filter. exact Hn.
Qed.

(** Where the paths of a glob are: below the directory it started from. *)
Lemma glob_tree_below (ext : text) :
  forall (n : node) (dir p : Path),
    In p (glob_tree ext dir n) ->
    exists nm rel, parts p = parts dir ++ nm :: rel /\ absolute p = absolute dir.
Proof.
  fix IH 1. intros [|entries| | |] dir p Hin; simpl in Hin; try contradiction.
  apply in_app_or in Hin. destruct Hin as [Hin|Hin].
  - apply glob_entries_In in Hin. destruct Hin as (nm & n & Hn & _ & ->).
    exists nm, []. split; reflexivity.
  - revert Hin. generalize entries as es.
    fix IHes 1. intros [|[nm sub] es] Hin; [contradiction|].
    simpl in Hin. apply in_app_or in Hin. destruct Hin as [Hin|Hin].
    + destruct (IH sub (child dir nm) p Hin) as (nm' & rel & Hp & Ha).
      exists nm, (nm' :: rel). simpl in Hp. rewrite <- app_assoc in Hp. auto.
    + exact (IHes es Hin).
Qed.

(** The paths found in the directories of a directory go through one of
    them. *)
Lemma glob_subtrees_below (ext : text) (dir p : Path) (es : list (text * node)) :
  In p (flat_map (fun e => let '(nm, sub) := e in glob_tree ext (child dir nm) sub) es) ->
  exists nm sub nm' rel,
    In (nm, sub) es /\ In p (glob_tree ext (child dir nm) sub)
    /\ parts p = parts dir ++ nm :: nm' :: rel.
Proof.
  intros Hin. apply in_flat_map in Hin. destruct Hin as ([nm sub] & He & Hin).
  destruct (glob_tree_below ext sub (child dir nm) p Hin) as (nm' & rel & Hp & _).
  simpl in Hp. rewrite <- app_assoc in Hp. exists nm, sub, nm', rel. auto.
Qed.

Lemma well_formed_entry (entries : list (text * node)) (nm : text) (sub : node) :
  well_formed (Directory entries) -> In (nm, sub) entries -> well_formed sub.
Proof.
  simpl. intros (_ & Hall). induction entries as [|[nm0 sub0] es IH]; [contradiction|].
  destruct Hall as (H0 & Hrest). intros [[= -> ->] | Hin]; auto.
Qed.

Lemma glob_tree_NoDup (ext : text) :
  forall (n : node) (dir : Path), well_formed n -> NoDup (glob_tree ext dir n).
Proof.
  fix IH 1. intros [|entries| | |] dir Hwf; simpl; try constructor.
  apply NoDup_app.
  - apply glob_entries_NoDup. exact (proj1 Hwf).
  - destruct Hwf as (Hnames & Hall). revert Hnames Hall. generalize entries as es.
    fix IHes 1. intros [|[nm sub] es] Hnames Hall; simpl; [constructor|].
    destruct Hall as (Hsub & Hrest).
    inversion Hnames as [|? ? Hnot Hnames']; subst.
    apply NoDup_app.
    + exact (IH sub (child dir nm) Hsub).
    + exact (IHes es Hnames' Hrest).
    + intros p H1 H2.
      destruct (glob_tree_below ext sub (child dir nm) p H1) as (a & rel & Hp & _).
      destruct (glob_subtrees_below ext dir p es H2) as (nm2 & sub2 & b & rel2 & He & _ & Hp2).
      simpl in Hp. rewrite <- app_assoc, Hp2 in Hp.
      apply app_inv_head in Hp. injection Hp as -> _.
      apply Hnot. apply in_map_iff. exists (nm, sub2). auto.
  - intros p H1 H2.
    apply glob_entries_In in H1. destruct H1 as (nm & n & _ & _ & ->).
    destruct (glob_subtrees_below ext dir _ entries H2) as (nm2 & sub2 & b & rel2 & _ & _ & Hp).
    simpl in Hp. apply app_inv_head in Hp. discriminate Hp.
Qed.

Lemma resolve_well_formed (ps : list text) :
  forall (n m : node), well_formed n -> resolve n ps = Some m -> well_formed m.
Proof.
  induction ps as [|p ps IH]; intros n m Hwf Hr; simpl in Hr.
  - injection Hr as <-. exact Hwf.
  - destruct n as [|entries| | |]; try discriminate.
    destruct (find_entry p entries) as [n'|] eqn:Hf; [|discriminate].
    apply (IH n' m); [|exact Hr].
    assert (Hin : exists nm, In (nm, n') entries).
    { clear - Hf. induction entries as [|[nm0 n0] es IHes]; simpl in Hf; [discriminate|].
      destruct (text_eqb p nm0).
      - injection Hf as ->. exists nm0. left. reflexivity.
      - destruct (IHes Hf) as (nm & Hin). exists nm. right. exact Hin. }
    destruct Hin as (nm & Hin). exact (well_formed_entry entries nm n' Hwf Hin).
Qed.

Lemma glob_NoDup (root : node) (directory : Path) (recursive : bool) (ext : text) :
  well_formed root -> NoDup (glob root directory recursive ext).
Proof.
  intros Hwf. unfold glob.
  destruct (resolve root (parts directory)) as [[|entries| | |]|] eqn:Hr; try constructor.
  pose proof (resolve_well_formed _ _ _ Hwf Hr) as Hd.
  destruct recursive.
  - apply glob_tree_NoDup. exact Hd.
  - apply glob_entries_NoDup. exact (proj1 Hd).
Qed.

(** The list of the collector has no path twice. *)
Lemma find_screenshots_NoDup (root : node) (directory : Path) (recursive : bool) :
  well_formed root -> NoDup (find_screenshots root directory recursive).
Proof.
  intros Hwf. unfold find_screenshots.
  apply (Permutation_NoDup (sorted_perm _)). apply NoDup_filter.
  assert (Hapart : forall e1 e2 p,
             In e1 globbed_extensions -> In e2 globbed_extensions -> e1 <> e2 ->
             In p (glob root directory recursive e1) ->
             ~ In p (glob root directory recursive e2)).
  { intros e1 e2 p H1 H2 Hne G1 G2. apply Hne.
    apply (extensions_apart e1 e2 (path_name p) H1 H2);
      eapply glob_names; eauto. }
  unfold globbed_extensions in Hapart.
  apply NoDup_app; [apply glob_NoDup; exact Hwf | |].
  - apply NoDup_app; try (apply glob_NoDup; exact Hwf).
    intros p Hp. apply (Hapart (str "jpg") (str "jpeg") p); simpl; auto. discriminate.
  - intros p Hp Hq. apply in_app_or in Hq. destruct Hq as [Hq|Hq].
    + apply (Hapart (str "png") (str "jpg") p); simpl; auto. discriminate.
    + apply (Hapart (str "png") (str "jpeg") p); simpl; auto. discriminate.
Qed.

(** ** The patterns are in the fragment the reader knows *)

Lemma time_pattern_reads : parse_regex time_pattern_source = Some time_pattern.
Proof. vm_compute. reflexivity. Qed.

Lemma screenshot_patterns_read (pattern : string) :
  In pattern screenshot_patterns -> parse_regex pattern = Some (compile pattern).
Proof.
  simpl. intros Hin.
  repeat (destruct Hin as [<- | Hin]); try contradiction; vm_compute; reflexivity.
Qed.

(** *** Stem and suffix of a name *)

Lemma rfind_dot_none (e : text) : no_dot e = true -> rfind_dot e = None.
Proof.
  unfold no_dot. induction e as [|c e IH]; cbn [forallb rfind_dot]; [reflexivity|].
  intros He. apply andb_prop in He. destruct He as (Hc & He).
  apply negb_true_iff in Hc. rewrite (IH He), Hc. reflexivity.
Qed.

Lemma rfind_dot_last (x e : text) :
  no_dot e = true -> rfind_dot (x ++ "."%char :: e) = Some (length x).
Proof.
  intros He. induction x as [|c x IH]; cbn [app rfind_dot].
  - rewrite (rfind_dot_none e He). reflexivity.
  - rewrite IH. reflexivity.
Qed.

Lemma rfind_dot_split (s : text) (i : nat) :
  rfind_dot s = Some i ->
  exists x e, s = x ++ "."%char :: e /\ length x = i /\ no_dot e = true.
Proof.
  revert i. induction s as [|c s IH]; intros i Hr; cbn [rfind_dot] in Hr;
    [discriminate|].
  destruct (rfind_dot s) as [j|] eqn:Hs.
  - injection Hr as <-. destruct (IH j eq_refl) as (x & e & -> & Hl & He).
    exists (c :: x), e. simpl. auto.
  - destruct (is_char "." c) eqn:Hc; [|discriminate]. injection Hr as <-.
    apply Ascii.eqb_eq in Hc. subst c. exists [], s. repeat split.
    assert (Hnone : forall t, rfind_dot t = None -> no_dot t = true).
    { induction t as [|a t IHt]; cbn [rfind_dot]; [reflexivity|].
      destruct (rfind_dot t); [discriminate|].
      destruct (is_char "." a) eqn:Ha; [discriminate|].
      intros _. unfold no_dot in *. cbn [forallb]. rewrite Ha. apply IHt. reflexivity. }
    apply Hnone. exact Hs.
Qed.

(** A name that is a stem, a dot and an extension without a dot splits
    there. *)
Lemma stem_suffix_of (x e : text) (p : Path) :
  path_name p = x ++ "."%char :: e -> x <> [] -> e <> [] -> no_dot e = true ->
  path_stem p = x /\ path_suffix p = "."%char :: e.
Proof.
  intros Hn Hx He Hd. unfold path_stem, path_suffix, suffix_index.
  rewrite Hn, (rfind_dot_last x e Hd).
  assert (Hi : (0 <? length x) && (length x <? length (x ++ "."%char :: e) - 1) = true).
  { rewrite length_app. simpl. destruct x; [contradiction|]. destruct e; [contradiction|].
    simpl. apply Nat.ltb_lt. lia. }
  rewrite Hi. split.
  - rewrite firstn_app, Nat.sub_diag, firstn_all. simpl. apply app_nil_r.
  - rewrite skipn_app, Nat.sub_diag, skipn_all. reflexivity.
Qed.

(** A suffix that is there is a dot and an extension without a dot,
    after a stem that is not empty. *)
Lemma suffix_shape (p : Path) :
  path_suffix p <> [] ->
  exists e, path_suffix p = "."%char :: e /\ e <> [] /\ no_dot e = true
            /\ path_stem p <> [].
Proof.
  unfold path_suffix, path_stem, suffix_index.
  destruct (rfind_dot (path_name p)) as [i|] eqn:Hr; [|contradiction].
  destruct ((0 <? i) && (i <? length (path_name p) - 1)) eqn:Hi; [|contradiction].
  intros _. apply andb_prop in Hi. destruct Hi as (H0 & H1).
  apply Nat.ltb_lt in H0, H1.
  destruct (rfind_dot_split _ _ Hr) as (x & e & Hs & Hl & He).
  rewrite Hs. rewrite Hs, length_app in H1. simpl in H1. subst i.
  rewrite skipn_app, Nat.sub_diag, skipn_all, firstn_app, Nat.sub_diag, firstn_all.
  simpl. rewrite app_nil_r. exists e. repeat split; auto.
  - intros ->. simpl in H1. lia.
  - intros ->. simpl in H0. lia.
Qed.

(** ** The claims *)

(** C1 (the code differs): with [shot.png] and [shot_001.png] taken, the
    loop of the force mode does not reach [shot_002.png]: each round
    splits the name it has just built, so the second counter goes after
    the first and the result is [shot_001_002.png]. *)
Theorem C1_force_mode_compounds_counters :
  forall fuel : nat,
    path_exists shots (path_of (str "/d/shot.png")) = Returns true
    /\ path_exists shots (path_of (str "/d/shot_001.png")) = Returns true
    /\ free_name (3 + fuel) shots
         (path_of (str "/d/Screenshot 2024-01-15 at 3.45.10 PM.png"))
         (str "shot.png") 1%Z
       = Returns (Some (str "shot_001_002.png")).
Proof.
  intros fuel. split; [reflexivity|]. split; [reflexivity|].
  apply free_name_compounds; reflexivity.
Qed.

(** C2: a dry run of the rename executor leaves the file system as it
    was, whatever the names, also when the test of the destination
    raises; it reports success exactly when that test finds the
    destination free, the destination being the one a real run tests and
    renames to; the name computed for a file does not depend on the
    dry-run flag; and a whole dry run of the loop of [main], under any
    pattern, prefix, suffix and force flag, leaves the file system it
    started with, whether it returns or raises.  With a prefix of 300
    characters, on a file system whose names hold 255, the dry run raises
    at the test and the directory is as before. *)
Theorem C2_dry_run_leaves_the_file_system :
  forall (FS : Type) (F : FileSystem FS) (fs : FS) (file_path : Path) (new_name : text),
    let new_path := joinpath (path_parent file_path) new_name in
    rename_screenshot fs file_path new_name true
    = (taken <- path_exists fs new_path ;; Returns (negb taken), fs)
    /\ rename_screenshot fs file_path new_name false
       = match path_exists fs new_path with
         | Raises => (Raises, fs)
         | Returns true => (Returns false, fs)
         | Returns false =>
             match os_rename fs file_path new_path with
             | Some fs' => (Returns true, fs')
             | None => (Returns false, fs)
             end
         end
    /\ (forall fuel w pattern prefix suffix force,
          new_name_for fuel w (MkArguments pattern prefix suffix true force) fs file_path
          = new_name_for fuel w (MkArguments pattern prefix suffix false force) fs file_path)
    /\ (forall fuel world_of pattern prefix suffix force files count,
          snd (process_files fuel world_of
                 (MkArguments pattern prefix suffix true force) files count fs) = fs
          /\ (fst (process_files fuel world_of
                     (MkArguments pattern prefix suffix true force) files count fs)
              = Returns None -> force = true))
    /\ process_files 5 (fun _ => world_replying [])
         (MkArguments (str "datetime") (repeat "p"%char 300) [] true false)
         [path_of (str "/d/Screenshot 2024-01-15 at 3.45.10 PM.png")] 0 shots
       = (Raises, shots).
Proof.
  intros FS F fs file_path new_name new_path. split; [|split; [|split; [|split]]].
  - apply rename_screenshot_dry_run.
  - unfold rename_screenshot. fold new_path.
    destruct (path_exists fs new_path) as [[|]|]; reflexivity.
  - reflexivity.
  - intros. apply process_files_dry_run.
  - vm_compute. reflexivity.
Qed.

(** C3: an instant written in the shape
    [Screenshot YYYY-MM-DD at H.MM.SS AM|PM.png], the hour on one or two
    digits, is the instant the extractor returns; the conversion adds 12 to
    a PM hour other than 12, turns 12 AM into 0 and keeps every other
    hour, so that 12.00.00 AM is hour 0, 12.00.00 PM hour 12 and
    1.00.00 PM hour 13. *)
Theorem C3_extraction_round_trip :
  (forall (two_digits : bool) (y mo d h mi s : Z) (dt : datetime),
      datetime_new y mo d h mi s = Some dt ->
      extract_datetime_from_screenshot (screenshot_name two_digits dt) = Returns (Some dt))
  /\ (forall h : Z, h <> 12%Z -> to_24_hour (str "PM") h = (h + 12)%Z)
  /\ to_24_hour (str "AM") 12 = 0%Z
  /\ (forall h : Z, h <> 12%Z -> to_24_hour (str "AM") h = h)
  /\ to_24_hour (str "PM") 12 = 12%Z
  /\ extract_datetime_from_screenshot (str "Screenshot 2024-01-15 at 12.00.00 AM.png")
     = Returns (Some (MkDatetime 2024 1 15 0 0 0))
  /\ extract_datetime_from_screenshot (str "Screenshot 2024-01-15 at 12.00.00 PM.png")
     = Returns (Some (MkDatetime 2024 1 15 12 0 0))
  /\ extract_datetime_from_screenshot (str "Screenshot 2024-01-15 at 1.00.00 PM.png")
     = Returns (Some (MkDatetime 2024 1 15 13 0 0)).
Proof.
  split; [intros; eapply extract_screenshot_name; eauto|].
  split.
  { intros h Hh. unfold to_24_hour. apply Z.eqb_neq in Hh. rewrite Hh. reflexivity. }
  split; [reflexivity|].
  split.
  { intros h Hh. unfold to_24_hour. apply Z.eqb_neq in Hh. rewrite Hh. reflexivity. }
  repeat split; vm_compute; reflexivity.
Qed.

Lemma C3_round_trip_witness :
  extract_datetime_from_screenshot
    (screenshot_name false (MkDatetime 2024 1 15 15 45 10))
  = Returns (Some (MkDatetime 2024 1 15 15 45 10)).
Proof.
  apply (proj1 C3_extraction_round_trip false 2024 1 15 15 45 10)%Z.
  reflexivity.
Defined.

(** C4: the extractor never raises; a name the pattern matches holds its
    six fields and its marker; and when these, the hour converted, are not
    a real calendar date-time, the extractor returns the absent value. *)
Theorem C4_invalid_calendar_values_give_no_timestamp :
  forall filename : text,
    (exists r, extract_datetime_from_screenshot filename = Returns r)
    /\ (forall m, re_search time_pattern filename = Some m ->
          exists f, embedded_fields filename = Some f)
    /\ (forall f, embedded_fields filename = Some f ->
          fields_datetime f = None ->
          extract_datetime_from_screenshot filename = Returns None).
Proof.
  intros filename. split; [apply extract_returns|]. split.
  - intros m Hs. destruct (embedded_fields_matched filename m Hs)
      as (y & mo & d & h & mi & s & ap & Hf & _). eauto.
  - intros f Hf Hnone. rewrite extract_embedded, Hf, Hnone. reflexivity.
Qed.

Lemma C4_february_30_witness :
  extract_datetime_from_screenshot (str "Screenshot 2024-02-30 at 1.00.00 PM.png")
  = Returns None.
Proof.
  apply (proj2 (proj2 (C4_invalid_calendar_values_give_no_timestamp
                         (str "Screenshot 2024-02-30 at 1.00.00 PM.png")))
           (2024, 2, 30, 1, 0, 0, str "PM")%Z).
  - vm_compute. reflexivity.
  - vm_compute. reflexivity.
Defined.

Lemma embedded_fields_bounds (filename : text) (y mo d h mi s : Z) (ap : text) :
  embedded_fields filename = Some (y, mo, d, h, mi, s, ap) ->
  (0 <= h <= 99)%Z /\ (ap = str "AM" \/ ap = str "PM").
Proof.
  intros Hf.
  destruct (re_search time_pattern filename) as [m|] eqn:Hs.
  - destruct (embedded_fields_matched filename m Hs)
      as (y' & mo' & d' & h' & mi' & s' & ap' & Hf' & Hh & Hap).
    rewrite Hf in Hf'. injection Hf' as -> -> -> -> -> -> ->. auto.
  - unfold embedded_fields in Hf. rewrite Hs in Hf. discriminate.
Qed.

Lemma valid_datetime_hour (y mo d h mi s : Z) :
  valid_datetime y mo d h mi s
  = valid_datetime y mo d 0 mi s && ((0 <=? h)%Z && (h <=? 23)%Z).
Proof.
  unfold valid_datetime. cbn [Z.leb Z.compare].
  repeat match goal with
  | |- context [(?a <=? ?b)%Z] => destruct (a <=? b)%Z; cbn [andb]; try reflexivity
  end.
Qed.

Lemma to_24_hour_range (ap : text) (h : Z) :
  (0 <= h)%Z -> ap = str "AM" \/ ap = str "PM" ->
  ((0 <=? to_24_hour ap h)%Z && (to_24_hour ap h <=? 23)%Z = false
   <-> (ap = str "PM" /\ 13 <= h)%Z \/ (ap = str "AM" /\ 24 <= h)%Z).
Proof.
  intros Hh [-> | ->].
  - change (to_24_hour (str "AM") h) with (if (h =? 12)%Z then 0%Z else h).
    destruct (Z.eqb_spec h 12); rewrite andb_false_iff, !Z.leb_gt; split.
    + intros [?|?]; lia.
    + intros [[E _]|[_ ?]]; [discriminate E | lia].
    + intros [?|?]; [lia | right; split; [reflexivity | lia]].
    + intros [[E _]|[_ ?]]; [discriminate E | lia].
  - change (to_24_hour (str "PM") h)
      with (if negb (h =? 12)%Z then (h + 12)%Z else h).
    destruct (Z.eqb_spec h 12); cbn [negb]; rewrite andb_false_iff, !Z.leb_gt; split.
    + intros [?|?]; lia.
    + intros [[_ ?]|[E _]]; [lia | discriminate E].
    + intros [?|?]; [lia | left; split; [reflexivity | lia]].
    + intros [[_ ?]|[E _]]; [lia | discriminate E].
Qed.

(** C5, the claim at fault: a name whose hour field is 0 still gives a
    timestamp. *)
Lemma C5_hour_zero_counterexample :
  ~ (forall (filename : text) (y mo d h mi s : Z) (ap : text),
       embedded_fields filename = Some (y, mo, d, h, mi, s, ap) ->
       (h < 1 \/ 12 < h)%Z ->
       extract_datetime_from_screenshot filename = Returns None).
Proof.
  intros Hclaim.
  specialize (Hclaim (str "Screenshot 2024-01-15 at 0.45.10 AM.png")
                2024 1 15 0 45 10 (str "AM"))%Z.
  assert (Hx : extract_datetime_from_screenshot
                 (str "Screenshot 2024-01-15 at 0.45.10 AM.png")
               = Returns (Some (MkDatetime 2024 1 15 0 45 10)))
    by (vm_compute; reflexivity).
  rewrite Hx in Hclaim. discriminate Hclaim.
  - vm_compute. reflexivity.
  - lia.
Qed.

(** C5 as amended: the hour field is any one or two digits; the extractor
    returns what [datetime] makes of the fields with the hour converted,
    and so the absent value exactly when the other fields are no real
    date-time or the converted hour is past 23, that is for an hour field
    of 13 and more with PM and of 24 and more with AM. *)
Theorem C5_hour_field_any_two_digits :
  forall (filename : text) (y mo d h mi s : Z) (ap : text),
    embedded_fields filename = Some (y, mo, d, h, mi, s, ap) ->
    (0 <= h <= 99)%Z
    /\ (ap = str "AM" \/ ap = str "PM")
    /\ extract_datetime_from_screenshot filename
       = Returns (datetime_new y mo d (to_24_hour ap h) mi s)
    /\ (extract_datetime_from_screenshot filename = Returns None
        <-> datetime_new y mo d 0 mi s = None
            \/ (ap = str "PM" /\ 13 <= h)%Z \/ (ap = str "AM" /\ 24 <= h)%Z).
Proof.
  intros filename y mo d h mi s ap Hf.
  destruct (embedded_fields_bounds filename y mo d h mi s ap Hf) as (Hh & Hap).
  assert (Hx : extract_datetime_from_screenshot filename
               = Returns (datetime_new y mo d (to_24_hour ap h) mi s))
    by (rewrite extract_embedded, Hf; reflexivity).
  split; [exact Hh|]. split; [exact Hap|]. split; [exact Hx|]. split.
  - rewrite Hx. intros [= Hnone]. unfold datetime_new in *.
    rewrite valid_datetime_hour in Hnone.
    destruct (valid_datetime y mo d 0 mi s); [|left; reflexivity].
    right. apply to_24_hour_range; [lia | exact Hap |].
    destruct ((0 <=? to_24_hour ap h)%Z && (to_24_hour ap h <=? 23)%Z);
      [discriminate Hnone | reflexivity].
  - intros Hcases. rewrite Hx. f_equal. unfold datetime_new in *.
    rewrite valid_datetime_hour.
    destruct (valid_datetime y mo d 0 mi s); [|reflexivity].
    destruct Hcases as [Hnone | Hhour]; [discriminate Hnone|].
    apply to_24_hour_range in Hhour; [|lia|exact Hap].
    cbn [andb]. rewrite Hhour. reflexivity.
Qed.

Lemma C5_hour_13_AM_witness :
  extract_datetime_from_screenshot (str "Screenshot 2024-01-15 at 13.45.10 AM.png")
  = Returns (datetime_new 2024 1 15 (to_24_hour (str "AM") 13) 45 10).
Proof.
  apply (C5_hour_field_any_two_digits
           (str "Screenshot 2024-01-15 at 13.45.10 AM.png")
           2024 1 15 13 45 10 (str "AM"))%Z.
  vm_compute. reflexivity.
Defined.

(** C6: the new name is the prefix and an underscore if there is a
    prefix, the core name of the pattern, an underscore and the suffix if
    there is a suffix, and the extension of the old name; so the two
    names of the specification come out as it says, whatever the clock
    and the vision service. *)
Theorem C6_name_is_prefix_core_suffix_extension :
  forall (w : world),
    (forall (old_name pattern prefix suffix : text) (file_path : option Path),
        generate_new_name w old_name pattern prefix suffix file_path
        = Returns (assemble prefix
                     (core_name w old_name pattern (description_for w file_path))
                     suffix (path_suffix (path_of old_name))))
    /\ generate_new_name w (str "Screenshot 2024-01-15 at 3.45.10 PM.png")
         (str "datetime") [] [] None
       = Returns (str "2024-01-15_15-45-10.png")
    /\ generate_new_name w (str "Screenshot 2024-01-15 at 3.45.10 PM.png")
         (str "date") (str "proj") (str "final") None
       = Returns (str "proj_2024-01-15_final.png").
Proof.
  intros w. split; [apply generate_new_name_assemble|].
  split; vm_compute; reflexivity.
Qed.

(** C7: the clean-up of the reply is the sanitization of the
    specification, step by step, the empty result being the failure; on
    that failure the name is the one of the datetime pattern; and the
    reply "Login Page Error." gives [login-page-error].  The steps of the
    specification are written on their own, not with the functions of the
    code: a reply with a dot inside is cut at its first dot, runs of
    other characters and of hyphens give one hyphen, hyphens at the ends
    go, a long reply is cut at 50 characters, and a letter above the code
    point 127 is kept. *)
Theorem C7_description_is_sanitized :
  (forall raw : text,
      clean_description raw
      = match sanitize_spec raw with
        | [] => None
        | d => Some d
        end)
  /\ (forall (w : world) (file_path : Path) (raw old_name pattern prefix suffix : text),
        reply w file_path = Some raw ->
        sanitize_spec raw = [] ->
        pattern = str "ai" \/ pattern = str "content" ->
        generate_new_name w old_name pattern prefix suffix (Some file_path)
        = generate_new_name w old_name (str "datetime") prefix suffix (Some file_path))
  /\ sanitize_spec (str "Login Page Error.") = str "login-page-error"
  /\ clean_description (str "Login Page Error.") = Some (str "login-page-error")
  /\ sanitize_spec (str "Settings.Panel v2.png") = str "settings"
  /\ clean_description (str "Settings.Panel v2.png") = Some (str "settings")
  /\ clean_description (str "  Error -- disk  full!  ") = Some (str "error-disk-full")
  /\ sanitize_spec (str "  Error -- disk  full!  ") = str "error-disk-full"
  /\ sanitize_spec (str "-- A_b --c.d") = str "a_b-c"
  /\ sanitize_spec (repeat "A"%char 60) = repeat "a"%char 50
  /\ sanitize_spec (str "Caf" ++ [ascii_of_nat 233] ++ str " Menu")
     = str "caf" ++ [ascii_of_nat 233] ++ str "-menu"
  /\ (forall file_path : Path,
        generate_new_name (world_replying (str "Login Page Error."))
          (str "Screenshot 2024-01-15 at 3.45.10 PM.png") (str "ai") [] []
          (Some file_path)
        = Returns (str "login-page-error.png")).
Proof.
  split; [apply clean_description_spec|]. split.
  - intros w file_path raw old_name pattern prefix suffix Hreply Hempty Hpat.
    unfold generate_new_name, analyze_image_with_openai.
    rewrite Hreply, clean_description_spec, Hempty.
    destruct Hpat as [-> | ->]; reflexivity.
  - repeat split; intros; vm_compute; reflexivity.
Qed.

Lemma C7_empty_description_witness :
  generate_new_name (world_replying (str " ... ")) (str "Screenshot.png") (str "ai")
    [] [] (Some (path_of (str "/d/Screenshot.png")))
  = generate_new_name (world_replying (str " ... ")) (str "Screenshot.png")
      (str "datetime") [] [] (Some (path_of (str "/d/Screenshot.png"))).
Proof.
  apply (proj1 (proj2 C7_description_is_sanitized)
           (world_replying (str " ... ")) (path_of (str "/d/Screenshot.png"))
           (str " ... ")).
  - reflexivity.
  - vm_compute. reflexivity.
  - left. reflexivity.
Defined.

(** C8: whatever the old name, the pattern, the prefix, the suffix and the
    answer of the vision service, the generator returns a name that ends
    with the extension of the old name, which is the end of that name as
    it stands: a name that is a stem, a dot and an extension without a
    dot gives a name that ends with that dot and that extension, in the
    case it has, also on the path through the vision service. *)
Theorem C8_extension_is_kept :
  forall (w : world) (old_name pattern prefix suffix : text) (file_path : option Path),
    (exists body,
        generate_new_name w old_name pattern prefix suffix file_path
        = Returns (body ++ path_suffix (path_of old_name)))
    /\ path_name (path_of old_name)
       = path_stem (path_of old_name) ++ path_suffix (path_of old_name)
    /\ (forall stem ext : text,
          old_name = stem ++ "."%char :: ext ->
          no_slash old_name = true -> stem <> [] -> ext <> [] -> no_dot ext = true ->
          exists body,
            generate_new_name w old_name pattern prefix suffix file_path
            = Returns (body ++ "."%char :: ext))
    /\ generate_new_name w (str "Screenshot 2024-01-15 at 3.45.10 PM.PNG")
         (str "datetime") [] [] None
       = Returns (str "2024-01-15_15-45-10.PNG")
    /\ generate_new_name (world_replying (str "Login Page Error."))
         (str "CleanShot one.two.JPeG") (str "ai") (str "p") (str "s")
         (Some (path_of (str "/d/CleanShot one.two.JPeG")))
       = Returns (str "p_login-page-error_s.JPeG")
    /\ path_suffix (path_of (str "archive.tar.gz")) = str ".gz"
    /\ path_suffix (path_of (str "/dir.d/Screenshot")) = []
    /\ path_suffix (path_of (str ".hidden")) = []
    /\ path_suffix (path_of (str "name.")) = [].
Proof.
  intros w old_name pattern prefix suffix file_path.
  assert (Hbody : exists body,
             generate_new_name w old_name pattern prefix suffix file_path
             = Returns (body ++ path_suffix (path_of old_name))).
  { rewrite generate_new_name_assemble. unfold assemble.
    eexists. rewrite !app_assoc. reflexivity. }
  split; [exact Hbody|]. split; [symmetry; apply stem_suffix|]. split.
  - intros stem ext Hname Hslash Hstem Hext Hdot.
    assert (Hsimple : simple_name old_name).
    { split; [exact Hslash|]. rewrite Hname, length_app.
      destruct stem; [contradiction|]. simpl. lia. }
    assert (Hn : path_name (path_of old_name) = stem ++ "."%char :: ext)
      by (rewrite (path_of_simple old_name Hsimple); exact Hname).
    destruct (stem_suffix_of stem ext (path_of old_name) Hn Hstem Hext Hdot) as (_ & Hsuf).
    rewrite <- Hsuf. exact Hbody.
  - repeat split; vm_compute; reflexivity.
Qed.

Lemma C8_capital_extension_witness :
  exists body,
    generate_new_name (world_replying []) (str "CleanShot 2024.01.15.JPG") (str "date")
      (str "work") [] None
    = Returns (body ++ "."%char :: str "JPG").
Proof.
  apply (proj1 (proj2 (proj2 (C8_extension_is_kept (world_replying [])
                                (str "CleanShot 2024.01.15.JPG") (str "date") (str "work") []
                                None)))
           (str "CleanShot 2024.01.15") (str "JPG"));
    try reflexivity; discriminate.
Defined.

(** C9 (the code differs): a regular file whose name the classifier
    accepts, with its extension in capitals, is not in the list of the
    collector, since the three patterns it globs are in lower case. *)
Theorem C9_collector_misses_capital_extensions :
  is_file capitals (path_of (str "/shots/Screenshot 2024-01-01 at 10.00.00 AM.PNG")) = true
  /\ is_screenshot_file (str "Screenshot 2024-01-01 at 10.00.00 AM.PNG") = true
  /\ find_screenshots capitals (path_of (str "/shots")) false = []
  /\ find_screenshots capitals (path_of (str "/")) true = [].
Proof. repeat split; vm_compute; reflexivity. Qed.

(** C10, the claim at fault: [$] also matches before a final newline, and
    there the check of the extension, which the shapes do not imply,
    makes the difference. *)
Lemma C10_newline_counterexample :
  ~ (forall filename : text, is_screenshot_file filename = matches_a_shape filename).
Proof.
  intros Hclaim. specialize (Hclaim (str "Screenshot.png" ++ [newline])).
  vm_compute in Hclaim. discriminate Hclaim.
Qed.

(** C10 as amended: the classifier accepts a name exactly when the name
    matches one of the seven shapes and does not end with a newline; on
    the names with no final newline the check of the extension changes
    nothing. *)
Theorem C10_classifier_is_shapes_without_final_newline :
  forall filename : text,
    is_screenshot_file filename
    = matches_a_shape filename && negb (endswith filename [newline]).
Proof. exact classifier_and_shapes. Qed.

(** ** More on the collector, the renaming and the clean-up *)

Lemma glob_below (root : node) (directory : Path) (recursive : bool) (ext : text)
    (p : Path) :
  In p (glob root directory recursive ext) -> below directory p.
Proof.
  unfold glob, below.
  destruct (resolve root (parts directory)) as [[|entries| | |]|]; try contradiction.
  destruct recursive.
  - apply glob_tree_below.
  - intros Hin. apply glob_entries_In in Hin. destruct Hin as (nm & n & _ & _ & ->).
    exists nm, []. split; reflexivity.
Qed.


Lemma free_name_is_free {FS : Type} `{FileSystem FS} (fs : FS) (file_path : Path)
    (fuel : nat) :
  forall (new_name : text) (counter : Z) (r : text),
    free_name fuel fs file_path new_name counter = Returns (Some r) ->
    path_exists fs (joinpath (path_parent file_path) r) = Returns false.
Proof.
  induction fuel as [|fuel IH]; intros new_name counter r Hr; cbn [free_name] in Hr;
    [discriminate|].
  destruct (path_exists fs (joinpath (path_parent file_path) new_name)) as [[|]|] eqn:He;
    cbn [bind] in Hr.
  - eapply IH. exact Hr.
  - injection Hr as <-. exact He.
  - discriminate.
Qed.

Lemma process_files_count {FS : Type} `{FileSystem FS} (fuel : nat)
    (world_of : Path -> world) (args : arguments) (files : list Path) :
  forall (count : nat) (fs : FS) (n : nat) (fs' : FS),
    process_files fuel world_of args files count fs = (Returns (Some n), fs') ->
    count <= n <= count + length files.
Proof.
  induction files as [|file_path files IH]; intros count fs n fs' Hp;
    cbn [process_files] in Hp.
  - injection Hp as <- <-. simpl. lia.
  - destruct (new_name_for fuel (world_of file_path) args fs file_path)
      as [[new_name|]|]; try discriminate.
    destruct (rename_screenshot fs file_path new_name (arg_dry_run args)) as [[ok|] fs1];
      [|discriminate].
    apply IH in Hp. simpl. destruct ok; lia.
Qed.








(** ** Further properties of the code *)

(** X1: the list the collector returns is in the order of paths, each
    path not after the next. *)
Theorem X1_collector_list_is_sorted :
  forall (root : node) (directory : Path) (recursive : bool),
    Sorted path_le (find_screenshots root directory recursive).
Proof. intros. apply sorted_Sorted. Qed.

(** X2: in a tree where the names of a directory differ from one another,
    the collector returns no path twice, although it globs three times. *)
Theorem X2_collector_list_has_no_duplicates :
  forall (root : node) (directory : Path) (recursive : bool),
    well_formed root -> NoDup (find_screenshots root directory recursive).
Proof. intros. apply find_screenshots_NoDup. assumption. Qed.

Lemma X2_desktop_witness :
  NoDup (find_screenshots desktop (path_of (str "/Desktop")) true).
Proof.
  apply (X2_collector_list_has_no_duplicates desktop (path_of (str "/Desktop")) true).
  simpl. repeat split; repeat constructor; simpl; intuition discriminate.
Defined.

(** X3: every path the collector returns is below the directory, is a
    regular file or a link to one (never a directory), has a name the
    classifier accepts, and that name ends in [.png], [.jpg] or [.jpeg]
    in lower case. *)
Theorem X3_collector_returns_screenshot_files_only :
  forall (root : node) (directory : Path) (recursive : bool) (p : Path),
    In p (find_screenshots root directory recursive) ->
    below directory p
    /\ is_file root p = true
    /\ is_screenshot_file (path_name p) = true
    /\ exists ext, In ext globbed_extensions
                   /\ endswith (path_name p) (str "." ++ ext) = true.
Proof.
  intros root directory recursive p Hin.
  pose proof (find_screenshots_lower_case root directory recursive p Hin) as Hlow.
  apply find_screenshots_members in Hin. destruct Hin as ((ext & _ & Hg) & Hf & Hc).
  repeat split; auto. exact (glob_below root directory recursive ext p Hg).
Qed.

Lemma X3_desktop_witness :
  below (path_of (str "/Desktop")) (path_of (str "/Desktop/archive/CleanShot X.jpeg"))
  /\ is_file desktop (path_of (str "/Desktop/archive/CleanShot X.jpeg")) = true
  /\ is_screenshot_file (path_name (path_of (str "/Desktop/archive/CleanShot X.jpeg"))) = true
  /\ exists ext, In ext globbed_extensions
                 /\ endswith (path_name (path_of (str "/Desktop/archive/CleanShot X.jpeg")))
                      (str "." ++ ext) = true.
Proof.
  apply (X3_collector_returns_screenshot_files_only desktop (path_of (str "/Desktop")) true).
  vm_compute. auto.
Defined.







(** X7: the loop of the force mode returns a free name at once, with no
    counter, and whatever name it returns does not exist in the
    directory of the file. *)
Theorem X7_force_mode_returns_a_free_name :
  forall (FS : Type) (F : FileSystem FS) (fs : FS) (file_path : Path)
         (new_name : text) (counter : Z) (fuel : nat),
    (path_exists fs (joinpath (path_parent file_path) new_name) = Returns false ->
     free_name (S fuel) fs file_path new_name counter = Returns (Some new_name))
    /\ (forall r, free_name fuel fs file_path new_name counter = Returns (Some r) ->
          path_exists fs (joinpath (path_parent file_path) r) = Returns false).
Proof.
  intros FS F fs file_path new_name counter fuel. split.
  - intros He. cbn [free_name]. rewrite He. reflexivity.
  - intros r. apply free_name_is_free.
Qed.

Lemma X7_free_name_witness :
  path_exists shots (joinpath (path_parent (path_of (str "/d/shot.png")))
                       (str "shot_001_002.png")) = Returns false.
Proof.
  apply (proj2 (X7_force_mode_returns_a_free_name (list Path) listing_fs shots
                  (path_of (str "/d/shot.png")) (str "shot.png") 1%Z 5)).
  vm_compute. reflexivity.
Defined.

(** X8: on a file system whose existing names have a bounded length the
    loop of the force mode ends: within two rounds more than the bound
    either the test of a candidate raises, or the loop returns a name
    that does not exist. *)
Theorem X8_force_mode_loop_ends :
  forall (FS : Type) (F : FileSystem FS) (fs : FS) (bound : nat) (file_path : Path)
         (new_name : text) (counter : Z) (fuel : nat),
    (forall p, path_exists fs p = Returns true -> length (path_name p) <= bound) ->
    bound + 2 <= fuel ->
    free_name fuel fs file_path new_name counter = Raises
    \/ exists r, free_name fuel fs file_path new_name counter = Returns (Some r)
                 /\ path_exists fs (joinpath (path_parent file_path) r) = Returns false.
Proof.
  intros FS F fs bound file_path new_name counter fuel Hbound Hfuel.
  pose proof (free_name_total fs bound Hbound file_path new_name counter fuel Hfuel) as Hn.
  destruct (free_name fuel fs file_path new_name counter) as [[r|]|] eqn:Hr.
  - right. exists r. split; [reflexivity|].
    exact (free_name_is_free fs file_path fuel new_name counter r Hr).
  - contradiction.
  - left. reflexivity.
Qed.

Lemma X8_shots_witness :
  free_name 50 shots (path_of (str "/d/shot.png")) (str "shot.png") 1%Z = Raises
  \/ exists r, free_name 50 shots (path_of (str "/d/shot.png")) (str "shot.png") 1%Z
               = Returns (Some r)
               /\ path_exists shots (joinpath (path_parent (path_of (str "/d/shot.png"))) r)
                  = Returns false.
Proof.
  apply (X8_force_mode_loop_ends (list Path) listing_fs shots (longest_name shots)
           (path_of (str "/d/shot.png")) (str "shot.png") 1%Z 50).
  - apply listed_exists_name.
  - apply Nat.leb_le. vm_compute. reflexivity.
Defined.

(** X9: the count of successes the loop of [main] ends with is the count
    it started with and at most one more for each file. *)
Theorem X9_success_count_is_bounded :
  forall (FS : Type) (F : FileSystem FS) (fuel : nat) (world_of : Path -> world)
         (args : arguments) (files : list Path) (count : nat) (fs : FS)
         (n : nat) (fs' : FS),
    process_files fuel world_of args files count fs = (Returns (Some n), fs') ->
    count <= n <= count + length files.
Proof. intros. eapply process_files_count; eauto. Qed.

Lemma X9_shots_witness :
  0 <= 1 <= 0 + length [path_of (str "/d/Screenshot 2024-01-15 at 3.45.10 PM.png")].
Proof.
  apply (X9_success_count_is_bounded (list Path) listing_fs 5
           (fun _ => world_replying []) (MkArguments (str "datetime") [] [] false false)
           [path_of (str "/d/Screenshot 2024-01-15 at 3.45.10 PM.png")] 0 shots 1
           [ path_of (str "/d/2024-01-15_15-45-10.png");
             path_of (str "/d/shot.png"); path_of (str "/d/shot_001.png") ]).
  vm_compute. reflexivity.
Defined.



(** X11: a timestamp the extractor returns is a real one: year 1 to 9999,
    month 1 to 12, a day of that month, hour 0 to 23, minute and second 0
    to 59. *)
Theorem X11_extracted_timestamp_is_valid :
  forall (filename : text) (dt : datetime),
    extract_datetime_from_screenshot filename = Returns (Some dt) ->
    valid_datetime (year dt) (month dt) (day dt) (hour dt) (minute dt) (second dt) = true
    /\ (1 <= year dt <= 9999 /\ 1 <= month dt <= 12
        /\ 1 <= day dt <= days_in_month (year dt) (month dt)
        /\ 0 <= hour dt <= 23 /\ 0 <= minute dt <= 59 /\ 0 <= second dt <= 59)%Z.
Proof.
  intros filename dt. rewrite extract_embedded. intros [= Hf].
  destruct (embedded_fields filename) as [[[[[[[y mo] d] h] mi] s] ap]|]; [|discriminate].
  unfold fields_datetime, datetime_new in Hf.
  destruct (valid_datetime y mo d (to_24_hour ap h) mi s) eqn:Hv; [|discriminate].
  injection Hf as <-. cbn [year month day hour minute second].
  split; [exact Hv|].
  unfold valid_datetime, MINYEAR, MAXYEAR in Hv.
  repeat (apply andb_prop in Hv; destruct Hv as [Hv ?]).
  repeat match goal with
  | L : (_ <=? _)%Z = true |- _ => apply Z.leb_le in L
  end.
  lia.
Qed.

Lemma X11_afternoon_witness :
  valid_datetime 2024 1 15 15 45 10 = true
  /\ (1 <= 2024 <= 9999 /\ 1 <= 1 <= 12 /\ 1 <= 15 <= days_in_month 2024 1
      /\ 0 <= 15 <= 23 /\ 0 <= 45 <= 59 /\ 0 <= 10 <= 59)%Z.
Proof.
  apply (X11_extracted_timestamp_is_valid
           (str "CleanShot X 2024-01-15 at 3.45.10 pm.png")
           (MkDatetime 2024 1 15 15 45 10)).
  vm_compute. reflexivity.
Defined.

Lemma decimal_no_slash (n : Z) : no_slash (decimal n) = true.
Proof. apply decimal_aux_no_slash. reflexivity. Qed.

Lemma no_slash_app (a b : text) : no_slash (a ++ b) = no_slash a && no_slash b.
Proof. apply forallb_app. Qed.

Lemma screenshot_name_suffix (two_digits : bool) (dt : datetime) :
  path_suffix (path_of (screenshot_name two_digits dt)) = str ".png".
Proof.
  set (x := str "Screenshot " ++ zero_pad 4 (year dt) ++ str "-" ++ zero_pad 2 (month dt)
            ++ str "-" ++ zero_pad 2 (day dt) ++ str " at "
            ++ (if two_digits then zero_pad 2 (hour_12 (hour dt))
                else decimal (hour_12 (hour dt)))
            ++ str "." ++ zero_pad 2 (minute dt) ++ str "." ++ zero_pad 2 (second dt)
            ++ str " " ++ meridiem (hour dt)).
  assert (Hs : screenshot_name two_digits dt = x ++ "."%char :: str "png").
  { unfold screenshot_name, x. rewrite <- !app_assoc. reflexivity. }
  assert (Hx : no_slash x = true).
  { unfold x. rewrite !no_slash_app, !zero_pad_no_slash.
    assert (Hh : no_slash (if two_digits then zero_pad 2 (hour_12 (hour dt))
                           else decimal (hour_12 (hour dt))) = true)
      by (destruct two_digits; [apply zero_pad_no_slash | apply decimal_no_slash]).
    destruct two_digits; rewrite Hh;
      destruct (meridiem_cases (hour dt)) as [-> | ->]; reflexivity. }
  assert (Hl : 2 <= length x) by (unfold x; rewrite length_app; simpl; lia).
  assert (Hsimple : simple_name (screenshot_name two_digits dt)).
  { rewrite Hs. split.
    - rewrite no_slash_app, Hx. reflexivity.
    - rewrite length_app. lia. }
  apply (stem_suffix_of x (str "png")).
  - rewrite (path_of_simple _ Hsimple). unfold path_name. simpl. exact Hs.
  - intros ->. simpl in Hl. lia.
  - discriminate.
  - reflexivity.
Qed.

Lemma generate_canonical (w : world) (two_digits : bool) (y mo d h mi s : Z)
    (dt : datetime) (prefix suffix : text) :
  datetime_new y mo d h mi s = Some dt ->
  generate_new_name w (screenshot_name two_digits dt) (str "datetime") prefix suffix None
  = Returns (assemble prefix (strftime_datetime dt) suffix (str ".png")).
Proof.
  intros Hnew. rewrite generate_new_name_assemble, screenshot_name_suffix.
  unfold core_name. rewrite (extract_screenshot_name two_digits y mo d h mi s dt Hnew).
  reflexivity.
Qed.

(** X12: a name macOS gives a screenshot gets its new name from the time
    it holds, whatever the clock says: with the pattern [datetime] the date
    and the time of day, with the pattern [date] the date, between the
    prefix and the suffix and before the extension [.png]. *)
Theorem X12_canonical_name_gives_its_own_time :
  forall (w : world) (two_digits : bool) (y mo d h mi s : Z) (dt : datetime)
         (prefix suffix : text),
    datetime_new y mo d h mi s = Some dt ->
    generate_new_name w (screenshot_name two_digits dt) (str "datetime") prefix suffix None
    = Returns (assemble prefix (strftime_datetime dt) suffix (str ".png"))
    /\ generate_new_name w (screenshot_name two_digits dt) (str "date") prefix suffix None
       = Returns (assemble prefix (strftime_date dt) suffix (str ".png")).
Proof.
  intros w two_digits y mo d h mi s dt prefix suffix Hnew.
  split; [apply (generate_canonical w two_digits y mo d h mi s dt prefix suffix Hnew)|].
  rewrite generate_new_name_assemble, screenshot_name_suffix.
  unfold core_name. rewrite (extract_screenshot_name two_digits y mo d h mi s dt Hnew).
  reflexivity.
Qed.

Lemma X12_afternoon_witness :
  generate_new_name (world_replying []) (screenshot_name false (MkDatetime 2024 1 15 15 45 10))
    (str "datetime") (str "proj") [] None
  = Returns (assemble (str "proj") (strftime_datetime (MkDatetime 2024 1 15 15 45 10)) []
               (str ".png")).
Proof.
  apply (proj1 (X12_canonical_name_gives_its_own_time (world_replying []) false
                  2024 1 15 15 45 10 (MkDatetime 2024 1 15 15 45 10) (str "proj") []
                  eq_refl)).
Defined.

Lemma free_name_suffix {FS : Type} `{FileSystem FS} (fs : FS) (file_path : Path)
    (fuel : nat) :
  forall (new_name : text) (counter : Z) (r : text),
    path_suffix (path_of new_name) <> [] ->
    free_name fuel fs file_path new_name counter = Returns (Some r) ->
    path_suffix (path_of r) = path_suffix (path_of new_name).
Proof.
  induction fuel as [|fuel IH]; intros new_name counter r Hx Hr; cbn [free_name] in Hr;
    [discriminate|].
  destruct (path_exists fs (joinpath (path_parent file_path) new_name)) as [[|]|];
    cbn [bind] in Hr; [| |discriminate].
  - cbn [fst snd] in Hr.
    destruct (suffix_shape (path_of new_name) Hx) as (e & He & Hne & Hd & Hstem).
    destruct (next_name_simple new_name counter) as (Hs & _).
    assert (Hnext : path_suffix (path_of (path_stem (path_of new_name) ++ str "_"
                                            ++ zero_pad 3 counter
                                            ++ path_suffix (path_of new_name)))
                    = path_suffix (path_of new_name)).
    { rewrite He at 2.
      apply (stem_suffix_of (path_stem (path_of new_name) ++ str "_" ++ zero_pad 3 counter) e).
      - rewrite (path_of_simple _ Hs). unfold path_name. cbn [parts last].
        rewrite He, <- !app_assoc. reflexivity.
      - destruct (path_stem (path_of new_name)); [contradiction|discriminate].
      - exact Hne.
      - exact Hd. }
    rewrite <- Hnext. apply (IH _ (counter + 1)%Z r); [|exact Hr]. rewrite Hnext. exact Hx.
  - injection Hr as <-. reflexivity.
Qed.

(** X13: the loop of the force mode keeps the extension: when the name it
    starts from has one, the name it returns has the same. *)
Theorem X13_force_mode_keeps_the_extension :
  forall (FS : Type) (F : FileSystem FS) (fs : FS) (file_path : Path)
         (new_name : text) (counter : Z) (fuel : nat) (r : text),
    path_suffix (path_of new_name) <> [] ->
    free_name fuel fs file_path new_name counter = Returns (Some r) ->
    path_suffix (path_of r) = path_suffix (path_of new_name).
Proof. intros FS F fs file_path new_name counter fuel r. apply free_name_suffix. Qed.

Lemma X13_shots_witness :
  path_suffix (path_of (str "shot_001_002.png")) = path_suffix (path_of (str "shot.png")).
Proof.
  apply (X13_force_mode_keeps_the_extension (list Path) listing_fs shots
           (path_of (str "/d/shot.png")) (str "shot.png") 1%Z 5 (str "shot_001_002.png")).
  - vm_compute. discriminate.
  - vm_compute. reflexivity.
Defined.

(** *** The case of letters *)

Lemma ci_test_lower (p : ascii -> bool) :
  every_char (fun c => Bool.eqb (p c) (p (lower_char c))) = true -> ci_test p.
Proof.
  intros Hall c c' Hc.
  pose proof (every_char_spec _ Hall c) as H1. pose proof (every_char_spec _ Hall c') as H2.
  cbv beta in H1, H2. apply Bool.eqb_prop in H1, H2. rewrite H1, H2, Hc. reflexivity.
Qed.


Lemma ci_tests :
  ci_test dot_test /\ ci_test is_digit /\ ci_test is_word /\ ci_test is_space
  /\ ci_test is_newline.
Proof. repeat split; apply ci_test_lower; vm_compute; reflexivity. Qed.















(** *** The media type *)

Lemma matches_length (pattern : string) (filename : text) :
  matches pattern filename = true -> min_len (compile pattern) <= length filename.
Proof.
  intros Hm. apply matches_den in Hm. destruct Hm as (st' & Hd).
  apply den_rest in Hd. destruct Hd as (w & Hw & Hl & _). cbn [rest] in Hw.
  rewrite Hw, length_app. lia.
Qed.

Lemma shapes_length (pattern : string) :
  In pattern screenshot_patterns -> 13 <= min_len (compile pattern).
Proof.
  intros Hin.
  assert (Hall : forallb (fun p => 13 <=? min_len (compile p)) screenshot_patterns = true)
    by (vm_compute; reflexivity).
  rewrite forallb_forall in Hall. apply Nat.leb_le. apply Hall. exact Hin.
Qed.

Lemma lower_dot (c : ascii) : lower_char c = "."%char -> c = "."%char.
Proof.
  intros Hc.
  assert (Hall : every_char (fun c => implb (char_eqb (lower_char c) ".")
                                            (char_eqb c ".")) = true)
    by (vm_compute; reflexivity).
  pose proof (every_char_spec _ Hall c) as H. cbv beta in H. rewrite Hc in H.
  apply Ascii.eqb_eq in H. exact H.
Qed.

Lemma no_dot_lower (e : text) : no_dot (lower e) = true -> no_dot e = true.
Proof.
  unfold no_dot. induction e as [|c e IH]; cbn [lower map forallb]; [reflexivity|].
  fold (lower e). intros He. apply andb_prop in He. destruct He as (Hc & He).
  rewrite (IH He), andb_true_r. apply negb_true_iff. apply negb_true_iff in Hc.
  destruct (is_char "." c) eqn:Hd; [|reflexivity].
  apply Ascii.eqb_eq in Hd. subst c. discriminate Hc.
Qed.

(** The suffix of a name a shape matches is the extension the shape ends
    with, in whatever case. *)
Lemma shape_suffix (pattern : string) (p : Path) :
  In pattern screenshot_patterns ->
  matches pattern (path_name p) = true ->
  endswith (path_name p) [newline] = false ->
  exists ext, is_extension ext /\ lower (path_suffix p) = ext
              /\ endswith (lower (path_name p)) ext = true.
Proof.
  intros Hin Hm Hnl.
  destruct (pattern_shape pattern Hin) as (pre & ext & Hc & Hext).
  pose proof (matches_length _ _ Hm) as Hlen. pose proof (shapes_length _ Hin) as Hmin.
  destruct (matches_extension pattern pre ext (path_name p) Hc Hm) as (u & w & [Hn | Hn] & Hl);
    [|rewrite Hn, endswith_app in Hnl; discriminate].
  exists ext. split; [exact Hext|].
  assert (Hlow : lower ext = ext) by (destruct Hext as [-> | [-> | ->]]; reflexivity).
  rewrite Hlow in Hl.
  assert (Hw : exists e, w = "."%char :: e /\ e <> [] /\ no_dot e = true /\ length w <= 5).
  { destruct w as [|c e]; [destruct Hext as [-> | [-> | ->]]; discriminate|].
    exists e.
    assert (Hlen_w : length (c :: e) = length ext)
      by (rewrite <- Hl; unfold lower; rewrite length_map; reflexivity).
    destruct Hext as [-> | [-> | ->]]; injection Hl as Hc' He;
      apply lower_dot in Hc'; subst c;
      (repeat split;
       [ intros ->; discriminate He
       | apply no_dot_lower; rewrite He; reflexivity
       | rewrite Hlen_w; simpl; lia ]). }
  destruct Hw as (e & -> & Hne & Hd & Hlw).
  assert (Hu : u <> []).
  { intros ->. rewrite Hn in Hlen. simpl in Hlen, Hlw. lia. }
  destruct (stem_suffix_of u e p Hn Hu Hne Hd) as (_ & Hsuf).
  rewrite Hsuf, Hl. split; [reflexivity|].
  rewrite Hn, lower_app, Hl. apply endswith_app.
Qed.

Lemma extension_png (u ext : text) :
  is_extension ext -> endswith (u ++ ext) (str ".png") = text_eqb ext (str ".png").
Proof.
  intros Hext.
  assert (Hshort : forall x y a b : text,
             x ++ str "." ++ a = y ++ b -> length a = length b -> a = b).
  { intros x y a b He Hl. apply (app_same_length (x ++ str ".") y); [|exact Hl].
    rewrite <- app_assoc. exact He. }
  destruct Hext as [-> | [-> | ->]].
  - rewrite endswith_app. reflexivity.
  - destruct (endswith (u ++ str ".jpg") (str ".png")) eqn:He; [|reflexivity].
    apply endswith_split in He. destruct He as (v & Hv).
    apply (app_same_length u v) in Hv; [discriminate Hv | reflexivity].
  - destruct (endswith (u ++ str ".jpeg") (str ".png")) eqn:He; [|reflexivity].
    apply endswith_split in He. destruct He as (v & Hv).
    apply (Hshort u v (str "jpeg") (str ".png")) in Hv; [discriminate Hv | reflexivity].
Qed.

(** X15: a file the classifier accepts is sent to the vision service with
    the media type of its extension: [image/png] when its name ends in
    [.png], in whatever case, and [image/jpeg] otherwise, when it ends in
    [.jpg] or [.jpeg]. *)
Theorem X15_media_type_follows_the_extension :
  forall (image_path : Path),
    is_screenshot_file (path_name image_path) = true ->
    is_extension (lower (path_suffix image_path))
    /\ mime_type image_path
       = (if endswith (lower (path_name image_path)) (str ".png")
          then str "image/png" else str "image/jpeg").
Proof.
  intros p Hs. rewrite classifier_and_shapes in Hs. apply andb_prop in Hs.
  destruct Hs as (Hm & Hnl). apply negb_true_iff in Hnl.
  unfold matches_a_shape in Hm. apply existsb_exists in Hm.
  destruct Hm as (pattern & Hin & Hm).
  destruct (shape_suffix pattern p Hin Hm Hnl) as (ext & Hext & Hsuf & He).
  apply endswith_split in He. destruct He as (u & Hu).
  split; [rewrite Hsuf; exact Hext|].
  unfold mime_type. cbv zeta. rewrite Hu, (extension_png u ext Hext), Hsuf.
  destruct Hext as [-> | [-> | ->]]; reflexivity.
Qed.

Lemma X15_cleanshot_witness :
  is_extension (lower (path_suffix (path_of (str "/d/CleanShot 2024-01-15.JPG"))))
  /\ mime_type (path_of (str "/d/CleanShot 2024-01-15.JPG"))
     = (if endswith (lower (path_name (path_of (str "/d/CleanShot 2024-01-15.JPG"))))
             (str ".png")
        then str "image/png" else str "image/jpeg").
Proof.
  apply (X15_media_type_follows_the_extension (path_of (str "/d/CleanShot 2024-01-15.JPG"))).
  vm_compute. reflexivity.
Defined.

(** *** Names the extractor does not read *)

Lemma search_from_cons (r : regex) (p : nat) (c : ascii) (t : text) :
  search_from r p (c :: t) =
  match run true r Some (MState p (c :: t) []) with
  | Some st => Some st
  | None => search_from r (S p) t
  end.
Proof. reflexivity. Qed.

Lemma search_from_nil (r : regex) (p : nat) :
  search_from r p [] =
  match run true r Some (MState p [] []) with
  | Some st => Some st
  | None => None
  end.
Proof. reflexivity. Qed.

Lemma run_Lit_nil ic a k n cs : run ic (Lit a) k (MState n [] cs) = None.
Proof. reflexivity. Qed.

Lemma run_Bol ic k t cs : run ic Bol k (MState 0 t cs) = k (MState 0 t cs).
Proof. reflexivity. Qed.

Lemma run_Eol_nil ic k n cs : run ic Eol k (MState n [] cs) = k (MState n [] cs).
Proof. reflexivity. Qed.

Lemma digit_letters (c : ascii) :
  is_digit c = true ->
  lit_test true "S" c = false /\ lit_test true "C" c = false
  /\ is_char "/" c = false /\ is_char "." c = false.
Proof.
  intros Hd.
  assert (Hall : every_char (fun c =>
            implb (is_digit c)
                  (negb (lit_test true "S" c) && negb (lit_test true "C" c)
                   && negb (is_char "/" c) && negb (is_char "." c))) = true)
    by (vm_compute; reflexivity).
  pose proof (every_char_spec _ Hall c) as Hc. cbv beta in Hc. rewrite Hd in Hc.
  cbn [implb] in Hc.
  repeat (apply andb_prop in Hc; destruct Hc as [Hc ?]).
  repeat split; apply negb_true_iff; auto.
Qed.

Ltac use_lit :=
  match goal with
  | H : lit_test true ?a ?c = _ |- context [lit_test true ?a ?c] => rewrite H
  end.

Ltac search_step :=
  first
    [ rewrite run_Cat | rewrite run_Alt | rewrite run_Lit_nil
    | rewrite run_Lit; first [use_lit | eval_test]
    | rewrite search_from_cons | rewrite search_from_nil ];
  tidy.

Ltac match_step :=
  first [ rewrite run_Bol | rewrite run_Eol_nil | run_step ]; tidy.

Lemma search_screen_shot (ys ms ds hs ns ss ap : text) :
  forallb is_digit (ys ++ ms ++ ds ++ hs ++ ns ++ ss) = true ->
  length ys = 4 -> length ms = 2 -> length ds = 2 ->
  length hs = 1 \/ length hs = 2 ->
  length ns = 2 -> length ss = 2 ->
  ap = str "AM" \/ ap = str "PM" ->
  re_search time_pattern (stamped_name (str "Screen Shot") ys ms ds hs ns ss ap) = None
  /\ matches "^Screen Shot \d{4}-\d{2}-\d{2} at \d{1,2}\.\d{2}\.\d{2} (AM|PM)\.png$"
       (stamped_name (str "Screen Shot") ys ms ds hs ns ss ap) = true.
Proof.
  intros Hd Ly Lm Ld Lh Ln Ls Hap. unfold stamped_name.
  fixed_length ys. fixed_length ms. fixed_length ds. fixed_length ns. fixed_length ss.
  destruct Lh as [Lh|Lh]; fixed_length hs;
    destruct Hap as [-> | ->];
    split_digits Hd;
    repeat match goal with
    | D : is_digit ?c = true |- _ =>
        destruct (digit_letters c D) as (? & ? & _ & _); revert D
    end; intros;
    (split;
     [ unfold re_search, time_pattern; cbn [str list_ascii_of_string app];
       repeat search_step; reflexivity
     | unfold matches, re_match;
       let r := eval vm_compute in
         (compile "^Screen Shot \d{4}-\d{2}-\d{2} at \d{1,2}\.\d{2}\.\d{2} (AM|PM)\.png$") in
       change (compile "^Screen Shot \d{4}-\d{2}-\d{2} at \d{1,2}\.\d{2}\.\d{2} (AM|PM)\.png$")
         with r;
       cbn [str list_ascii_of_string app];
       repeat match_step; reflexivity ]).
Qed.

Lemma digits_no_slash (w : text) : forallb is_digit w = true -> no_slash w = true.
Proof.
  unfold no_slash. induction w as [|c w IH]; cbn [forallb]; [reflexivity|].
  intros Hd. apply andb_prop in Hd. destruct Hd as (Hc & Hw).
  destruct (digit_letters c Hc) as (_ & _ & -> & _). rewrite (IH Hw). reflexivity.
Qed.

Lemma stamped_name_suffix (word ys ms ds hs ns ss ap : text) :
  forallb is_digit (ys ++ ms ++ ds ++ hs ++ ns ++ ss) = true ->
  no_slash word = true -> word <> [] ->
  ap = str "AM" \/ ap = str "PM" ->
  path_suffix (path_of (stamped_name word ys ms ds hs ns ss ap)) = str ".png".
Proof.
  intros Hd Hword Hne Hap.
  set (x := word ++ str " " ++ ys ++ str "-" ++ ms ++ str "-" ++ ds ++ str " at "
            ++ hs ++ str "." ++ ns ++ str "." ++ ss ++ str " " ++ ap).
  assert (Hs : stamped_name word ys ms ds hs ns ss ap = x ++ "."%char :: str "png").
  { unfold stamped_name, x. rewrite <- !app_assoc. reflexivity. }
  rewrite !forallb_app in Hd.
  destruct (andb_prop _ _ Hd) as (Dy & Hd1). destruct (andb_prop _ _ Hd1) as (Dm & Hd2).
  destruct (andb_prop _ _ Hd2) as (Dd & Hd3). destruct (andb_prop _ _ Hd3) as (Dh & Hd4).
  destruct (andb_prop _ _ Hd4) as (Dn & Ds).
  assert (Hx : no_slash x = true).
  { unfold x.
    rewrite !no_slash_app, Hword, (digits_no_slash ys Dy), (digits_no_slash ms Dm),
      (digits_no_slash ds Dd), (digits_no_slash hs Dh), (digits_no_slash ns Dn),
      (digits_no_slash ss Ds).
    destruct Hap as [-> | ->]; reflexivity. }
  assert (Hl : 2 <= length x).
  { unfold x. rewrite length_app. simpl. destruct word; [contradiction|]. simpl. lia. }
  assert (Hsimple : simple_name (stamped_name word ys ms ds hs ns ss ap)).
  { rewrite Hs. split.
    - rewrite no_slash_app, Hx. reflexivity.
    - rewrite length_app. lia. }
  apply (stem_suffix_of x (str "png")).
  - rewrite (path_of_simple _ Hsimple). unfold path_name. simpl. exact Hs.
  - intros Hnil. rewrite Hnil in Hl. simpl in Hl. lia.
  - discriminate.
  - reflexivity.
Qed.

(** X16: a name of the older notation of macOS, [Screen Shot] in two
    words before the date and the time of day, is a screenshot file for
    the classifier, but the extractor reads no timestamp in it: with the
    pattern [datetime] the new name holds the time of the clock, not the
    time in the name. *)
Theorem X16_screen_shot_names_get_the_time_of_the_clock :
  forall (w : world) (ys ms ds hs ns ss ap prefix suffix : text),
    forallb is_digit (ys ++ ms ++ ds ++ hs ++ ns ++ ss) = true ->
    length ys = 4 -> length ms = 2 -> length ds = 2 ->
    length hs = 1 \/ length hs = 2 ->
    length ns = 2 -> length ss = 2 ->
    ap = str "AM" \/ ap = str "PM" ->
    is_screenshot_file (stamped_name (str "Screen Shot") ys ms ds hs ns ss ap) = true
    /\ extract_datetime_from_screenshot
         (stamped_name (str "Screen Shot") ys ms ds hs ns ss ap) = Returns None
    /\ generate_new_name w (stamped_name (str "Screen Shot") ys ms ds hs ns ss ap)
         (str "datetime") prefix suffix None
       = Returns (assemble prefix (strftime_datetime (now w)) suffix (str ".png")).
Proof.
  intros w ys ms ds hs ns ss ap prefix suffix Hd Ly Lm Ld Lh Ln Ls Hap.
  destruct (search_screen_shot ys ms ds hs ns ss ap Hd Ly Lm Ld Lh Ln Ls Hap) as (Hs & Hm).
  assert (He : extract_datetime_from_screenshot
                 (stamped_name (str "Screen Shot") ys ms ds hs ns ss ap) = Returns None)
    by (rewrite extract_embedded; unfold embedded_fields; rewrite Hs; reflexivity).
  split; [|split; [exact He|]].
  - rewrite classifier_and_shapes. apply andb_true_intro. split.
    + unfold matches_a_shape. apply existsb_exists. eexists. split; [|exact Hm].
      right. left. reflexivity.
    + apply negb_true_iff. unfold stamped_name. rewrite !app_assoc.
      apply (endswith_newline_extension _ (str ".png") (str ".png"));
        [left; reflexivity | reflexivity].
  - rewrite generate_new_name_assemble.
    rewrite (stamped_name_suffix (str "Screen Shot") ys ms ds hs ns ss ap Hd eq_refl
               ltac:(discriminate) Hap).
    unfold core_name. rewrite He. reflexivity.
Qed.

Lemma X16_screen_shot_witness :
  is_screenshot_file (str "Screen Shot 2024-01-15 at 3.45.10 PM.png") = true
  /\ extract_datetime_from_screenshot (str "Screen Shot 2024-01-15 at 3.45.10 PM.png")
     = Returns None
  /\ generate_new_name (world_replying []) (str "Screen Shot 2024-01-15 at 3.45.10 PM.png")
       (str "datetime") [] [] None
     = Returns (str "2025-06-01_12-00-00.png").
Proof.
  apply (X16_screen_shot_names_get_the_time_of_the_clock (world_replying [])
           (str "2024") (str "01") (str "15") (str "3") (str "45") (str "10") (str "PM")
           [] []); try reflexivity; [left | right]; reflexivity.
Defined.

(** *** One name for one time *)

Lemma split_by_length (a a' b b' : text) :
  length a = length a' -> a ++ b = a' ++ b' -> a = a' /\ b = b'.
Proof.
  revert a'. induction a as [|x a IH]; intros [|x' a'] Hl He; try discriminate.
  - auto.
  - injection Hl as Hl. injection He as -> He.
    destruct (IH a' Hl He) as (-> & ->). auto.
Qed.

Lemma strftime_datetime_injective (y mo d h mi s y' mo' d' h' mi' s' : Z)
    (dt dt' : datetime) :
  datetime_new y mo d h mi s = Some dt ->
  datetime_new y' mo' d' h' mi' s' = Some dt' ->
  strftime_datetime dt = strftime_datetime dt' -> dt = dt'.
Proof.
  intros H1 H2 He.
  apply datetime_new_valid in H1, H2.
  destruct H1 as (-> & Hy & Hmo & Hd & Hh & Hmi & Hs).
  destruct H2 as (-> & Hy' & Hmo' & Hd' & Hh' & Hmi' & Hs').
  unfold strftime_datetime in He. cbn [year month day hour minute second] in He.
  destruct (zero_pad_4 y ltac:(lia)) as (L1 & _ & V1).
  destruct (zero_pad_4 y' ltac:(lia)) as (L1' & _ & V1').
  destruct (zero_pad_2 mo ltac:(lia)) as (L2 & _ & V2).
  destruct (zero_pad_2 mo' ltac:(lia)) as (L2' & _ & V2').
  destruct (zero_pad_2 d ltac:(lia)) as (L3 & _ & V3).
  destruct (zero_pad_2 d' ltac:(lia)) as (L3' & _ & V3').
  destruct (zero_pad_2 h ltac:(lia)) as (L4 & _ & V4).
  destruct (zero_pad_2 h' ltac:(lia)) as (L4' & _ & V4').
  destruct (zero_pad_2 mi ltac:(lia)) as (L5 & _ & V5).
  destruct (zero_pad_2 mi' ltac:(lia)) as (L5' & _ & V5').
  destruct (zero_pad_2 s ltac:(lia)) as (_ & _ & V6).
  destruct (zero_pad_2 s' ltac:(lia)) as (_ & _ & V6').
  apply split_by_length in He; [|congruence]. destruct He as (E1 & He).
  apply app_inv_head in He.
  apply split_by_length in He; [|congruence]. destruct He as (E2 & He).
  apply app_inv_head in He.
  apply split_by_length in He; [|congruence]. destruct He as (E3 & He).
  apply app_inv_head in He.
  apply split_by_length in He; [|congruence]. destruct He as (E4 & He).
  apply app_inv_head in He.
  apply split_by_length in He; [|congruence]. destruct He as (E5 & He).
  apply app_inv_head in He.
  rewrite <- V1, <- V2, <- V3, <- V4, <- V5, <- V6, E1, E2, E3, E4, E5, He.
  rewrite V1', V2', V3', V4', V5', V6'. reflexivity.
Qed.

Lemma assemble_injective (prefix suffix extension core core' : text) :
  assemble prefix core suffix extension = assemble prefix core' suffix extension ->
  core = core'.
Proof.
  unfold assemble. intros He. apply app_inv_head in He.
  rewrite !app_assoc in He. apply app_inv_tail in He. apply app_inv_tail in He.
  exact He.
Qed.

(** X17: with the pattern [datetime], two screenshots whose names hold
    different times get different names, whatever the prefix and the
    suffix: only screenshots of the same second can meet on one name. *)
Theorem X17_different_times_give_different_names :
  forall (w : world) (b b' : bool) (y mo d h mi s y' mo' d' h' mi' s' : Z)
         (dt dt' : datetime) (prefix suffix : text),
    datetime_new y mo d h mi s = Some dt ->
    datetime_new y' mo' d' h' mi' s' = Some dt' ->
    dt <> dt' ->
    generate_new_name w (screenshot_name b dt) (str "datetime") prefix suffix None
    <> generate_new_name w (screenshot_name b' dt') (str "datetime") prefix suffix None.
Proof.
  intros w b b' y mo d h mi s y' mo' d' h' mi' s' dt dt' prefix suffix H1 H2 Hne He.
  rewrite (generate_canonical w b y mo d h mi s dt prefix suffix H1) in He.
  rewrite (generate_canonical w b' y' mo' d' h' mi' s' dt' prefix suffix H2) in He.
  injection He as He. apply assemble_injective in He.
  apply Hne. exact (strftime_datetime_injective _ _ _ _ _ _ _ _ _ _ _ _ dt dt' H1 H2 He).
Qed.

Lemma X17_next_second_witness :
  generate_new_name (world_replying []) (screenshot_name false (MkDatetime 2024 1 15 15 45 10))
    (str "datetime") [] [] None
  <> generate_new_name (world_replying [])
       (screenshot_name false (MkDatetime 2024 1 15 15 45 11)) (str "datetime") [] [] None.
Proof.
  apply (X17_different_times_give_different_names (world_replying []) false false
           2024 1 15 15 45 10 2024 1 15 15 45 11
           (MkDatetime 2024 1 15 15 45 10) (MkDatetime 2024 1 15 15 45 11) [] []
           eq_refl eq_refl).
  discriminate.
Defined.

(** *** A dry run with the force mode *)

Lemma process_files_force_dry_run {FS : Type} `{FileSystem FS} (fuel : nat)
    (world_of : Path -> world) (pattern prefix suffix : text) (files : list Path) :
  forall (count : nat) (fs : FS) (n : nat) (fs' : FS),
    process_files fuel world_of (MkArguments pattern prefix suffix true true) files count fs
    = (Returns (Some n), fs') ->
    n = count + length files.
Proof.
  induction files as [|file_path files IH]; intros count fs n fs' Hp;
    cbn [process_files] in Hp.
  - injection Hp as <- <-. simpl. lia.
  - unfold new_name_for in Hp.
    cbn [arg_pattern arg_prefix arg_suffix arg_force arg_dry_run] in Hp.
    rewrite generate_new_name_assemble in Hp. cbn [bind] in Hp.
    destruct (free_name fuel fs file_path _ 1%Z) as [[new_name|]|] eqn:Hf;
      try discriminate.
    apply free_name_is_free in Hf.
    unfold rename_screenshot in Hp. rewrite Hf in Hp.
    apply IH in Hp. simpl. lia.
Qed.

(** X18: a dry run with the force mode counts every file: the loop of the
    force mode gives each file a name that is free, so the executor
    reports a success for each. *)
Theorem X18_force_dry_run_counts_every_file :
  forall (FS : Type) (F : FileSystem FS) (fuel : nat) (world_of : Path -> world)
         (pattern prefix suffix : text) (files : list Path) (count : nat) (fs : FS)
         (n : nat) (fs' : FS),
    process_files fuel world_of (MkArguments pattern prefix suffix true true) files count fs
    = (Returns (Some n), fs') ->
    n = count + length files.
Proof. intros. eapply process_files_force_dry_run; eauto. Qed.

Lemma X18_shots_witness :
  2 = 0 + length [path_of (str "/d/shot.png"); path_of (str "/d/shot_001.png")].
Proof.
  apply (X18_force_dry_run_counts_every_file (list Path) listing_fs 50
           (fun _ => world_replying []) (str "datetime") [] []
           [path_of (str "/d/shot.png"); path_of (str "/d/shot_001.png")] 0 shots 2 shots).
  vm_compute. reflexivity.
Defined.

(** *** What a name must hold for the extractor *)

Lemma part_of_app (w s u : text) : part_of w s -> part_of w (u ++ s).
Proof.
  intros (a & b & ->). exists (u ++ a), b. rewrite <- app_assoc. reflexivity.
Qed.

Lemma part_of_head (w v : text) : part_of w (w ++ v).
Proof. exists [], v. reflexivity. Qed.

(** A group a match has set holds a part of the text the attempt started
    on. *)
Lemma den_caps_part (ic : bool) (r : regex) :
  forall st st', den ic r st st' ->
    forall n w, In (n, w) (caps st') -> In (n, w) (caps st) \/ part_of w (rest st).
Proof.
  induction r; intros st st' Hd m w Hin; simpl in Hd;
    try (apply step_word in Hd; destruct Hd as (x & _ & _ & Hc); rewrite Hc in Hin;
         left; exact Hin).
  - subst. auto.
  - destruct Hd as (mid & H1 & H2).
    destruct (IHr2 _ _ H2 m w Hin) as [Hmid | Hpart].
    + apply (IHr1 _ _ H1 m w Hmid).
    + right. apply den_rest in H1. destruct H1 as (w1 & -> & _).
      apply part_of_app. exact Hpart.
  - destruct Hd as [Hd | Hd]; eauto.
  - induction Hd as [st | st st1 st2 H1 _ _ IH]; [auto|].
    destruct (IH Hin) as [Hmid | Hpart].
    + apply (IHr _ _ H1 m w Hmid).
    + right. apply den_rest in H1. destruct H1 as (w1 & -> & _).
      apply part_of_app. exact Hpart.
  - destruct Hd as (mid & H1 & ->). cbn [set_cap caps] in Hin.
    destruct Hin as [Hhead | Hin].
    + right. injection Hhead as _ <-.
      destruct (den_rest ic r _ _ H1) as (w1 & Hw & _).
      rewrite (consumed_rest st mid w1 Hw), Hw. apply part_of_head.
    + apply (IHr _ _ H1 m w Hin).
  - destruct Hd as (_ & ->). auto.
  - destruct Hd as (_ & ->). auto.
Qed.

Lemma search_from_part (r : regex) :
  forall s p m, search_from r p s = Some m ->
    exists u t q, s = u ++ t /\ den true r (MState q t []) m.
Proof.
  induction s as [|c s IH]; intros p m Hs; cbn [search_from] in Hs.
  - destruct (run true r Some (MState p [] [])) eqn:Hr; [|discriminate].
    injection Hs as ->. apply run_sound in Hr. destruct Hr as (st' & Hd & Hk).
    injection Hk as ->. exists [], [], p. auto.
  - destruct (run true r Some (MState p (c :: s) [])) eqn:Hr.
    + injection Hs as ->. apply run_sound in Hr. destruct Hr as (st' & Hd & Hk).
      injection Hk as ->. exists [], (c :: s), p. auto.
    + destruct (IH _ _ Hs) as (u & t & q & -> & Hd). exists (c :: u), t, q. auto.
Qed.

Lemma den_literals (word : text) :
  forall st st', den true (cat (map Lit word)) st st' ->
    exists w, rest st = w ++ rest st' /\ lower w = lower word.
Proof.
  induction word as [|a word IH]; intros st st' Hd; simpl in Hd.
  - subst. exists []. auto.
  - destruct Hd as (mid & (c & Hr & Ht & _) & Hd). apply IH in Hd.
    destruct Hd as (w & Hw & Hl). exists (c :: w). split.
    + rewrite Hr, Hw. reflexivity.
    + simpl. rewrite Hl, (lit_test_lower _ _ Ht). reflexivity.
Qed.

Lemma time_pattern_word (st m : mstate) :
  den true time_pattern st m ->
  exists w, part_of w (rest st)
            /\ (lower w = str "screenshot" \/ lower w = str "cleanshot").
Proof.
  assert (Hshape : time_pattern
                   = Cat (Alt (cat (map Lit (str "Screenshot")))
                              (cat (map Lit (str "CleanShot"))))
                         (match time_pattern with Cat _ b => b | _ => Empty end))
    by (vm_compute; reflexivity).
  rewrite Hshape. intros (mid & [Hd | Hd] & _); apply den_literals in Hd;
    destruct Hd as (w & Hw & Hl); exists w; rewrite Hw;
    (split; [apply part_of_head|]); [left | right]; exact Hl.
Qed.

(** X19: the extractor returns a timestamp only for a name that holds
    the word [Screenshot] or [CleanShot] and the marker [AM] or [PM], in
    whatever case: a name without one of them gives no timestamp. *)
Theorem X19_extractor_needs_the_word_and_the_marker :
  forall (filename : text) (dt : datetime),
    extract_datetime_from_screenshot filename = Returns (Some dt) ->
    (exists w, part_of w filename
               /\ (lower w = str "screenshot" \/ lower w = str "cleanshot"))
    /\ (exists w, part_of w filename /\ (upper w = str "AM" \/ upper w = str "PM")).
Proof.
  intros filename dt He. rewrite extract_embedded in He. unfold embedded_fields in He.
  destruct (re_search time_pattern filename) as [m|] eqn:Hs; [|discriminate].
  apply search_from_part in Hs. destruct Hs as (u & t & q & -> & Hd). split.
  - destruct (time_pattern_word _ _ Hd) as (w & Hp & Hw).
    exists w. split; [apply part_of_app; exact Hp | exact Hw].
  - pose proof (time_pattern_groups _ _ Hd) as Hg.
    destruct Hg as (w1 & w2 & w3 & w4 & w5 & w6 & w7 & Hc & _ & _ & _ & _ & _ & _ & H7).
    exists w7. split; [|exact H7]. apply part_of_app.
    destruct (den_caps_part true time_pattern _ _ Hd 7 w7) as [[] | Hp]; [|exact Hp].
    rewrite Hc. left. reflexivity.
Qed.

Lemma X19_afternoon_witness :
  (exists w, part_of w (str "Screenshot 2024-01-15 at 3.45.10 PM.png")
             /\ (lower w = str "screenshot" \/ lower w = str "cleanshot"))
  /\ (exists w, part_of w (str "Screenshot 2024-01-15 at 3.45.10 PM.png")
                /\ (upper w = str "AM" \/ upper w = str "PM")).
Proof.
  apply (X19_extractor_needs_the_word_and_the_marker
           (str "Screenshot 2024-01-15 at 3.45.10 PM.png") (MkDatetime 2024 1 15 15 45 10)).
  vm_compute. reflexivity.
Defined.

(** *** The names the classifier accepts *)

Lemma den_no_newline (r : regex) :
  no_newline r = true -> forall st st',
    den true r st st' -> exists w, rest st = w ++ rest st' /\ forallb dot_test w = true.
Proof.
  destruct ci_tests as (Hdot & _).
  assert (Hclasses : forall c, is_digit c || is_word c = true -> dot_test c = true).
  { intros c Hc.
    assert (Hall : every_char (fun c => implb (is_digit c || is_word c) (dot_test c)) = true)
      by (vm_compute; reflexivity).
    pose proof (every_char_spec _ Hall c) as H. cbv beta in H. rewrite Hc in H. exact H. }
  induction r; cbn [no_newline]; intros Hn st st' Hd; cbn [den] in Hd; try discriminate;
    try (apply step_word in Hd; destruct Hd as (x & Hr & Hp & _); exists [x];
         split; [exact Hr|]; cbn [forallb]; rewrite andb_true_r).
  - subst. exists []. auto.
  - rewrite (Hdot x c (lit_test_lower _ _ Hp)). exact Hn.
  - exact Hp.
  - apply Hclasses. rewrite Hp. reflexivity.
  - apply Hclasses. rewrite Hp. apply orb_true_r.
  - apply andb_prop in Hn. destruct Hn as (N1 & N2). destruct Hd as (mid & H1 & H2).
    destruct (IHr1 N1 _ _ H1) as (w1 & E1 & D1).
    destruct (IHr2 N2 _ _ H2) as (w2 & E2 & D2).
    exists (w1 ++ w2). rewrite <- app_assoc, <- E2, forallb_app, D1, D2. auto.
  - apply andb_prop in Hn. destruct Hn as (N1 & N2). destruct Hd as [Hd | Hd]; eauto.
  - induction Hd as [st | st st1 st2 H1 _ _ IH].
    + exists []. auto.
    + destruct (IHr Hn _ _ H1) as (w1 & E1 & D1). destruct IH as (w2 & E2 & D2).
      exists (w1 ++ w2). rewrite <- app_assoc, <- E2, forallb_app, D1, D2. auto.
  - destruct Hd as (mid & H1 & ->). cbn [set_cap rest]. apply (IHr Hn _ _ H1).
  - destruct Hd as (_ & ->). exists []. auto.
  - destruct Hd as (_ & ->). exists []. auto.
Qed.

Lemma den_cat_intro (ic : bool) (l1 l2 : list regex) :
  forall st mid st', den ic (cat l1) st mid -> den ic (cat l2) mid st' ->
    den ic (cat (l1 ++ l2)) st st'.
Proof.
  induction l1 as [|r l1 IH]; intros st mid st' H1 H2; cbn [cat app den] in *.
  - subst. exact H2.
  - destruct H1 as (m & Hr & H1). exists m. split; [exact Hr|]. eapply IH; eauto.
Qed.

Lemma den_literals_intro (word : text) :
  forall (w : text) (p : nat) (t : text) (cs : list (nat * text)),
    lower w = lower word ->
    den true (cat (map Lit word)) (MState p (w ++ t) cs) (MState (length w + p) t cs).
Proof.
  induction word as [|a word IH]; intros [|c w] p t cs Hl; try discriminate;
    cbn [map cat den].
  - reflexivity.
  - injection Hl as Hc Hl. exists (MState (S p) (w ++ t) cs). split.
    + exists c. cbn [rest pos caps app]. repeat split. unfold lit_test. rewrite Hc.
      destruct (ascii_dec (lower_char a) (lower_char a)); [reflexivity|contradiction].
    + replace (length (c :: w) + p) with (length w + S p) by (cbn [length]; lia).
      apply IH. exact Hl.
Qed.

Lemma star_dot_intro (body : text) :
  forall (p : nat) (t : text) (cs : list (nat * text)),
    forallb dot_test body = true ->
    star_den (den true Dot) (MState p (body ++ t) cs) (MState (length body + p) t cs).
Proof.
  induction body as [|c body IH]; intros p t cs Hb; cbn [forallb] in Hb.
  - apply star_done.
  - apply andb_prop in Hb. destruct Hb as (Hc & Hb).
    apply (star_more _ _ (MState (S p) (body ++ t) cs)).
    + exists c. cbn [rest pos caps app]. auto.
    + cbn [rest app length]. lia.
    + replace (length (c :: body) + p) with (length body + S p) by (cbn [length]; lia).
      apply IH. exact Hb.
Qed.

(** A name made of a word, a body without a newline and an extension
    matches the pattern of that word and that extension. *)
Lemma den_word_body_extension (word ext w body e : text) :
  lower w = lower word -> forallb dot_test body = true -> lower e = lower ext ->
  exists st',
    den true (cat ([Bol] ++ map Lit word ++ [Star Dot] ++ map Lit ext ++ [Eol]))
      (MState 0 (w ++ body ++ e) []) st'.
Proof.
  intros Hw Hb He. eexists.
  apply (den_cat_intro true [Bol] _ _ (MState 0 (w ++ body ++ e) []));
    [exists (MState 0 (w ++ body ++ e) []); cbn [cat den pos]; auto|].
  apply (den_cat_intro true (map Lit word) _ _ (MState (length w + 0) (body ++ e) []));
    [apply den_literals_intro; exact Hw|].
  apply (den_cat_intro true [Star Dot] _ _
           (MState (length body + (length w + 0)) (e ++ []) []));
    [eexists; split; [apply star_dot_intro; exact Hb | rewrite app_nil_r; reflexivity]|].
  apply (den_cat_intro true (map Lit ext) _ _
           (MState (length e + (length body + (length w + 0))) [] []));
    [apply den_literals_intro; exact He|].
  eexists. split; [|reflexivity]. cbn [cat den rest]. auto.
Qed.

Lemma shape_parts (pattern : string) :
  In pattern screenshot_patterns ->
  exists word mid ext,
    compile pattern = cat ([Bol] ++ map Lit word ++ mid ++ map Lit ext ++ [Eol])
    /\ no_newline (cat mid) = true
    /\ ((word = str "CleanShot" /\ is_extension ext)
        \/ ((word = str "Screenshot" \/ word = str "Screen Shot") /\ ext = str ".png")).
Proof.
  unfold is_extension. simpl. intros Hin.
  repeat (destruct Hin as [<- | Hin]); try contradiction.
  - exists (str "Screenshot"),
           (middle 11 5 (compile "^Screenshot \d{4}-\d{2}-\d{2} at \d{1,2}\.\d{2}\.\d{2} (AM|PM)\.png$")),
           (str ".png").
    split; [vm_compute; reflexivity|]. split; [vm_compute; reflexivity|]. auto.
  - exists (str "Screen Shot"),
           (middle 12 5 (compile "^Screen Shot \d{4}-\d{2}-\d{2} at \d{1,2}\.\d{2}\.\d{2} (AM|PM)\.png$")),
           (str ".png").
    split; [vm_compute; reflexivity|]. split; [vm_compute; reflexivity|]. auto.
  - exists (str "CleanShot"), [Star Dot], (str ".png").
    split; [vm_compute; reflexivity|]. split; [vm_compute; reflexivity|]. auto.
  - exists (str "CleanShot"), [Star Dot], (str ".jpg").
    split; [vm_compute; reflexivity|]. split; [vm_compute; reflexivity|]. auto.
  - exists (str "CleanShot"), [Star Dot], (str ".jpeg").
    split; [vm_compute; reflexivity|]. split; [vm_compute; reflexivity|]. auto.
  - exists (str "Screenshot"), [Star Dot], (str ".png").
    split; [vm_compute; reflexivity|]. split; [vm_compute; reflexivity|]. auto.
  - exists (str "Screen Shot"), [Star Dot], (str ".png").
    split; [vm_compute; reflexivity|]. split; [vm_compute; reflexivity|]. auto.
Qed.

Lemma matches_parts (pattern : string) (word ext : text) (mid : list regex)
    (filename : text) :
  compile pattern = cat ([Bol] ++ map Lit word ++ mid ++ map Lit ext ++ [Eol]) ->
  no_newline (cat mid) = true ->
  matches pattern filename = true ->
  endswith filename [newline] = false ->
  exists w body e,
    filename = w ++ body ++ e /\ forallb dot_test body = true
    /\ lower w = lower word /\ lower e = lower ext.
Proof.
  intros Hc Hn Hm Hnl. apply matches_den in Hm. destruct Hm as (st' & Hd).
  rewrite Hc in Hd.
  apply den_cat_app in Hd. destruct Hd as (m0 & H0 & Hd).
  cbn [cat den] in H0. destruct H0 as (m0' & (_ & ->) & ->).
  apply den_cat_app in Hd. destruct Hd as (m1 & H1 & Hd).
  apply den_cat_app in Hd. destruct Hd as (m2 & H2 & Hd).
  apply den_literals in H1. destruct H1 as (w & Hw & Lw).
  apply (den_no_newline _ Hn) in H2. destruct H2 as (body & Hb & Db).
  apply den_literals_eol in Hd. destruct Hd as (e & He & Le).
  cbn [rest] in Hw. exists w, body, e.
  destruct He as [He | He]; rewrite He in Hb; rewrite Hb in Hw.
  - auto.
  - exfalso. rewrite Hw, !app_assoc, endswith_app in Hnl. discriminate.
Qed.

(** X20: the names the classifier accepts: the word [CleanShot] and
    then, after any characters but a newline, one of the three extensions,
    or the word [Screenshot] or the words [Screen Shot] and then, after any
    characters but a newline, the extension [.png]; all in whatever case.
    The two shapes with a date and a time of day add no name to these. *)
Theorem X20_names_the_classifier_accepts :
  forall (filename : text),
    is_screenshot_file filename = true
    <-> exists word body ext,
          filename = word ++ body ++ ext
          /\ forallb dot_test body = true
          /\ ((lower word = str "cleanshot" /\ is_extension (lower ext))
              \/ ((lower word = str "screenshot" \/ lower word = str "screen shot")
                  /\ lower ext = str ".png")).
Proof.
  intros filename. rewrite classifier_and_shapes. split.
  - intros Hs. apply andb_prop in Hs. destruct Hs as (Hm & Hnl).
    apply negb_true_iff in Hnl. unfold matches_a_shape in Hm.
    apply existsb_exists in Hm. destruct Hm as (pattern & Hin & Hm).
    destruct (shape_parts pattern Hin) as (word & mid & ext & Hc & Hn & Hcase).
    destruct (matches_parts pattern word ext mid filename Hc Hn Hm Hnl)
      as (w & body & e & Hf & Hb & Lw & Le).
    exists w, body, e. split; [exact Hf|]. split; [exact Hb|].
    rewrite Lw, Le. unfold is_extension in *.
    destruct Hcase as [(-> & [-> | [-> | ->]]) | ([-> | ->] & ->)];
      [left | left | left | right | right]; auto.
  - intros (w & body & e & -> & Hb & Hcase).
    assert (Hext : exists ext, is_extension ext /\ lower e = lower ext).
    { unfold is_extension in *.
      destruct Hcase as [(_ & [He | [He | He]]) | (_ & He)]; rewrite He;
        [ exists (str ".png") | exists (str ".jpg") | exists (str ".jpeg")
        | exists (str ".png") ];
        (split; [|reflexivity]); auto. }
    destruct Hext as (ext & Hext & Le).
    apply andb_true_intro. split.
    + unfold matches_a_shape. apply existsb_exists.
      assert (Hall : forall pattern word,
                 compile pattern
                 = cat ([Bol] ++ map Lit word ++ [Star Dot] ++ map Lit ext ++ [Eol]) ->
                 lower w = lower word -> matches pattern (w ++ body ++ e) = true).
      { intros pattern word Hc Lw. apply matches_den. rewrite Hc.
        apply den_word_body_extension; assumption. }
      unfold is_extension in *.
      destruct Hcase as [(Lw & [He | [He | He]]) | ([Lw | Lw] & He)];
        rewrite He in Le;
        destruct Hext as [-> | [-> | ->]]; try discriminate Le.
      * exists "^CleanShot.*\.png$"%string. split; [simpl; auto 8|].
        apply (Hall _ (str "CleanShot")); [vm_compute; reflexivity | rewrite Lw; reflexivity].
      * exists "^CleanShot.*\.jpg$"%string. split; [simpl; auto 8|].
        apply (Hall _ (str "CleanShot")); [vm_compute; reflexivity | rewrite Lw; reflexivity].
      * exists "^CleanShot.*\.jpeg$"%string. split; [simpl; auto 8|].
        apply (Hall _ (str "CleanShot")); [vm_compute; reflexivity | rewrite Lw; reflexivity].
      * exists "^Screenshot.*\.png$"%string. split; [simpl; auto 8|].
        apply (Hall _ (str "Screenshot")); [vm_compute; reflexivity | rewrite Lw; reflexivity].
      * exists "^Screen Shot.*\.png$"%string. split; [simpl; auto 8|].
        apply (Hall _ (str "Screen Shot")); [vm_compute; reflexivity | rewrite Lw; reflexivity].
    + apply negb_true_iff. rewrite !app_assoc.
      apply (endswith_newline_extension _ e ext Hext Le).
Qed.
